(** * The chat widget of [src/frontend/chat.js]

    A shallow embedding of the browser-side chat widget: the transcript
    renderer, the markdown post-processor (a global regular-expression
    replace), the copy-button binder and the request orchestrator
    ([sendMessage]), followed by the properties its specification states.

    - JavaScript strings are sequences of UTF-16 code units, [list N].
    - The pattern of [addAIMessage] is run by a backtracking matcher with
      continuations, for the fragment of ECMAScript patterns it uses.
    - The DOM is a tree of elements and text nodes.  A child of the
      transcript has an identity, so that [typingBubble.remove()] removes
      that very node.
    - The asynchronous parts ([await fetch], the clipboard promise,
      [setTimeout]) are lists of suspended continuations that the
      environment resumes through [step]; time is a clock in
      milliseconds.
    - Every operation is also appended to a trace, which keeps the order
      in which the script performs them.

    - A click goes to its target and then bubbles to the root of the
      document; the [onclick] of every element on the way runs.

    Outside the script, and taken as parameters: the markdown converter
    [marked.parse] and the HTML parser behind [innerHTML], both total
    functions on strings here; the page around the transcript, and
    where the container of the transcript and the send button are in
    it.  On an input that is not a string [marked.parse] throws, which
    is how a body without a string [reply] ends in the [catch] block.
    The clipboard is taken to be available.  Of the JSON bodies, [null],
    the objects with a string [reply] and the values without one are
    modelled, with a [system_note] that is absent or a string. *)

From Stdlib Require Import String Ascii.
From Stdlib Require Import List NArith ZArith Bool Arith Lia.
Import ListNotations.
Open Scope list_scope.

Set Implicit Arguments.

(* ------------------------------------------------------------------ *)
(** ** JavaScript strings *)
(* ------------------------------------------------------------------ *)

(** A string is its sequence of UTF-16 code units. *)
Definition js_string := list N.

(** An ASCII literal of the source. *)
Definition lit (s : string) : js_string :=
  map N_of_ascii (list_ascii_of_string s).

(** A literal of the source that contains double quotes: it is written
    here with single quotes (code 39) in their place, which [tpl] turns
    back into double quotes (code 34).  No literal of the source contains
    a single quote. *)
Definition tpl (s : string) : js_string :=
  map (fun c => if N.eqb c 39 then 34%N else c) (lit s).

Definition LF : N := 10.

(** [n] spaces, for the indentation inside template literals. *)
Definition spaces (n : nat) : js_string := repeat 32%N n.

Fixpoint str_eqb (a b : js_string) : bool :=
  match a, b with
  | [], [] => true
  | x :: a', y :: b' => N.eqb x y && str_eqb a' b'
  | _, _ => false
  end.

(** [strip_prefix p s] is [Some r] when [s = p ++ r]. *)
Fixpoint strip_prefix (p s : js_string) : option js_string :=
  match p with
  | [] => Some s
  | x :: p' =>
      match s with
      | [] => None
      | y :: s' => if N.eqb x y then strip_prefix p' s' else None
      end
  end.

(** [String.prototype.includes]: [p] occurs somewhere in [s]. *)
Fixpoint includes (p s : js_string) : bool :=
  match strip_prefix p s with
  | Some _ => true
  | None =>
      match s with
      | [] => false
      | _ :: s' => includes p s'
      end
  end.

(** Number of positions of [s] at which [p] occurs. *)
Fixpoint count_occurrences (p s : js_string) : nat :=
  (match strip_prefix p s with Some _ => 1 | None => 0 end) +
  match s with
  | [] => 0
  | _ :: s' => count_occurrences p s'
  end.

(** ECMAScript LineTerminator code points. *)
Definition is_line_terminator (c : N) : bool :=
  N.eqb c 10 || N.eqb c 13 || N.eqb c 8232 || N.eqb c 8233.

(** ECMAScript WhiteSpace code points (all in the basic plane). *)
Definition is_white_space (c : N) : bool :=
  N.eqb c 9 || N.eqb c 11 || N.eqb c 12 || N.eqb c 32 || N.eqb c 160 ||
  N.eqb c 5760 || (N.leb 8192 c && N.leb c 8202) ||
  N.eqb c 8239 || N.eqb c 8287 || N.eqb c 12288 || N.eqb c 65279.

(** What [String.prototype.trim] strips. *)
Definition is_trimmed_char (c : N) : bool :=
  is_white_space c || is_line_terminator c.

Fixpoint trim_start (s : js_string) : js_string :=
  match s with
  | [] => []
  | c :: s' => if is_trimmed_char c then trim_start s' else s
  end.

Definition trim_end (s : js_string) : js_string :=
  rev (trim_start (rev s)).

(** [String.prototype.trim]. *)
Definition trim (s : js_string) : js_string := trim_end (trim_start s).

(** Truthiness of a string: [!text] is true exactly for the empty one. *)
Definition truthy (s : js_string) : bool :=
  match s with [] => false | _ :: _ => true end.

(** Truthiness of a property that may be absent ([undefined]). *)
Definition truthy_opt (o : option js_string) : bool :=
  match o with Some s => truthy s | None => false end.

(* ------------------------------------------------------------------ *)
(** ** Regular expressions: the backtracking matcher *)
(* ------------------------------------------------------------------ *)

(** The fragment of ECMAScript patterns that the source uses. *)
Inductive regex : Type :=
| Lit (s : js_string)              (* a run of literal characters *)
| Seq (r1 r2 : regex)              (* r1 r2 *)
| OptGreedy (r : regex)            (* (?: r )?  *)
| StarLazy (cls : N -> bool)       (* c*? for a character class c *)
| Group (i : nat) (r : regex).     (* the i-th capturing group ( r ) *)

(** Capture groups: [None] is [undefined]. *)
Definition captures := nat -> option js_string.

Definition no_captures : captures := fun _ => None.

Definition set_capture (i : nat) (v : js_string) (c : captures) : captures :=
  fun j => if Nat.eqb i j then Some v else c j.

(** A match result: the rest of the input after the match, and the
    captures. *)
Definition match_result := (js_string * captures)%type.

(** Matcher continuations, as in the specification of the language. *)
Definition cont := js_string -> captures -> option match_result.

(** [c*?]: first try to go on without consuming; only when that fails
    consume one more character of the class. *)
Fixpoint star_lazy (cls : N -> bool) (s : js_string) (caps : captures)
    (k : cont) : option match_result :=
  match k s caps with
  | Some r => Some r
  | None =>
      match s with
      | [] => None
      | x :: s' => if cls x then star_lazy cls s' caps k else None
      end
  end.

Fixpoint re_match (r : regex) (s : js_string) (caps : captures) (k : cont)
    : option match_result :=
  match r with
  | Lit l =>
      match strip_prefix l s with
      | Some s' => k s' caps
      | None => None
      end
  | Seq r1 r2 => re_match r1 s caps (fun s1 c1 => re_match r2 s1 c1 k)
  | OptGreedy r1 =>
      match re_match r1 s caps k with
      | Some res => Some res
      | None => k s caps
      end
  | StarLazy cls => star_lazy cls s caps k
  | Group i r1 =>
      re_match r1 s caps
        (fun s' c' =>
           k s' (set_capture i (firstn (length s - length s') s) c'))
  end.

(** One attempt to match [r] at the head of [s]. *)
Definition re_exec_here (r : regex) (s : js_string) : option match_result :=
  re_match r s no_captures (fun rest caps => Some (rest, caps)).

(** [String.prototype.replace] with a global pattern and a replacer
    function: the matches are found from left to right, each search
    starting where the previous match ended (one code unit further after
    an empty match); what lies between the matches is copied. *)
Fixpoint replace_from (fuel : nat) (r : regex)
    (f : captures -> js_string) (s : js_string) : js_string :=
  match fuel with
  | O => s
  | S fuel' =>
      match re_exec_here r s with
      | Some (rest, caps) =>
          if Nat.ltb (length rest) (length s)
          then f caps ++ replace_from fuel' r f rest
          else f caps ++
               match s with
               | [] => []
               | c :: s' => c :: replace_from fuel' r f s'
               end
      | None =>
          match s with
          | [] => []
          | c :: s' => c :: replace_from fuel' r f s'
          end
      end
  end.

Definition replace_all (r : regex) (f : captures -> js_string)
    (s : js_string) : js_string :=
  replace_from (S (length s)) r f s.

(* ------------------------------------------------------------------ *)
(** ** The markdown post-processor of [addAIMessage] *)
(* ------------------------------------------------------------------ *)

Definition any_char (_ : N) : bool := true.               (* [\s\S] *)
Definition dot (c : N) : bool := negb (is_line_terminator c).   (* .  *)

Definition pre_code_open : js_string := lit "<pre><code".
Definition language_attr : js_string := tpl " class='language-".
Definition dquote : js_string := [34%N].
Definition tag_end : js_string := lit ">".
Definition pre_code_close : js_string := lit "</code></pre>".

(** [ class="language-(.*?)"], the body of the optional group. *)
Definition code_block_lang : regex :=
  Seq (Lit language_attr) (Seq (Group 1 (StarLazy dot)) (Lit dquote)).

(** [>([\s\S]*?)<\/code><\/pre>], what follows the optional group. *)
Definition code_block_tail : regex :=
  Seq (Lit tag_end) (Seq (Group 2 (StarLazy any_char)) (Lit pre_code_close)).

(** [/<pre><code(?: class="language-(.*?)")?>([\s\S]*?)<\/code><\/pre>/] *)
Definition code_block_re : regex :=
  Seq (Lit pre_code_open) (Seq (OptGreedy code_block_lang) code_block_tail).

(** The template literal returned by the replacer. *)
Definition code_wrapper (code : js_string) : js_string :=
  [LF] ++ spaces 16 ++ tpl "<div class='code-wrapper'>" ++
  [LF] ++ spaces 20 ++ tpl "<button class='copy-btn'>copy</button>" ++
  [LF] ++ spaces 20 ++ lit "<pre><code>" ++ code ++ lit "</code></pre>" ++
  [LF] ++ spaces 16 ++ lit "</div>" ++
  [LF] ++ spaces 12.

(** The replacer [(_, __, code) => ...]: its third argument is the second
    capture; an [undefined] one would be printed as such by the template. *)
Definition wrap_replacer (caps : captures) : js_string :=
  match caps 2 with
  | Some code => code_wrapper code
  | None => code_wrapper (lit "undefined")
  end.

(** [html.replace(/.../g, ...)] of [addAIMessage]. *)
Definition wrap_code_blocks (html : js_string) : js_string :=
  replace_all code_block_re wrap_replacer html.

(** *** The shape of the converter's output

    What the pattern is written for: text in which code blocks
    [<pre><code>...</code></pre>], with or without a language class, are
    embedded. *)
Record fence : Type := {
  fence_lang : option js_string;
  fence_code : js_string
}.

Definition fence_html (f : fence) : js_string :=
  pre_code_open ++
  match fence_lang f with
  | Some l => language_attr ++ l ++ dquote
  | None => []
  end ++
  tag_end ++ fence_code f ++ pre_code_close.

(** Chunks of other markup, each followed by a code block, and the text
    after the last block. *)
Fixpoint converter_output (blocks : list (js_string * fence))
    (tail : js_string) : js_string :=
  match blocks with
  | [] => tail
  | (t, f) :: bs => t ++ fence_html f ++ converter_output bs tail
  end.

(** The same text with every code block in its wrapper. *)
Fixpoint wrapped_output (blocks : list (js_string * fence))
    (tail : js_string) : js_string :=
  match blocks with
  | [] => tail
  | (t, f) :: bs => t ++ code_wrapper (fence_code f) ++ wrapped_output bs tail
  end.

(** The markup between the blocks holds no [<pre><code]. *)
Definition plain_chunk (t : js_string) : bool :=
  negb (includes pre_code_open t).

(** The language name holds no double quote and no line terminator, and
    the (escaped) code does not contain the closing tags. *)
Definition lang_char (c : N) : bool := dot c && negb (N.eqb c 34).

Definition fence_ok (f : fence) : bool :=
  match fence_lang f with
  | Some l => forallb lang_char l
  | None => true
  end && negb (includes pre_code_close (fence_code f)).

Definition block_ok (b : js_string * fence) : bool :=
  plain_chunk (fst b) && fence_ok (snd b).

(** The markup of one copy control, as the wrapper writes it. *)
Definition copy_button_html : js_string :=
  tpl "<button class='copy-btn'>copy</button>".

(** A code block whose content is [print(1)]: in the converter's HTML
    the code is that line with its line feed. *)
Definition print1 : js_string := lit "print(1)".

Definition print1_line : js_string := print1 ++ [LF].

Definition print1_fence (lang : option js_string) : fence :=
  {| fence_lang := lang; fence_code := print1_line |}.

(** No proper non-empty suffix of [p] is a prefix of [p]. *)
Definition unbordered (p : js_string) : bool :=
  forallb (fun k => match strip_prefix (skipn k p) p with
                    | Some _ => false
                    | None => true
                    end)
          (seq 1 (length p - 1)).

(* ------------------------------------------------------------------ *)
(** ** The DOM *)
(* ------------------------------------------------------------------ *)

(** The two click handlers that the script installs: the arrow function
    assigned to [btn.onclick] in [activateCopyButtons], which closes over
    its own button, and [sendMessage], assigned to [sendBtn.onclick]. *)
Inductive handler : Type := CopyHandler | SendHandler.

(** What the script reads and writes on an element.  [binds] is a ghost
    counter: the number of assignments to [onclick] made so far. *)
Record attrs : Type := {
  tag : js_string;
  classList : list js_string;
  data_bound : option js_string;      (* dataset.bound *)
  onclick : option handler;
  binds : nat
}.

#[local] Unset Elimination Schemes.
Inductive node : Type :=
| Text (data : js_string)
| Elem (a : attrs) (children : list node).
#[local] Set Elimination Schemes.

(** [document.createElement(t)] followed by [className = ...]. *)
Definition new_element (t : js_string) (classes : list js_string) : attrs :=
  {| tag := t; classList := classes; data_bound := None;
     onclick := None; binds := 0 |}.

Definition has_class (c : js_string) (a : attrs) : bool :=
  existsb (str_eqb c) (classList a).

Definition is_tag (t : js_string) (a : attrs) : bool := str_eqb t (tag a).

Definition is_copy_btn (a : attrs) : bool := has_class (lit "copy-btn") a.

(** The elements of a subtree in document order, as [querySelectorAll]
    visits them. *)
Fixpoint elements (n : node) : list attrs :=
  match n with
  | Text _ => []
  | Elem a ch => a :: flat_map elements ch
  end.

(** [querySelectorAll(".copy-btn")] on a subtree. *)
Definition copy_buttons (n : node) : list attrs :=
  filter is_copy_btn (elements n).

(** The body of the [forEach] callback of [activateCopyButtons]. *)
Definition bind_button (a : attrs) : attrs :=
  if truthy_opt (data_bound a) then a
  else {| tag := tag a; classList := classList a;
          data_bound := Some (lit "1");
          onclick := Some CopyHandler;
          binds := S (binds a) |}.

Definition activate_attrs (a : attrs) : attrs :=
  if is_copy_btn a then bind_button a else a.

(** [activateCopyButtons] on a subtree. *)
Fixpoint activate_node (n : node) : node :=
  match n with
  | Text t => Text t
  | Elem a ch => Elem (activate_attrs a) (map activate_node ch)
  end.

(** The [innerText] setter: the text becomes text nodes, its line breaks
    become [br] elements; nothing of it is parsed as markup. *)
Definition br : node := Elem (new_element (lit "br") []) [].

Definition flush_line (line : js_string) : list node :=
  match line with [] => [] | _ :: _ => [Text (rev line)] end.

Fixpoint text_fragment (line : js_string) (s : js_string) : list node :=
  match s with
  | [] => flush_line line
  | c :: s' =>
      if N.eqb c 13 then
        match s' with
        | d :: s'' =>
            if N.eqb d 10
            then flush_line line ++ br :: text_fragment [] s''
            else flush_line line ++ br :: text_fragment [] s'
        | [] => flush_line line ++ [br]
        end
      else if N.eqb c 10 then flush_line line ++ br :: text_fragment [] s'
      else text_fragment (c :: line) s'
  end.

Definition set_innerText (text : js_string) (n : node) : node :=
  match n with
  | Text t => Text t
  | Elem a _ => Elem a (text_fragment [] text)
  end.

(** A child that the [innerText] setter can create. *)
Definition text_or_br (n : node) : bool :=
  match n with
  | Text _ => true
  | Elem a ch => is_tag (lit "br") a && match ch with [] => true | _ => false end
  end.

Definition no_cr (s : js_string) : bool :=
  forallb (fun c => negb (N.eqb c 13)) s.

(** The [innerText] getter, read as the text of the subtree with a line
    feed for each [br] (the part of [innerText] that depends on styling
    is not modelled). *)
Fixpoint innerText (n : node) : js_string :=
  match n with
  | Text t => t
  | Elem a ch =>
      if is_tag (lit "br") a then [LF] else flat_map innerText ch
  end.

Fixpoint first_some (A : Type) (l : list (option A)) : option A :=
  match l with
  | [] => None
  | Some x :: _ => Some x
  | None :: l' => first_some l'
  end.

(** The first element with tag [code] in a subtree, in document order. *)
Fixpoint find_code (n : node) : option node :=
  match n with
  | Text _ => None
  | Elem a ch =>
      if is_tag (lit "code") a then Some n
      else first_some (map find_code ch)
  end.

(** [el.querySelector("code")]: the first such descendant of [el]. *)
Definition querySelector_code (n : node) : option node :=
  match n with
  | Text _ => None
  | Elem _ ch => first_some (map find_code ch)
  end.

(** Paths: the child indices from a root down to a node. *)
Definition path := list nat.

Fixpoint get_node (n : node) (p : path) : option node :=
  match p with
  | [] => Some n
  | i :: p' =>
      match n with
      | Text _ => None
      | Elem _ ch =>
          match nth_error ch i with
          | Some c => get_node c p'
          | None => None
          end
      end
  end.

Fixpoint update_nth (A : Type) (i : nat) (f : A -> A) (l : list A) : list A :=
  match l with
  | [] => []
  | x :: l' =>
      match i with
      | O => f x :: l'
      | S i' => x :: update_nth i' f l'
      end
  end.

Fixpoint update_node (f : node -> node) (n : node) (p : path) : node :=
  match p with
  | [] => f n
  | i :: p' =>
      match n with
      | Text t => Text t
      | Elem a ch => Elem a (update_nth i (fun c => update_node f c p') ch)
      end
  end.

Fixpoint remove_nth (A : Type) (i : nat) (l : list A) : list A :=
  match l with
  | [] => []
  | x :: l' =>
      match i with
      | O => l'
      | S i' => x :: remove_nth i' l'
      end
  end.

(* ------------------------------------------------------------------ *)
(** ** The widget state *)
(* ------------------------------------------------------------------ *)

(** A child of [chatContainer].  [entry_id] is the identity of the node:
    [typingBubble.remove()] removes that very node. *)
Record entry : Type := { entry_id : nat; entry_node : node }.

(** Where an element is: in the page outside the transcript, or inside
    the transcript entry with a given identity. *)
Inductive loc : Type :=
| InPage (p : path)
| InEntry (id : nat) (p : path).

(** The body of the POST request. *)
Record payload : Type := {
  message : js_string;
  model : js_string;
  prev_model : js_string
}.

(** A body of the expected shape [{reply, system_note?}]. *)
Record response : Type := {
  reply : js_string;
  system_note : option js_string
}.

(** How a backend call ends.  The HTTP status is carried along although
    the script never reads it.  A parsed body is [null], or has a string
    [reply], or has none: an error object such as [{"detail": ...}], an
    object whose [reply] is not a string, or a number, a string, a
    boolean or an array, on which [reply] and [system_note] are
    [undefined].  A [system_note] that is neither absent nor a string is
    not modelled. *)
Inductive outcome : Type :=
| NetworkError                           (* [fetch] rejects *)
| NotJson (status : Z)                   (* [response.json()] rejects *)
| JsonNull (status : Z)                  (* the body is the JSON text null *)
| JsonReply (status : Z) (data : response)
| JsonNoReply (status : Z) (note : option js_string).
                                         (* parsed, no string [reply] *)

Inductive js_error : Type :=
| TypeError_fetch | SyntaxError_json | TypeError_null | Error_marked.

(** A [sendMessage] call suspended at its [await]: the locals it still
    needs are [typingBubble] and [model]. *)
Record request : Type := { req_bubble : nat; req_model : js_string }.

(** A pending [setTimeout(() => btn.innerText = "copy", delay)]. *)
Record timer : Type := { due : Z; target : loc }.

(** The trace of operations, in program order. *)
Inductive event : Type :=
| EvAppendChild (e : entry)              (* chatContainer.appendChild *)
| EvRemove (id : nat)                    (* typingBubble.remove() *)
| EvScroll                               (* scrollToBottom *)
| EvClearInput                           (* inputBox.value = "" *)
| EvFetch (url : js_string) (body : payload)
| EvPlayClick                            (* audio.play() *)
| EvSetLastModel (m : js_string)         (* lastModelUsed = model *)
| EvActivateCopyButtons
| EvConsoleError (e : js_error)
| EvClipboardWrite (text : js_string)
| EvSetLabel (l : loc) (text : js_string)
| EvSetTimeout (delay : Z) (l : loc).

Record state : Type := {
  page : node;                  (* the document around the transcript *)
  chat : list entry;            (* chatContainer.children *)
  next_id : nat;                (* the next fresh node identity *)
  input_value : js_string;      (* inputBox.value *)
  select_value : js_string;     (* modelSelect.value *)
  lastModelUsed : js_string;
  in_flight : list request;     (* [sendMessage] calls awaiting the backend *)
  clipboard_waiting : list loc; (* [writeText] promises not yet settled *)
  timers : list timer;
  now : Z;                      (* milliseconds *)
  log : list event
}.

Definition set_page (v : node) (s : state) : state :=
  {| page := v; chat := chat s; next_id := next_id s;
     input_value := input_value s; select_value := select_value s;
     lastModelUsed := lastModelUsed s; in_flight := in_flight s;
     clipboard_waiting := clipboard_waiting s; timers := timers s;
     now := now s; log := log s |}.

Definition set_chat (v : list entry) (s : state) : state :=
  {| page := page s; chat := v; next_id := next_id s;
     input_value := input_value s; select_value := select_value s;
     lastModelUsed := lastModelUsed s; in_flight := in_flight s;
     clipboard_waiting := clipboard_waiting s; timers := timers s;
     now := now s; log := log s |}.

Definition set_next_id (v : nat) (s : state) : state :=
  {| page := page s; chat := chat s; next_id := v;
     input_value := input_value s; select_value := select_value s;
     lastModelUsed := lastModelUsed s; in_flight := in_flight s;
     clipboard_waiting := clipboard_waiting s; timers := timers s;
     now := now s; log := log s |}.

Definition set_input_value (v : js_string) (s : state) : state :=
  {| page := page s; chat := chat s; next_id := next_id s;
     input_value := v; select_value := select_value s;
     lastModelUsed := lastModelUsed s; in_flight := in_flight s;
     clipboard_waiting := clipboard_waiting s; timers := timers s;
     now := now s; log := log s |}.

Definition set_select_value (v : js_string) (s : state) : state :=
  {| page := page s; chat := chat s; next_id := next_id s;
     input_value := input_value s; select_value := v;
     lastModelUsed := lastModelUsed s; in_flight := in_flight s;
     clipboard_waiting := clipboard_waiting s; timers := timers s;
     now := now s; log := log s |}.

Definition set_lastModelUsed (v : js_string) (s : state) : state :=
  {| page := page s; chat := chat s; next_id := next_id s;
     input_value := input_value s; select_value := select_value s;
     lastModelUsed := v; in_flight := in_flight s;
     clipboard_waiting := clipboard_waiting s; timers := timers s;
     now := now s; log := log s |}.

Definition set_in_flight (v : list request) (s : state) : state :=
  {| page := page s; chat := chat s; next_id := next_id s;
     input_value := input_value s; select_value := select_value s;
     lastModelUsed := lastModelUsed s; in_flight := v;
     clipboard_waiting := clipboard_waiting s; timers := timers s;
     now := now s; log := log s |}.

Definition set_clipboard_waiting (v : list loc) (s : state) : state :=
  {| page := page s; chat := chat s; next_id := next_id s;
     input_value := input_value s; select_value := select_value s;
     lastModelUsed := lastModelUsed s; in_flight := in_flight s;
     clipboard_waiting := v; timers := timers s;
     now := now s; log := log s |}.

Definition set_timers (v : list timer) (s : state) : state :=
  {| page := page s; chat := chat s; next_id := next_id s;
     input_value := input_value s; select_value := select_value s;
     lastModelUsed := lastModelUsed s; in_flight := in_flight s;
     clipboard_waiting := clipboard_waiting s; timers := v;
     now := now s; log := log s |}.

Definition set_now (v : Z) (s : state) : state :=
  {| page := page s; chat := chat s; next_id := next_id s;
     input_value := input_value s; select_value := select_value s;
     lastModelUsed := lastModelUsed s; in_flight := in_flight s;
     clipboard_waiting := clipboard_waiting s; timers := timers s;
     now := v; log := log s |}.

(** Append an operation to the trace. *)
Definition emit (e : event) (s : state) : state :=
  {| page := page s; chat := chat s; next_id := next_id s;
     input_value := input_value s; select_value := select_value s;
     lastModelUsed := lastModelUsed s; in_flight := in_flight s;
     clipboard_waiting := clipboard_waiting s; timers := timers s;
     now := now s; log := log s ++ [e] |}.

(* ------------------------------------------------------------------ *)
(** ** The script *)
(* ------------------------------------------------------------------ *)

Definition robot : js_string := [0xD83E; 0xDD16]%N.        (* U+1F916 *)

(** The template literal of [addTypingBubble]. *)
Definition typing_html : js_string :=
  [LF] ++ spaces 8 ++ tpl "<div class='typing'>" ++
  [LF] ++ spaces 12 ++ tpl "<span class='robot-blink'>" ++ robot ++
                       lit "</span>" ++
  [LF] ++ spaces 12 ++ tpl "<div class='dot'></div>" ++
  [LF] ++ spaces 12 ++ tpl "<div class='dot'></div>" ++
  [LF] ++ spaces 12 ++ tpl "<div class='dot'></div>" ++
  [LF] ++ spaces 8 ++ lit "</div>" ++
  [LF] ++ spaces 4.

(** The template literal that [addSystemNote] adds for the loader. *)
Definition loader_html : js_string :=
  [LF] ++ spaces 12 ++ tpl "<div class='loading-bar'>" ++
  [LF] ++ spaces 16 ++ tpl "<div class='loading-fill'></div>" ++
  [LF] ++ spaces 12 ++ lit "</div>" ++
  [LF] ++ spaces 8.

Definition system_note_html (text : js_string) (withLoader : bool)
    : js_string :=
  lit "<i>" ++ text ++ lit "</i>" ++
  (if withLoader then loader_html else []).

Definition error_text : js_string :=
  [0x274C]%N ++ lit " Could not connect to backend.".

Definition welcome_text : js_string :=
  lit "Welcome! " ++ [0xD83D; 0xDE0A]%N ++
  lit " How can I help you today?<br>" ++
  lit "Paste your prompt, logs, or error code " ++ [0x2014]%N ++
  lit " I" ++ [0x2019]%N ++
  lit "ll guide you step-by-step in fixing your issues." ++
  [0xD83D; 0xDD27]%N.

Definition switch_note (selected : js_string) : js_string :=
  lit "Switching to <b>" ++ selected ++ lit "</b> " ++ robot.

Definition chat_url : js_string := lit "http://127.0.0.1:8000/api/chat".

Definition copy_label : js_string := lit "copy".
Definition copied_label : js_string := lit "copied!".
Definition failed_label : js_string := lit "failed".

Definition div (classes : list js_string) : node :=
  Elem (new_element (lit "div") classes) [].

Definition msg_user : list js_string := [lit "msg"; lit "msg-user"].
Definition msg_system : list js_string := [lit "msg"; lit "msg-system"].
Definition msg_ai : list js_string := [lit "msg"; lit "msg-ai"].

Definition activate_entry (e : entry) : entry :=
  {| entry_id := entry_id e; entry_node := activate_node (entry_node e) |}.

Definition update_entry (id : nat) (f : node -> node) (e : entry) : entry :=
  if Nat.eqb (entry_id e) id
  then {| entry_id := entry_id e; entry_node := f (entry_node e) |}
  else e.

Fixpoint find_entry (id : nat) (l : list entry) : option entry :=
  match l with
  | [] => None
  | e :: l' => if Nat.eqb (entry_id e) id then Some e else find_entry id l'
  end.

(** The children that [chatContainer] has when the script starts. *)
Definition initial_entries (children : list node) : list entry :=
  map (fun p => {| entry_id := fst p; entry_node := snd p |})
      (combine (seq 0 (length children)) children).

(* ------------------------------------------------------------------ *)
(** ** A sample environment *)
(* ------------------------------------------------------------------ *)

(** A converter that puts its input in a paragraph and a parser that
    keeps markup as one text node: enough to run the script on examples.
    The sample page holds one code block in its wrapper. *)
Definition sample_marked (text : js_string) : js_string :=
  lit "<p>" ++ text ++ lit "</p>" ++ [LF].

Definition sample_parse_html (html : js_string) : list node := [Text html].

Definition sample_button : node :=
  Elem (new_element (lit "button") [lit "copy-btn"]) [Text copy_label].

Definition sample_code : node :=
  Elem (new_element (lit "code") []) [Text print1].

Definition sample_wrapper : node :=
  Elem (new_element (lit "div") [lit "code-wrapper"])
       [sample_button; Elem (new_element (lit "pre") []) [sample_code]].

Definition sample_page : node :=
  Elem (new_element (lit "body") [])
       [sample_wrapper;
        Elem (new_element (lit "div") []) [];
        Elem (new_element (lit "button") []) [Text (lit "Send")]].

(** Where the container and the send button are in the sample page. *)
Definition sample_container : path := [1].
Definition sample_send : path := [2].

(** A converter for a fragment of CommonMark: paragraphs of one line of
    plain text, and fenced code blocks with an info string of one word.
    As CommonMark has it, and [marked] with it, the content of a code
    block is its lines, each with its line feed, escaped for HTML. *)
Fixpoint split_lines (cur : js_string) (s : js_string) : list js_string :=
  match s with
  | [] => [rev cur]
  | c :: s' =>
      if N.eqb c 10 then rev cur :: split_lines [] s'
      else split_lines (c :: cur) s'
  end.

Definition escape_char (c : N) : js_string :=
  if N.eqb c 38 then lit "&amp;"
  else if N.eqb c 60 then lit "&lt;"
  else if N.eqb c 62 then lit "&gt;"
  else if N.eqb c 34 then lit "&quot;"
  else [c].

Definition escape_html (s : js_string) : js_string := flat_map escape_char s.

Definition fence_mark : js_string := [96; 96; 96]%N.

Definition code_html (info body : js_string) : js_string :=
  fence_html {| fence_lang := match info with
                              | [] => None
                              | _ :: _ => Some (escape_html info)
                              end;
                fence_code := body |} ++ [LF].

Fixpoint render_lines (inside : option (js_string * js_string))
    (lines : list js_string) : js_string :=
  match lines with
  | [] =>
      match inside with
      | Some (info, body) => code_html info body
      | None => []
      end
  | l :: rest =>
      match inside with
      | Some (info, body) =>
          match strip_prefix fence_mark l with
          | Some _ => code_html info body ++ render_lines None rest
          | None =>
              render_lines (Some (info, body ++ escape_html l ++ [LF])) rest
          end
      | None =>
          match strip_prefix fence_mark l with
          | Some info => render_lines (Some (info, [])) rest
          | None =>
              match l with
              | [] => render_lines None rest
              | _ :: _ =>
                  lit "<p>" ++ escape_html l ++ lit "</p>" ++ [LF] ++
                  render_lines None rest
              end
          end
      end
  end.

Definition sample_commonmark (text : js_string) : js_string :=
  render_lines None (split_lines [] text).

(** A reply with one fenced code block whose content is [print(1)]. *)
Definition print1_reply : js_string :=
  lit "Run:" ++ [LF] ++ fence_mark ++ lit "python" ++ [LF] ++
  lit "print(1)" ++ [LF] ++ fence_mark.

(** The sample button once the binder has run. *)
Definition sample_bound : attrs :=
  {| tag := lit "button"; classList := [lit "copy-btn"];
     data_bound := Some (lit "1"); onclick := Some CopyHandler;
     binds := 1 |}.

Definition sample_model : js_string := lit "llama3".
Definition other_model : js_string := lit "mistral".

Definition sample_blocks : list (js_string * fence) :=
  [(lit "<p>Run:</p>" ++ [LF],
    {| fence_lang := Some (lit "python"); fence_code := print1_line |});
   (lit "<p>or</p>" ++ [LF],
    {| fence_lang := None; fence_code := lit "1 &lt; 2" ++ [LF] |})].

Definition empty_note_reply : response :=
  {| reply := lit "hi"; system_note := Some [] |}.

Section Widget.

(** The two collaborators that the script calls and does not define:
    the markdown converter [marked.parse], and the HTML parser behind the
    [innerHTML] setter. *)
Variable marked_parse : js_string -> js_string.
Variable parse_html : js_string -> list node.

(** Where [document.getElementById] finds the container of the
    transcript and the send button in the page. *)
Variable container_path : path.
Variable send_button_path : path.

Definition set_innerHTML (html : js_string) (n : node) : node :=
  match n with
  | Text t => Text t
  | Elem a _ => Elem a (parse_html html)
  end.

Definition scrollToBottom (s : state) : state := emit EvScroll s.

(** [chatContainer.appendChild(n)] for a node just created; the result
    carries the identity of the new child. *)
Definition appendChild (n : node) (s : state) : nat * state :=
  let e := {| entry_id := next_id s; entry_node := n |} in
  (next_id s,
   emit (EvAppendChild e)
     (set_next_id (S (next_id s)) (set_chat (chat s ++ [e]) s))).

(** [el.remove()] for a child of [chatContainer]; nothing happens when
    the node is no longer there. *)
Definition remove_entry (id : nat) (s : state) : state :=
  emit (EvRemove id)
    (set_chat (filter (fun e => negb (Nat.eqb (entry_id e) id)) (chat s)) s).

(** The user entry that [addUserMessage] builds from [text]. *)
Definition user_node (text : js_string) : node :=
  set_innerText text (div msg_user).

Definition addUserMessage (text : js_string) (s : state) : state :=
  scrollToBottom (snd (appendChild (user_node text) s)).

(** The system entry that [addSystemNote] builds. *)
Definition system_node (text : js_string) (withLoader : bool) : node :=
  set_innerHTML (system_note_html text withLoader) (div msg_system).

Definition addSystemNote (text : js_string) (withLoader : bool) (s : state)
    : state :=
  scrollToBottom (snd (appendChild (system_node text withLoader) s)).

Definition activateCopyButtons (s : state) : state :=
  emit EvActivateCopyButtons
    (set_chat (map activate_entry (chat s))
       (set_page (activate_node (page s)) s)).

(** The assistant entry that [addAIMessage] builds from [text]. *)
Definition ai_node (text : js_string) : node :=
  set_innerHTML (wrap_code_blocks (marked_parse text)) (div msg_ai).

Definition addAIMessage (text : js_string) (s : state) : state :=
  scrollToBottom (activateCopyButtons (snd (appendChild (ai_node text) s))).

Definition typing_node : node := set_innerHTML typing_html (div msg_ai).

Definition addTypingBubble (s : state) : nat * state :=
  let (bubble, s1) := appendChild typing_node s in
  (bubble, scrollToBottom s1).

(** [playClick]: one playback attempt; whatever goes wrong is swallowed. *)
Definition playClick (s : state) : state := emit EvPlayClick s.

(** [sendMessage] up to its first [await]. *)
Definition sendMessage (s : state) : state :=
  let text := trim (input_value s) in
  if negb (truthy text) then s
  else
    let s1 := addUserMessage text s in
    let s2 := emit EvClearInput (set_input_value [] s1) in
    let (typingBubble, s3) := addTypingBubble s2 in
    let model := select_value s3 in
    let s4 := emit (EvFetch chat_url
                      {| message := text; model := model;
                         prev_model := lastModelUsed s3 |}) s3 in
    set_in_flight
      (in_flight s4 ++ [{| req_bubble := typingBubble; req_model := model |}])
      s4.

(** The [catch] block of [sendMessage]. *)
Definition sendMessage_catch (r : request) (e : js_error) (s : state)
    : state :=
  let s1 := remove_entry (req_bubble r) s in
  let s2 := addAIMessage error_text s1 in
  emit (EvConsoleError e) s2.

(** [sendMessage] from the point where the backend call has ended. *)
Definition sendMessage_resume (r : request) (o : outcome) (s : state)
    : state :=
  match o with
  | NetworkError => sendMessage_catch r TypeError_fetch s
  | NotJson _ => sendMessage_catch r SyntaxError_json s
  | JsonNull _ =>
      (* [typingBubble.remove()] runs, then [data.system_note] throws *)
      let s1 := remove_entry (req_bubble r) s in
      sendMessage_catch r TypeError_null s1
  | JsonReply _ data =>
      let s1 := remove_entry (req_bubble r) s in
      let s2 := match system_note data with
                | Some note =>
                    if truthy note
                    then addSystemNote note true (playClick s1)
                    else s1
                | None => s1
                end in
      let s3 := emit (EvSetLastModel (req_model r))
                  (set_lastModelUsed (req_model r) s2) in
      addAIMessage (reply data) s3
  | JsonNoReply _ note =>
      let s1 := remove_entry (req_bubble r) s in
      let s2 := match note with
                | Some text =>
                    if truthy text
                    then addSystemNote text true (playClick s1)
                    else s1
                | None => s1
                end in
      let s3 := emit (EvSetLastModel (req_model r))
                  (set_lastModelUsed (req_model r) s2) in
      (* [addAIMessage(data.reply)]: [marked.parse] throws on an input
         that is not a string, before anything is appended *)
      sendMessage_catch r Error_marked s3
  end.

(** The listener of the [change] event of the model selector. *)
Definition on_model_change (s : state) : state :=
  let selected := select_value s in
  addSystemNote (switch_note selected) true (playClick s).

(** The listener of [keydown] on the input box. *)
Definition on_keydown (key : js_string) (shiftKey : bool) (s : state)
    : state :=
  if str_eqb key (lit "Enter") && negb shiftKey then sendMessage s else s.

(** Looking an element up, and its [parentElement]. *)
Definition chat_container (s : state) : node :=
  Elem (new_element (lit "div") []) (map entry_node (chat s)).

Definition lookup (l : loc) (s : state) : option node :=
  match l with
  | InPage p => get_node (page s) p
  | InEntry id p =>
      match find_entry id (chat s) with
      | Some e => get_node (entry_node e) p
      | None => None
      end
  end.

(** The document: the page with the transcript as the children of the
    container. *)
Definition with_children (ch : list node) (n : node) : node :=
  match n with
  | Text t => Text t
  | Elem a _ => Elem a ch
  end.

Definition doc_tree (s : state) : node :=
  update_node (with_children (map entry_node (chat s))) (page s)
    container_path.

Definition parent_of (l : loc) (s : state) : option node :=
  match l with
  | InPage [] => None
  | InPage p => get_node (doc_tree s) (removelast p)
  | InEntry id [] =>
      match find_entry id (chat s) with
      | Some _ => Some (chat_container s)
      | None => None
      end
  | InEntry id p =>
      match find_entry id (chat s) with
      | Some e => get_node (entry_node e) (removelast p)
      | None => None
      end
  end.

(** [btn.innerText = text] for the button at [l]. *)
Definition set_label (l : loc) (text : js_string) (s : state) : state :=
  emit (EvSetLabel l text)
    match l with
    | InPage p => set_page (update_node (set_innerText text) (page s) p) s
    | InEntry id p =>
        set_chat
          (map (update_entry id
                  (fun n => update_node (set_innerText text) n p))
               (chat s)) s
    end.

Definition setTimeout (delay : Z) (l : loc) (s : state) : state :=
  emit (EvSetTimeout delay l)
    (set_timers (timers s ++ [{| due := (now s + delay)%Z; target := l |}]) s).

(** The click handler bound by [activateCopyButtons], for the button at
    [l], up to the clipboard promise. *)
Definition copy_click (l : loc) (s : state) : state :=
  match parent_of l s with
  | None => s
  | Some parent =>
      match querySelector_code parent with
      | None => s
      | Some codeEl =>
          let code := innerText codeEl in
          set_clipboard_waiting (clipboard_waiting s ++ [l])
            (emit (EvClipboardWrite code) s)
      end
  end.

(** The [then] and [catch] callbacks of the clipboard promise. *)
Definition copy_settled (l : loc) (ok : bool) (s : state) : state :=
  if ok
  then setTimeout 1000 l (set_label l copied_label s)
  else setTimeout 1200 l (set_label l failed_label s).

(** The proper ancestors of a node, the nearest first: those inside its
    own root and, for a node of the transcript, the container and the
    ancestors of the container in the page. *)
Definition ancestor_paths (p : path) : list path :=
  map (fun k => firstn k p) (rev (seq 0 (length p))).

Definition ancestors (l : loc) : list loc :=
  match l with
  | InPage p => map InPage (ancestor_paths p)
  | InEntry id p =>
      map (InEntry id) (ancestor_paths p) ++
      map InPage (container_path :: ancestor_paths container_path)
  end.

(** The [onclick] of the element at [l]. *)
Definition handler_at (l : loc) (s : state) : option handler :=
  match lookup l s with
  | Some (Elem a _) => onclick a
  | _ => None
  end.

(** The click event reaches the element at [l]: its handler runs. *)
Definition run_handler (l : loc) (s : state) : state :=
  match handler_at l s with
  | Some CopyHandler => copy_click l s
  | Some SendHandler => sendMessage s
  | None => s
  end.

(** A click on the node at [l]: the event goes to the target and then
    bubbles through its ancestors; nothing stops it. *)
Definition click (l : loc) (s : state) : state :=
  match lookup l s with
  | None => s
  | Some _ => fold_left (fun st l' => run_handler l' st) (l :: ancestors l) s
  end.

(** [document.querySelectorAll(".copy-btn")]: the copy buttons of the
    page and of the transcript. *)
Definition doc_buttons (s : state) : list attrs :=
  copy_buttons (page s) ++
  flat_map (fun e => copy_buttons (entry_node e)) (chat s).

(** What the user and the environment can do. *)
Inductive action : Type :=
| Input (v : js_string)                  (* the user edits the input box *)
| ClickSend                              (* sendBtn.onclick runs *)
| Keydown (key : js_string) (shiftKey : bool)
| ChangeModel (m : js_string)            (* the selector changes to [m] *)
| Respond (i : nat) (o : outcome)        (* the i-th backend call ends *)
| ClickOn (l : loc)                      (* a click on the node at [l] *)
| ClipboardSettles (i : nat) (ok : bool)
| Elapse (dt : Z)
| TimerFires (i : nat).

Definition step (a : action) (s : state) : state :=
  match a with
  | Input v => set_input_value v s
  | ClickSend => sendMessage s
  | Keydown key shiftKey => on_keydown key shiftKey s
  | ChangeModel m => on_model_change (set_select_value m s)
  | Respond i o =>
      match nth_error (in_flight s) i with
      | Some r =>
          sendMessage_resume r o
            (set_in_flight (remove_nth i (in_flight s)) s)
      | None => s
      end
  | ClickOn l => click l s
  | ClipboardSettles i ok =>
      match nth_error (clipboard_waiting s) i with
      | Some l =>
          copy_settled l ok
            (set_clipboard_waiting (remove_nth i (clipboard_waiting s)) s)
      | None => s
      end
  | Elapse dt => set_now (now s + Z.max 0 dt)%Z s
  | TimerFires i =>
      match nth_error (timers s) i with
      | Some t =>
          if Z.leb (due t) (now s)
          then set_label (target t) copy_label
                 (set_timers (remove_nth i (timers s)) s)
          else s
      | None => s
      end
  end.

(** Counting in the trace: the calls issued, and the two operations
    that conclude a resumed call, the write of [lastModelUsed] and the
    report to the console (a body without a string [reply] gives
    both). *)
Definition is_fetch (e : event) : bool :=
  match e with EvFetch _ _ => true | _ => false end.

Definition is_completion (e : event) : bool :=
  match e with
  | EvSetLastModel _ | EvConsoleError _ => true
  | _ => false
  end.

Definition count_events (p : event -> bool) (l : list event) : nat :=
  length (filter p l).

Definition at_most_one_in_flight (s : state) : Prop :=
  length (in_flight s) <= 1.

(** The identities of the transcript entries and of the placeholders
    that the calls in flight own. *)
Definition entry_ids (s : state) : list nat := map entry_id (chat s).

Definition owned_bubbles (s : state) : list nat :=
  map req_bubble (in_flight s).

(** Every placeholder owned by a call in flight is in the transcript,
    no two calls own the same one, and identities are fresh. *)
Definition ids_ok (s : state) : Prop :=
  NoDup (owned_bubbles s) /\
  incl (owned_bubbles s) (entry_ids s) /\
  Forall (fun i => i < next_id s) (entry_ids s).

(** Whether an action resumes a call in flight. *)
Definition resumes (a : action) (s : state) : nat :=
  match a with
  | Respond i _ =>
      match nth_error (in_flight s) i with
      | Some _ => 1
      | None => 0
      end
  | _ => 0
  end.

(** Operations that neither issue nor resume a call. *)
Definition quiet (evs : list event) : bool :=
  forallb (fun e => negb (is_fetch e || is_completion e)) evs.

Definition is_play (e : event) : bool :=
  match e with EvPlayClick => true | _ => false end.

(** An append of a system note, recognised by its class. *)
Definition is_system_append (e : event) : bool :=
  match e with
  | EvAppendChild x =>
      match entry_node x with
      | Elem a _ => has_class (lit "msg-system") a
      | Text _ => false
      end
  | _ => false
  end.

(** The three variables that the handlers share. *)
Definition vars (s : state) : js_string * js_string * js_string :=
  (lastModelUsed s, select_value s, input_value s).

(** The entries that a resumed call appends, the first with identity
    [n]: the error message, or the system note (when there is one to
    show) and the answer. *)
Definition answer_entries (n : nat) (o : outcome) : list entry :=
  let shown text id := {| entry_id := id; entry_node := ai_node text |} in
  match o with
  | JsonReply _ data =>
      match system_note data with
      | Some note =>
          if truthy note
          then [{| entry_id := n; entry_node := system_node note true |};
                shown (reply data) (S n)]
          else [shown (reply data) n]
      | None => [shown (reply data) n]
      end
  | JsonNoReply _ (Some note) =>
      if truthy note
      then [{| entry_id := n; entry_node := system_node note true |};
            shown error_text (S n)]
      else [shown error_text n]
  | _ => [shown error_text n]
  end.

(** The placeholder that an action takes out of the transcript. *)
Definition removed_by (a : action) (s : state) : option nat :=
  match a with
  | Respond i _ => option_map req_bubble (nth_error (in_flight s) i)
  | _ => None
  end.

Definition without (b : option nat) (ids : list nat) : list nat :=
  match b with
  | Some x => filter (fun i => negb (Nat.eqb i x)) ids
  | None => ids
  end.

(** From [s] to [s'] the placeholder [b] is taken out, if any, and [k]
    entries with the next [k] identities are appended. *)
Definition evolves (b : option nat) (k : nat) (s s' : state) : Prop :=
  entry_ids s' = without b (entry_ids s) ++ seq (next_id s) k /\
  next_id s' = next_id s + k.

(** Sample runs. *)
Definition one_send : list action :=
  [Input (lit "  hello "); ClickSend].

Definition two_sends : list action :=
  [Input (lit "first"); ClickSend;
   Input (lit "second"); Keydown (lit "Enter") false].

Definition send_after_switch : list action :=
  [ChangeModel other_model; Input (lit "hello"); ClickSend].

Fixpoint run (acts : list action) (s : state) : state :=
  match acts with
  | [] => s
  | a :: acts' => run acts' (step a s)
  end.

(** The number of calls that a run resumes. *)
Fixpoint resumed_calls (acts : list action) (s : state) : nat :=
  match acts with
  | [] => 0
  | a :: acts' => resumes a s + resumed_calls acts' (step a s)
  end.

(** [el.onclick = h]. *)
Definition set_onclick (h : handler) (n : node) : node :=
  match n with
  | Text t => Text t
  | Elem a ch =>
      Elem {| tag := tag a; classList := classList a;
              data_bound := data_bound a; onclick := Some h;
              binds := S (binds a) |} ch
  end.

(** The state once the script has been loaded: [lastModelUsed] is read
    from the selector, the send button gets its handler and the welcome
    message is rendered.  [page0] is the page without the children of
    the container, which are [children0]. *)
Definition init (page0 : node) (children0 : list node)
    (model0 input0 : js_string) : state :=
  addAIMessage welcome_text
    {| page := update_node (set_onclick SendHandler) page0 send_button_path;
       chat := initial_entries children0;
       next_id := length children0;
       input_value := input0; select_value := model0;
       lastModelUsed := model0; in_flight := [];
       clipboard_waiting := []; timers := []; now := 0; log := [] |}.


(** A string that does not begin with a character that [trim] strips. *)
Definition starts_clean (m : js_string) : bool :=
  match m with
  | [] => true
  | c :: _ => negb (is_trimmed_char c)
  end.

(** *** The order of operations in the trace

    A small automaton reads the trace.  After an append to the
    transcript it expects the scroll, with the binder in between at
    most; after a sound it expects the append of a system note and its
    scroll; and it accepts the append of a system note after a sound
    only. *)
Inductive mode : Type := Idle | Appended | Activated | Played | NoteAppended.

Definition is_system_entry (x : entry) : bool :=
  is_system_append (EvAppendChild x).

Definition advance (m : mode) (e : event) : option mode :=
  match m, e with
  | Idle, EvAppendChild x =>
      if is_system_entry x then None else Some Appended
  | Idle, EvPlayClick => Some Played
  | Idle, EvScroll => None
  | Idle, EvActivateCopyButtons => None
  | Idle, _ => Some Idle
  | Appended, EvScroll => Some Idle
  | Appended, EvActivateCopyButtons => Some Activated
  | Activated, EvScroll => Some Idle
  | Played, EvAppendChild x =>
      if is_system_entry x then Some NoteAppended else None
  | NoteAppended, EvScroll => Some Idle
  | _, _ => None
  end.

Fixpoint advance_all (m : mode) (l : list event) : option mode :=
  match l with
  | [] => Some m
  | e :: l' =>
      match advance m e with
      | Some m' => advance_all m' l'
      | None => None
      end
  end.

Definition well_ordered (l : list event) : Prop :=
  advance_all Idle l = Some Idle.

(** Whether the element at [l] has [sendMessage] as its click handler,
    and whether a click on the node at [l] reaches such an element. *)
Definition sends_on_click (l : loc) (s : state) : bool :=
  match handler_at l s with
  | Some SendHandler => true
  | _ => false
  end.

Definition reaches_send (l : loc) (s : state) : bool :=
  match lookup l s with
  | None => false
  | Some _ => existsb (fun l' => sends_on_click l' s) (l :: ancestors l)
  end.

(** The root of [l] is in the document: the page, or an entry of the
    transcript. *)
Definition rooted (l : loc) (s : state) : Prop :=
  match l with
  | InPage _ => True
  | InEntry id _ => find_entry id (chat s) <> None
  end.


(** A run of the binder: [addAIMessage] is the one function that calls
    it, once for each assistant entry that it renders. *)
Definition is_binder_run (e : event) : bool :=
  match e with EvActivateCopyButtons => true | _ => false end.


(* ================================================================== *)
(** * Properties *)
(* ================================================================== *)

(** ** Strings *)

Lemma strip_prefix_app (p r : js_string) : strip_prefix p (p ++ r) = Some r.
Proof.
  induction p as [|x p IH]; simpl; [reflexivity|].
  now rewrite N.eqb_refl.
Qed.

Lemma strip_prefix_Some (p s r : js_string) :
  strip_prefix p s = Some r -> s = p ++ r.
Proof.
  revert s; induction p as [|x p IH]; intros s H; simpl in *.
  - now inversion H.
  - destruct s as [|y s]; [discriminate|].
    destruct (N.eqb_spec x y) as [->|]; [|discriminate].
    now rewrite (IH _ H).
Qed.

Lemma strip_prefix_None_app (p s : js_string) :
  strip_prefix p s = None -> forall r, s <> p ++ r.
Proof.
  intros H r ->. now rewrite strip_prefix_app in H.
Qed.

Lemma includes_unfold (p s : js_string) :
  includes p s =
  match strip_prefix p s with
  | Some _ => true
  | None => match s with [] => false | _ :: s' => includes p s' end
  end.
Proof. destruct s; reflexivity. Qed.

Lemma includes_app_intro (p a r : js_string) : includes p (a ++ p ++ r) = true.
Proof.
  induction a as [|x a IH].
  - simpl app. now rewrite includes_unfold, strip_prefix_app.
  - rewrite includes_unfold. simpl app.
    destruct (strip_prefix p (x :: a ++ p ++ r)); [reflexivity|assumption].
Qed.

Lemma unbordered_spec (p b p2 : js_string) :
  unbordered p = true -> p = b ++ p2 -> b <> [] -> p2 <> [] ->
  strip_prefix p2 p = None.
Proof.
  unfold unbordered. intros U E Hb Hp2.
  rewrite forallb_forall in U.
  assert (Hk : In (length b) (seq 1 (length p - 1))).
  { apply in_seq. subst p. rewrite length_app.
    destruct b; [congruence|]. destruct p2; [congruence|]. simpl. lia. }
  specialize (U _ Hk).
  assert (Hs : skipn (length b) p = p2).
  { subst p. rewrite skipn_app, Nat.sub_diag, skipn_all. reflexivity. }
  rewrite Hs in U. destruct (strip_prefix p2 p); [discriminate|reflexivity].
Qed.

(** An unbordered [p] that does not occur in [t] starts nowhere inside
    [t], whatever follows, as long as [p] itself follows or nothing. *)
Lemma no_start_inside (p t a b rest : js_string) :
  unbordered p = true -> includes p t = false ->
  t = a ++ b -> b <> [] ->
  strip_prefix p (b ++ p ++ rest) = None.
Proof.
  intros U I E Hb.
  destruct (strip_prefix p (b ++ p ++ rest)) as [r|] eqn:S; [|reflexivity].
  exfalso. apply strip_prefix_Some in S.
  destruct (app_eq_app _ _ _ _ S) as [l [[E1 E2]|[E1 E2]]].
  - (* p is a prefix of b *)
    subst. now rewrite includes_app_intro in I.
  - (* b is a proper prefix of p *)
    destruct l as [|x l].
    + rewrite app_nil_r in E1.
      pose proof (includes_app_intro p a []) as I'.
      rewrite app_nil_r in I'. congruence.
    + pose proof (@unbordered_spec p b (x :: l) U E1 Hb ltac:(discriminate)) as NB.
      destruct (app_eq_app _ _ _ _ E2) as [l2 [[E3 E4]|[E3 E4]]].
      * rewrite E3 in NB. now rewrite strip_prefix_app in NB.
      * (* p would be a prefix of its own proper suffix *)
        apply (f_equal (@length N)) in E1, E3.
        rewrite length_app in E1, E3.
        destruct b; [congruence|]. simpl in E1, E3. lia.
Qed.

Lemma no_start_in_tail (p t a b : js_string) :
  p <> [] -> includes p t = false -> t = a ++ b -> strip_prefix p b = None.
Proof.
  intros Hp I E.
  destruct (strip_prefix p b) as [r|] eqn:S; [|reflexivity].
  apply strip_prefix_Some in S. subst.
  now rewrite includes_app_intro in I.
Qed.

(** ** The matcher on the pattern of [addAIMessage] *)

Lemma star_lazy_unfold (cls : N -> bool) (s : js_string) (caps : captures)
    (k : cont) :
  star_lazy cls s caps k =
  match k s caps with
  | Some r => Some r
  | None =>
      match s with
      | [] => None
      | x :: s' => if cls x then star_lazy cls s' caps k else None
      end
  end.
Proof. destruct s; reflexivity. Qed.

(** A lazy star walks over [a] when the continuation fails at every
    position inside [a] and succeeds right after it. *)
Lemma star_lazy_skip (cls : N -> bool) (a b : js_string) (caps : captures)
    (k : cont) (res : match_result) :
  forallb cls a = true ->
  (forall a1 a2, a = a1 ++ a2 -> a2 <> [] -> k (a2 ++ b) caps = None) ->
  k b caps = Some res ->
  star_lazy cls (a ++ b) caps k = Some res.
Proof.
  revert res. induction a as [|x a IH]; intros res Hcls Hfail Hk.
  - simpl. rewrite star_lazy_unfold, Hk. reflexivity.
  - rewrite star_lazy_unfold.
    rewrite (Hfail [] (x :: a) eq_refl ltac:(discriminate)).
    simpl in Hcls. apply andb_prop in Hcls as [Hx Ha].
    simpl. rewrite Hx. apply IH; auto.
    intros a1 a2 E Hne. apply (Hfail (x :: a1) a2); [now rewrite E|assumption].
Qed.

Lemma code_block_re_eq :
  code_block_re =
  Seq (Lit pre_code_open) (Seq (OptGreedy code_block_lang) code_block_tail).
Proof. reflexivity. Qed.

Lemma pre_code_close_unbordered : unbordered pre_code_close = true.
Proof. reflexivity. Qed.

Lemma pre_code_open_unbordered : unbordered pre_code_open = true.
Proof. reflexivity. Qed.

Lemma firstn_app_exact (A : Type) (a b : list A) :
  firstn (length (a ++ b) - length b) (a ++ b) = a.
Proof.
  rewrite length_app, Nat.add_sub, firstn_app, Nat.sub_diag, firstn_all.
  simpl. apply app_nil_r.
Qed.

(** [>code</code></pre>]: the second group captures the code. *)
Lemma tail_match (code rest : js_string) (caps : captures) (k : cont)
    (res : match_result) :
  includes pre_code_close code = false ->
  k rest (set_capture 2 code caps) = Some res ->
  re_match code_block_tail (tag_end ++ code ++ pre_code_close ++ rest) caps k
  = Some res.
Proof.
  intros Hcode Hk. unfold code_block_tail. cbn [re_match].
  rewrite strip_prefix_app.
  apply star_lazy_skip.
  - clear. induction code; simpl; auto.
  - intros a1 a2 E Hne.
    now rewrite (@no_start_inside pre_code_close code a1 a2 rest
                   pre_code_close_unbordered Hcode E Hne).
  - rewrite strip_prefix_app, firstn_app_exact. exact Hk.
Qed.

Lemma attr_not_at_tag_end (s : js_string) :
  strip_prefix language_attr (tag_end ++ s) = None.
Proof. reflexivity. Qed.

Lemma lang_char_not_quote (x : N) (s : js_string) :
  lang_char x = true -> strip_prefix dquote (x :: s) = None.
Proof.
  unfold lang_char, dquote. intros H. apply andb_prop in H as [_ H].
  cbn [strip_prefix]. rewrite N.eqb_sym.
  destruct (N.eqb x 34); [discriminate|reflexivity].
Qed.

Lemma lang_chars_dot (l : js_string) :
  forallb lang_char l = true -> forallb dot l = true.
Proof.
  induction l as [|x l IH]; simpl; [reflexivity|].
  intros H. apply andb_prop in H as [Hx Hl].
  unfold lang_char in Hx. apply andb_prop in Hx as [Hx _].
  now rewrite Hx, IH.
Qed.

(** [ class="language-l"]: the first group captures the language. *)
Lemma lang_match (l rest : js_string) (caps : captures) (k : cont)
    (res : match_result) :
  forallb lang_char l = true ->
  k rest (set_capture 1 l caps) = Some res ->
  re_match code_block_lang (language_attr ++ l ++ dquote ++ rest) caps k
  = Some res.
Proof.
  intros Hl Hk. unfold code_block_lang. cbn [re_match].
  rewrite strip_prefix_app.
  apply star_lazy_skip.
  - now apply lang_chars_dot.
  - intros a1 a2 E Hne. destruct a2 as [|x a2]; [congruence|].
    assert (Hx : lang_char x = true).
    { rewrite E, forallb_app in Hl. apply andb_prop in Hl as [_ Hl].
      simpl in Hl. now apply andb_prop in Hl as [Hl _]. }
    simpl app. now rewrite lang_char_not_quote.
  - rewrite strip_prefix_app, firstn_app_exact. exact Hk.
Qed.

(** The pattern matches a well-formed code block at the head of the
    input, up to the end of the block, and captures its code. *)
Lemma exec_fence (f : fence) (rest : js_string) :
  fence_ok f = true ->
  exists caps,
    re_exec_here code_block_re (fence_html f ++ rest) = Some (rest, caps) /\
    caps 2 = Some (fence_code f).
Proof.
  intros Hok. unfold fence_ok in Hok. apply andb_prop in Hok as [Hl Hc].
  apply negb_true_iff in Hc.
  unfold re_exec_here, fence_html. rewrite code_block_re_eq.
  cbn [re_match]. rewrite <- !app_assoc, strip_prefix_app.
  destruct (fence_lang f) as [l|].
  - exists (set_capture 2 (fence_code f) (set_capture 1 l no_captures)).
    split; [|reflexivity].
    rewrite <- !app_assoc.
    erewrite lang_match; [reflexivity|assumption|].
    now apply tail_match.
  - exists (set_capture 2 (fence_code f) no_captures).
    split; [|reflexivity].
    rewrite app_nil_l. unfold code_block_lang at 1. cbn [re_match].
    rewrite attr_not_at_tag_end.
    now apply tail_match.
Qed.

Lemma exec_no_open (s : js_string) :
  strip_prefix pre_code_open s = None ->
  re_exec_here code_block_re s = None.
Proof.
  intros H. unfold re_exec_here. rewrite code_block_re_eq.
  cbn [re_match]. now rewrite H.
Qed.

(** ** The global replace *)

Lemma replace_from_fuel (r : regex) (f : captures -> js_string)
    (fuel1 fuel2 : nat) (s : js_string) :
  length s < fuel1 -> length s < fuel2 ->
  replace_from fuel1 r f s = replace_from fuel2 r f s.
Proof.
  revert fuel2 s. induction fuel1 as [|fuel1 IH]; intros fuel2 s H1 H2.
  - lia.
  - destruct fuel2 as [|fuel2]; [lia|]. simpl.
    destruct (re_exec_here r s) as [[rest caps]|].
    + destruct (Nat.ltb_spec (length rest) (length s)).
      * f_equal. apply IH; lia.
      * destruct s as [|c s]; [reflexivity|].
        do 2 f_equal. simpl in *. apply IH; lia.
    + destruct s as [|c s]; [reflexivity|].
      f_equal. simpl in *. apply IH; lia.
Qed.

Lemma replace_all_nil (r : regex) (f : captures -> js_string) :
  re_exec_here r [] = None -> replace_all r f [] = [].
Proof. intros H. unfold replace_all. simpl. now rewrite H. Qed.

Lemma replace_from_S (fuel : nat) (r : regex) (f : captures -> js_string)
    (s : js_string) :
  replace_from (S fuel) r f s =
  match re_exec_here r s with
  | Some (rest, caps) =>
      if Nat.ltb (length rest) (length s)
      then f caps ++ replace_from fuel r f rest
      else f caps ++
           match s with
           | [] => []
           | c :: s' => c :: replace_from fuel r f s'
           end
  | None =>
      match s with
      | [] => []
      | c :: s' => c :: replace_from fuel r f s'
      end
  end.
Proof. reflexivity. Qed.

Lemma replace_all_no_match (r : regex) (f : captures -> js_string)
    (c : N) (s : js_string) :
  re_exec_here r (c :: s) = None ->
  replace_all r f (c :: s) = c :: replace_all r f s.
Proof.
  intros H. unfold replace_all. rewrite replace_from_S, H. reflexivity.
Qed.

Lemma replace_all_match (r : regex) (f : captures -> js_string)
    (s rest : js_string) (caps : captures) :
  re_exec_here r s = Some (rest, caps) ->
  length rest < length s ->
  replace_all r f s = f caps ++ replace_all r f rest.
Proof.
  intros H L. unfold replace_all. rewrite replace_from_S, H.
  destruct (Nat.ltb_spec (length rest) (length s)); [|lia].
  f_equal. apply replace_from_fuel; lia.
Qed.

(** Text inside which the pattern starts nowhere is copied. *)
Lemma replace_all_chunk (t rest : js_string) :
  (forall a b, t = a ++ b -> b <> [] ->
               strip_prefix pre_code_open (b ++ rest) = None) ->
  wrap_code_blocks (t ++ rest) = t ++ wrap_code_blocks rest.
Proof.
  unfold wrap_code_blocks.
  induction t as [|c t IH]; intros H; [reflexivity|].
  simpl app. rewrite replace_all_no_match.
  - f_equal. apply IH. intros a b E Hb. apply (H (c :: a) b); [now rewrite E|auto].
  - apply exec_no_open. apply (H [] (c :: t)); [reflexivity|discriminate].
Qed.

Lemma wrap_plain (t : js_string) :
  plain_chunk t = true -> wrap_code_blocks t = t.
Proof.
  intros H. apply negb_true_iff in H.
  rewrite <- (app_nil_r t) at 1. rewrite replace_all_chunk.
  - unfold wrap_code_blocks. rewrite replace_all_nil; [apply app_nil_r|reflexivity].
  - intros a b E _. rewrite app_nil_r.
    apply (@no_start_in_tail pre_code_open t a b); [discriminate|assumption|assumption].
Qed.

Lemma fence_html_open (f : fence) :
  exists r, fence_html f = pre_code_open ++ r.
Proof. unfold fence_html. eexists. reflexivity. Qed.

Lemma wrap_fence (f : fence) (rest : js_string) :
  fence_ok f = true ->
  wrap_code_blocks (fence_html f ++ rest) =
  code_wrapper (fence_code f) ++ wrap_code_blocks rest.
Proof.
  intros Hok. destruct (exec_fence f rest Hok) as [caps [He Hc]].
  unfold wrap_code_blocks. rewrite (@replace_all_match code_block_re wrap_replacer _ rest caps He).
  - unfold wrap_replacer. now rewrite Hc.
  - rewrite length_app. destruct (fence_html_open f) as [r ->].
    unfold pre_code_open. simpl. lia.
Qed.

Lemma wrap_chunk_fence (t : js_string) (f : fence) (rest : js_string) :
  plain_chunk t = true -> fence_ok f = true ->
  wrap_code_blocks (t ++ fence_html f ++ rest) =
  t ++ code_wrapper (fence_code f) ++ wrap_code_blocks rest.
Proof.
  intros Ht Hf. apply negb_true_iff in Ht.
  rewrite replace_all_chunk.
  - now rewrite wrap_fence.
  - intros a b E Hb. destruct (fence_html_open f) as [r ->].
    rewrite <- app_assoc.
    apply (@no_start_inside pre_code_open t a b);
      [apply pre_code_open_unbordered|assumption|assumption|assumption].
Qed.

Lemma wrap_converter_output (blocks : list (js_string * fence))
    (tail : js_string) :
  forallb block_ok blocks = true -> plain_chunk tail = true ->
  wrap_code_blocks (converter_output blocks tail) = wrapped_output blocks tail.
Proof.
  intros Hb Ht.
  induction blocks as [|[t f] bs IH]; cbn [converter_output wrapped_output].
  - now apply wrap_plain.
  - simpl in Hb. apply andb_prop in Hb as [Hb Hbs].
    unfold block_ok in Hb. simpl in Hb. apply andb_prop in Hb as [Hc Hf].
    rewrite wrap_chunk_fence by assumption. now rewrite IH.
Qed.

(** C5 (amended): every code block of the converter's output, with or
    without a language class, is replaced by a wrapper that holds a
    button labelled copy followed by [<pre><code>] with the same code and
    no class, and everything else is left as it is.  In particular, when
    the converter renders a reply with one fenced code block of content
    print(1) as CommonMark does, the code being that line with its line
    feed, the entry is built from HTML with exactly one more copy
    control, in the wrapper of the code element that holds print(1)
    followed by a line feed. *)
Theorem C5_code_blocks_wrapped :
  (forall blocks tail,
      forallb block_ok blocks = true -> plain_chunk tail = true ->
      wrap_code_blocks (converter_output blocks tail) =
      wrapped_output blocks tail) /\
  (forall code,
      code_wrapper code =
      [LF] ++ spaces 16 ++ tpl "<div class='code-wrapper'>" ++
      [LF] ++ spaces 20 ++ copy_button_html ++
      [LF] ++ spaces 20 ++ lit "<pre><code>" ++ code ++ pre_code_close ++
      [LF] ++ spaces 16 ++ lit "</div>" ++ [LF] ++ spaces 12) /\
  (forall reply before lang after,
      marked_parse reply =
        before ++ fence_html (print1_fence lang) ++ after ->
      plain_chunk before = true -> plain_chunk after = true ->
      fence_ok (print1_fence lang) = true ->
      wrap_code_blocks (marked_parse reply) =
        before ++ code_wrapper print1_line ++ after /\
      ai_node reply =
        Elem (new_element (lit "div") msg_ai)
             (parse_html (before ++ code_wrapper print1_line ++ after)) /\
      count_occurrences (lit "<button") (code_wrapper print1_line) = 1 /\
      count_occurrences (lit "<code") (code_wrapper print1_line) = 1 /\
      includes (lit "<code>" ++ print1 ++ [LF] ++ lit "</code>")
               (code_wrapper print1_line) = true).
Proof.
  split; [exact wrap_converter_output|]. split; [reflexivity|].
  intros reply before lang after E Hb Ha Hf.
  assert (W : wrap_code_blocks (marked_parse reply) =
              before ++ code_wrapper print1_line ++ after).
  { rewrite E.
    apply (@wrap_converter_output [(before, print1_fence lang)] after);
      [|assumption].
    simpl. unfold block_ok. simpl. now rewrite Hb, Hf. }
  split; [exact W|]. split.
  - unfold ai_node, div. cbn [set_innerHTML]. now rewrite W.
  - repeat split; reflexivity.
Qed.

Example wrap_print1_once :
  let html := sample_commonmark print1_reply in
  html = lit "<p>Run:</p>" ++ [LF] ++
         fence_html (print1_fence (Some (lit "python"))) ++ [LF] /\
  wrap_code_blocks html =
    lit "<p>Run:</p>" ++ [LF] ++ code_wrapper print1_line ++ [LF] /\
  count_occurrences copy_button_html (wrap_code_blocks html) = 1 /\
  count_occurrences (lit "<code") (wrap_code_blocks html) = 1.
Proof. vm_compute. repeat split. Qed.

(** ** The copy-button binder *)

Lemma node_induction (P : node -> Prop) :
  (forall t, P (Text t)) ->
  (forall a ch, Forall P ch -> P (Elem a ch)) ->
  forall n, P n.
Proof.
  intros HT HE. fix IH 1. intros [t|a ch].
  - apply HT.
  - apply HE. induction ch as [|c ch IHch]; constructor.
    + apply IH.
    + apply IHch.
Qed.

Lemma bind_button_class (a : attrs) :
  is_copy_btn (bind_button a) = is_copy_btn a.
Proof. unfold bind_button. now destruct (truthy_opt (data_bound a)). Qed.

Lemma bind_button_bound (a : attrs) :
  truthy_opt (data_bound (bind_button a)) = true.
Proof.
  unfold bind_button. destruct (truthy_opt (data_bound a)) eqn:E; auto.
Qed.

Lemma bind_button_idem (a : attrs) :
  bind_button (bind_button a) = bind_button a.
Proof.
  unfold bind_button at 1. now rewrite bind_button_bound.
Qed.

Lemma activate_attrs_idem (a : attrs) :
  activate_attrs (activate_attrs a) = activate_attrs a.
Proof.
  unfold activate_attrs. destruct (is_copy_btn a) eqn:E.
  - now rewrite bind_button_class, E, bind_button_idem.
  - now rewrite E.
Qed.

Lemma activate_node_idem (n : node) :
  activate_node (activate_node n) = activate_node n.
Proof.
  induction n as [t|a ch IH] using node_induction; simpl; [reflexivity|].
  rewrite activate_attrs_idem, map_map. f_equal.
  apply map_ext_Forall. exact IH.
Qed.

Lemma elements_activate (n : node) :
  elements (activate_node n) = map activate_attrs (elements n).
Proof.
  induction n as [t|a ch IH] using node_induction; simpl; [reflexivity|].
  f_equal. induction IH as [|c ch Hc _ IHch]; simpl; [reflexivity|].
  now rewrite map_app, Hc, IHch.
Qed.

Lemma filter_activate (l : list attrs) :
  filter is_copy_btn (map activate_attrs l) =
  map bind_button (filter is_copy_btn l).
Proof.
  induction l as [|a l IH]; [reflexivity|].
  cbn [map filter]. unfold activate_attrs at 1 2.
  destruct (is_copy_btn a) eqn:E.
  - rewrite bind_button_class, E. cbn [map]. now rewrite IH.
  - now rewrite E.
Qed.

Lemma copy_buttons_activate (n : node) :
  copy_buttons (activate_node n) = map bind_button (copy_buttons n).
Proof.
  unfold copy_buttons. now rewrite elements_activate, filter_activate.
Qed.

Lemma activate_entry_idem (e : entry) :
  activate_entry (activate_entry e) = activate_entry e.
Proof. unfold activate_entry. simpl. now rewrite activate_node_idem. Qed.

Lemma doc_buttons_activate (s : state) :
  doc_buttons (activateCopyButtons s) = map bind_button (doc_buttons s).
Proof.
  unfold doc_buttons, activateCopyButtons. simpl.
  rewrite map_app, copy_buttons_activate. f_equal.
  induction (chat s) as [|e l IH]; simpl; [reflexivity|].
  now rewrite map_app, copy_buttons_activate, IH.
Qed.

Lemma activate_again (s : state) :
  page (activateCopyButtons (activateCopyButtons s)) =
    page (activateCopyButtons s) /\
  chat (activateCopyButtons (activateCopyButtons s)) =
    chat (activateCopyButtons s).
Proof.
  unfold activateCopyButtons. simpl. split.
  - apply activate_node_idem.
  - rewrite map_map. apply map_ext. intros e. apply activate_entry_idem.
Qed.

Lemma activate_iter (n : nat) (s : state) :
  page (Nat.iter (S n) activateCopyButtons s) = page (activateCopyButtons s) /\
  chat (Nat.iter (S n) activateCopyButtons s) = chat (activateCopyButtons s) /\
  doc_buttons (Nat.iter (S n) activateCopyButtons s) =
    map bind_button (doc_buttons s).
Proof.
  induction n as [|n [IHp [IHc IHb]]].
  - simpl. repeat split. apply doc_buttons_activate.
  - change (Nat.iter (S (S n)) activateCopyButtons s)
      with (activateCopyButtons (Nat.iter (S n) activateCopyButtons s)).
    remember (Nat.iter (S n) activateCopyButtons s) as s1 eqn:Es1.
    clear Es1.
    repeat split.
    + unfold activateCopyButtons at 1. simpl. rewrite IHp.
      unfold activateCopyButtons. simpl. apply activate_node_idem.
    + unfold activateCopyButtons at 1. simpl. rewrite IHc.
      unfold activateCopyButtons. simpl. rewrite map_map.
      apply map_ext. intros e. apply activate_entry_idem.
    + rewrite doc_buttons_activate, IHb, map_map.
      apply map_ext. intros a. apply bind_button_idem.
Qed.

(** C7: the binder is idempotent.  Running it once more changes nothing
    in the document, so after any number of runs the document is the one
    left by the first run.  Over all those runs each copy button that had
    no marker gets its handler assigned exactly once and carries the
    marker afterwards, and a button that carries the marker is never
    assigned again. *)
Theorem C7_binder_idempotent :
  forall (s : state) (n : nat),
    let s1 := activateCopyButtons s in
    let sn := Nat.iter (S n) activateCopyButtons s in
    page sn = page s1 /\ chat sn = chat s1 /\
    Forall2 (fun b b' =>
               truthy_opt (data_bound b') = true /\
               if truthy_opt (data_bound b)
               then b' = b
               else onclick b' = Some CopyHandler /\ binds b' = S (binds b))
            (doc_buttons s) (doc_buttons sn).
Proof.
  intros s n s1 sn. destruct (activate_iter n s) as [Hp [Hc Hb]].
  repeat split; [exact Hp|exact Hc|].
  subst sn. rewrite Hb. clear.
  induction (doc_buttons s) as [|b l IH]; simpl; constructor; [|exact IH].
  split; [apply bind_button_bound|].
  unfold bind_button. destruct (truthy_opt (data_bound b)); simpl; auto.
Qed.

(** ** Sending *)

Ltac run_script :=
  cbn [step on_keydown on_model_change sendMessage sendMessage_resume
       sendMessage_catch addAIMessage addUserMessage addSystemNote
       addTypingBubble activateCopyButtons playClick scrollToBottom
       remove_entry appendChild copy_settled setTimeout set_label emit
       set_page set_chat set_next_id set_input_value set_select_value
       set_lastModelUsed set_in_flight set_clipboard_waiting set_timers
       set_now
       page chat next_id input_value select_value lastModelUsed in_flight
       clipboard_waiting timers now log fst snd
       system_note reply req_bubble req_model due target].

Ltac flatten_log := repeat rewrite <- app_assoc; cbn [app].

Lemma trim_start_blank (v : js_string) :
  forallb is_trimmed_char v = true -> trim_start v = [].
Proof.
  induction v as [|c v IH]; simpl; [reflexivity|].
  intros H. apply andb_prop in H as [Hc Hv]. now rewrite Hc, IH.
Qed.

Lemma trim_blank (v : js_string) :
  forallb is_trimmed_char v = true -> trim v = [].
Proof. intros H. unfold trim. now rewrite trim_start_blank. Qed.

Lemma text_fragment_cons (line : js_string) (c : N) (s' : js_string) :
  text_fragment line (c :: s') =
  if N.eqb c 13 then
    match s' with
    | d :: s'' =>
        if N.eqb d 10
        then flush_line line ++ br :: text_fragment [] s''
        else flush_line line ++ br :: text_fragment [] s'
    | [] => flush_line line ++ [br]
    end
  else if N.eqb c 10 then flush_line line ++ br :: text_fragment [] s'
  else text_fragment (c :: line) s'.
Proof. reflexivity. Qed.

Lemma text_fragment_children (line s : js_string) :
  forallb text_or_br (text_fragment line s) = true.
Proof.
  assert (F : forall l, forallb text_or_br (flush_line l) = true)
    by (intros [|x l]; reflexivity).
  remember (length s) as n eqn:En.
  revert line s En. induction n as [n IH] using lt_wf_ind.
  intros line [|c s] En; [apply F|].
  rewrite text_fragment_cons.
  destruct (N.eqb c 13).
  - destruct s as [|d s].
    + rewrite forallb_app, F. reflexivity.
    + destruct (N.eqb d 10); rewrite forallb_app, F; cbn [forallb andb];
        change (text_or_br br) with true; cbn [andb];
        eapply IH; try reflexivity; subst n; simpl; lia.
  - destruct (N.eqb c 10).
    + rewrite forallb_app, F. cbn [forallb andb].
      change (text_or_br br) with true. cbn [andb].
      eapply IH; try reflexivity. subst n; simpl; lia.
    + eapply IH; try reflexivity. subst n; simpl; lia.
Qed.

Lemma text_fragment_read_back (line s : js_string) :
  no_cr s = true ->
  flat_map innerText (text_fragment line s) = rev line ++ s.
Proof.
  assert (F : forall l, flat_map innerText (flush_line l) = rev l).
  { intros [|x l]; [reflexivity|]. simpl. now rewrite app_nil_r. }
  revert line. induction s as [|c s IH]; intros line H.
  - simpl. now rewrite F, app_nil_r.
  - rewrite text_fragment_cons.
    simpl in H. apply andb_prop in H as [Hc Hs].
    destruct (N.eqb c 13); [discriminate|].
    destruct (N.eqb_spec c 10) as [->|].
    + rewrite flat_map_app, F. cbn [flat_map].
      rewrite (IH [] Hs). reflexivity.
    + rewrite (IH _ Hs). simpl. now rewrite <- app_assoc.
Qed.

(** C3: a send with an input that is not blank appends one user entry
    whose content is the trimmed text taken literally (text nodes and
    line breaks, never parsed as markup), empties the input box, appends
    one typing placeholder and issues one POST whose body holds the
    trimmed text, the selected model and the model used before; all of
    it happens before the call is resumed, which is then in flight. *)
Theorem C3_send_non_blank :
  forall s : state,
    truthy (trim (input_value s)) = true ->
    let text := trim (input_value s) in
    let user := {| entry_id := next_id s; entry_node := user_node text |} in
    let bubble := {| entry_id := S (next_id s); entry_node := typing_node |} in
    let body := {| message := text; model := select_value s;
                   prev_model := lastModelUsed s |} in
    let s' := sendMessage s in
    step ClickSend s = s' /\
    step (Keydown (lit "Enter") false) s = s' /\
    log s' = log s ++ [EvAppendChild user; EvScroll; EvClearInput;
                       EvAppendChild bubble; EvScroll;
                       EvFetch chat_url body] /\
    chat s' = chat s ++ [user; bubble] /\
    input_value s' = [] /\
    in_flight s' = in_flight s ++
                   [{| req_bubble := S (next_id s);
                       req_model := select_value s |}] /\
    lastModelUsed s' = lastModelUsed s /\
    user_node text =
      Elem (new_element (lit "div") msg_user) (text_fragment [] text) /\
    forallb text_or_br (text_fragment [] text) = true /\
    (no_cr text = true -> innerText (user_node text) = text).
Proof.
  intros s H text user bubble body s'.
  split; [reflexivity|]. split; [reflexivity|].
  subst s'. unfold sendMessage. rewrite H. cbn [negb]. run_script.
  repeat split.
  - now flatten_log.
  - now flatten_log.
  - apply text_fragment_children.
  - intros Hcr. unfold user_node, div. cbn [set_innerText innerText].
    replace (is_tag (lit "br") (new_element (lit "div") msg_user))
      with false by reflexivity.
    now rewrite text_fragment_read_back.
Qed.

(** C4: a send with an empty or whitespace-only input does nothing at
    all: no entry, no change of the input box, no backend call, and the
    calls in flight stay as they are. *)
Theorem C4_blank_input_ignored :
  forall s : state,
    forallb is_trimmed_char (input_value s) = true ->
    sendMessage s = s /\
    step ClickSend s = s /\
    step (Keydown (lit "Enter") false) s = s.
Proof.
  intros s H.
  assert (E : sendMessage s = s).
  { unfold sendMessage. now rewrite trim_blank. }
  repeat split; exact E.
Qed.

(** ** Resuming a send *)

(** What the success path does, step by step. *)
Lemma resume_reply_spec :
  forall (r : request) (status : Z) (data : response) (s : state),
    let s' := sendMessage_resume r (JsonReply status data) s in
    let kept := filter (fun e => negb (Nat.eqb (entry_id e) (req_bubble r)))
                       (chat s) in
    let shown := truthy_opt (system_note data) in
    let text := match system_note data with Some t => t | None => [] end in
    let note := {| entry_id := next_id s;
                   entry_node := system_node text true |} in
    let ai := {| entry_id := if shown then S (next_id s) else next_id s;
                 entry_node := ai_node (reply data) |} in
    log s' = log s ++
             [EvRemove (req_bubble r)] ++
             (if shown then [EvPlayClick; EvAppendChild note; EvScroll]
              else []) ++
             [EvSetLastModel (req_model r); EvAppendChild ai;
              EvActivateCopyButtons; EvScroll] /\
    chat s' = map activate_entry
                (kept ++ (if shown then [note] else []) ++ [ai]) /\
    page s' = activate_node (page s) /\
    lastModelUsed s' = req_model r /\
    in_flight s' = in_flight s /\
    system_node text true =
      Elem (new_element (lit "div") msg_system)
           (parse_html (lit "<i>" ++ text ++ lit "</i>" ++ loader_html)) /\
    ai_node (reply data) =
      Elem (new_element (lit "div") msg_ai)
           (parse_html (wrap_code_blocks (marked_parse (reply data)))).
Proof.
  intros r status [rep [note|]] s; cbn zeta; cbn [system_note reply truthy_opt].
  - destruct (truthy note) eqn:T; run_script; rewrite ?T; run_script;
      repeat split; now flatten_log.
  - run_script. repeat split; now flatten_log.
Qed.


(** C1 (amended): when the backend answers with a body of the expected
    shape, the operations are, in this order: the typing placeholder is
    removed; if [system_note] is a non-empty string, one sound is played
    and one system note with the loader is appended (an absent or empty
    [system_note] gives neither); [lastModelUsed] becomes the model read
    when the message was sent; one assistant entry built from [reply] by
    the post-processor is appended and the binder runs over the
    document. *)
Theorem C1_success_effects_in_order :
  forall (r : request) (status : Z) (data : response) (s : state),
    let s' := sendMessage_resume r (JsonReply status data) s in
    let kept := filter (fun e => negb (Nat.eqb (entry_id e) (req_bubble r)))
                       (chat s) in
    let shown := truthy_opt (system_note data) in
    let text := match system_note data with Some t => t | None => [] end in
    let note := {| entry_id := next_id s;
                   entry_node := system_node text true |} in
    let ai := {| entry_id := if shown then S (next_id s) else next_id s;
                 entry_node := ai_node (reply data) |} in
    log s' = log s ++
             [EvRemove (req_bubble r)] ++
             (if shown then [EvPlayClick; EvAppendChild note; EvScroll]
              else []) ++
             [EvSetLastModel (req_model r); EvAppendChild ai;
              EvActivateCopyButtons; EvScroll] /\
    chat s' = map activate_entry
                (kept ++ (if shown then [note] else []) ++ [ai]) /\
    page s' = activate_node (page s) /\
    lastModelUsed s' = req_model r /\
    in_flight s' = in_flight s /\
    system_node text true =
      Elem (new_element (lit "div") msg_system)
           (parse_html (lit "<i>" ++ text ++ lit "</i>" ++ loader_html)) /\
    ai_node (reply data) =
      Elem (new_element (lit "div") msg_ai)
           (parse_html (wrap_code_blocks (marked_parse (reply data)))).
Proof. exact resume_reply_spec. Qed.

(** C2: when the backend call is rejected, or the body is not JSON, the
    typing placeholder is removed, exactly one assistant-styled entry
    built from the fixed error text is appended, [lastModelUsed] keeps
    its value, and the error goes to the console only. *)
Theorem C2_failure_path :
  forall (r : request) (o : outcome) (s : state),
    (o = NetworkError \/ exists status, o = NotJson status) ->
    let s' := sendMessage_resume r o s in
    let kept := filter (fun e => negb (Nat.eqb (entry_id e) (req_bubble r)))
                       (chat s) in
    let err := {| entry_id := next_id s;
                  entry_node := ai_node error_text |} in
    (exists e, log s' = log s ++
                        [EvRemove (req_bubble r); EvAppendChild err;
                         EvActivateCopyButtons; EvScroll;
                         EvConsoleError e]) /\
    chat s' = map activate_entry (kept ++ [err]) /\
    lastModelUsed s' = lastModelUsed s /\
    in_flight s' = in_flight s /\
    ai_node error_text =
      Elem (new_element (lit "div") msg_ai)
           (parse_html (wrap_code_blocks (marked_parse error_text))) /\
    includes (lit "Could not connect to backend") error_text = true.
Proof.
  intros r o s [->|[status ->]]; cbn zeta; run_script.
  - split; [eexists; now flatten_log|]. repeat split.
  - split; [eexists; now flatten_log|]. repeat split.
Qed.

(** C10 (amended): the HTTP status is never read.  A body of the
    expected shape takes the success path whatever the status: the
    placeholder is removed, [lastModelUsed] is updated and [reply] is
    rendered, and nothing is reported.  The [catch] block is reached by
    a rejected call, by a body that is not JSON, and also by a JSON body
    that is [null], for which reading [system_note] throws. *)
Theorem C10_status_never_inspected :
  forall (r : request) (s : state),
    (forall status data,
        let s' := sendMessage_resume r (JsonReply status data) s in
        s' = sendMessage_resume r (JsonReply 200 data) s /\
        lastModelUsed s' = req_model r /\
        (exists kept,
            chat s' = map activate_entry
                        (filter (fun e => negb (Nat.eqb (entry_id e)
                                                        (req_bubble r)))
                                (chat s) ++ kept ++
                         [{| entry_id := next_id s + length kept;
                             entry_node := ai_node (reply data) |}])) /\
        forall e, ~ In (EvConsoleError e) (skipn (length (log s)) (log s'))) /\
    sendMessage_resume r NetworkError s =
      sendMessage_catch r TypeError_fetch s /\
    (forall status,
        sendMessage_resume r (NotJson status) s =
          sendMessage_catch r SyntaxError_json s) /\
    (forall status,
        sendMessage_resume r (JsonNull status) s =
          sendMessage_catch r TypeError_null (remove_entry (req_bubble r) s)) /\
    (forall e s0,
        let s' := sendMessage_catch r e s0 in
        lastModelUsed s' = lastModelUsed s0 /\
        In (EvConsoleError e) (log s') /\
        exists err, In err (chat s') /\
                    entry_node err = activate_node (ai_node error_text)).
Proof.
  intros r s. split; [|repeat split].
  - intros status [rep note] s'. subst s'.
    split; [reflexivity|]. split.
    + cbn [sendMessage_resume]. run_script. reflexivity.
    + destruct (resume_reply_spec r status
                  {| reply := rep; system_note := note |} s)
        as [Hlog [Hchat _]].
      cbn zeta in Hlog, Hchat. cbn [system_note reply] in Hlog, Hchat.
      split.
      * rewrite Hchat. destruct (truthy_opt note).
        -- eexists [_]. cbn [length]. rewrite Nat.add_1_r. reflexivity.
        -- exists []. cbn [length]. rewrite Nat.add_0_r. reflexivity.
      * intros e. rewrite Hlog, skipn_app, Nat.sub_diag, skipn_all.
        cbn [skipn app]. destruct (truthy_opt note); simpl;
          intros H; repeat (destruct H as [H|H]; [discriminate|]); exact H.
  - run_script. apply in_or_app. right. now left.
  - eexists. split.
    + run_script. rewrite map_app. apply in_or_app. right. now left.
    + reflexivity.
Qed.

(** ** The model selector *)

(** C9: a change of the selector to [B] plays one sound and appends one
    system note that names [B], with the loader, whatever is in flight;
    it sends nothing to the backend and leaves the calls in flight and
    [lastModelUsed] as they are. *)
Theorem C9_model_change_note :
  forall (s : state) (B : js_string),
    let s' := step (ChangeModel B) s in
    let note := {| entry_id := next_id s;
                   entry_node := system_node (switch_note B) true |} in
    log s' = log s ++ [EvPlayClick; EvAppendChild note; EvScroll] /\
    chat s' = chat s ++ [note] /\
    in_flight s' = in_flight s /\
    lastModelUsed s' = lastModelUsed s /\
    select_value s' = B /\
    system_node (switch_note B) true =
      Elem (new_element (lit "div") msg_system)
           (parse_html (system_note_html (switch_note B) true)) /\
    system_note_html (switch_note B) true =
      lit "<i>Switching to <b>" ++ B ++ lit "</b> " ++ robot ++
      lit "</i>" ++ loader_html /\
    includes B (system_note_html (switch_note B) true) = true.
Proof.
  intros s B. cbn zeta. run_script. repeat split.
  - now flatten_log.
  - unfold system_note_html, switch_note. now rewrite <- !app_assoc.
  - unfold system_note_html, switch_note. rewrite <- !app_assoc.
    apply (includes_app_intro B (lit "<i>" ++ lit "Switching to <b>")).
Qed.

(** ** Clicking a copy button *)

Lemma nth_error_update_nth (A : Type) (f : A -> A) (l : list A) (i : nat)
    (x : A) :
  nth_error l i = Some x -> nth_error (update_nth i f l) i = Some (f x).
Proof.
  revert i. induction l as [|y l IH]; intros [|i] H; simpl in *;
    try discriminate.
  - now inversion H.
  - now apply IH.
Qed.

Lemma get_update_node (f : node -> node) (p : path) (n m : node) :
  get_node n p = Some m -> get_node (update_node f n p) p = Some (f m).
Proof.
  revert n. induction p as [|i p IH]; intros n H; simpl in *.
  - now inversion H.
  - destruct n as [t|a ch]; [discriminate|].
    destruct (nth_error ch i) as [c|] eqn:E; [|discriminate].
    simpl. rewrite (nth_error_update_nth _ _ _ E). now apply IH.
Qed.

Lemma find_entry_id (id : nat) (l : list entry) (e : entry) :
  find_entry id l = Some e -> entry_id e = id.
Proof.
  induction l as [|x l IH]; simpl; [discriminate|].
  destruct (Nat.eqb_spec (entry_id x) id); [|exact IH].
  intros H. now inversion H; subst.
Qed.

Lemma find_entry_update (id : nat) (f : node -> node) (l : list entry)
    (e : entry) :
  find_entry id l = Some e ->
  find_entry id (map (update_entry id f) l) =
  Some {| entry_id := entry_id e; entry_node := f (entry_node e) |}.
Proof.
  induction l as [|x l IH]; simpl; [discriminate|].
  assert (Hid : entry_id (update_entry id f x) = entry_id x).
  { unfold update_entry. now destruct (Nat.eqb (entry_id x) id). }
  rewrite Hid. destruct (Nat.eqb (entry_id x) id) eqn:E.
  - intros H. inversion H; subst. unfold update_entry. now rewrite E.
  - exact IH.
Qed.

Lemma lookup_set_label (l : loc) (text : js_string) (s : state) (n : node) :
  lookup l s = Some n ->
  lookup l (set_label l text s) = Some (set_innerText text n).
Proof.
  destruct l as [p|id p]; unfold lookup, set_label; run_script.
  - apply get_update_node.
  - destruct (find_entry id (chat s)) as [e|] eqn:E; [|discriminate].
    intros H. rewrite (find_entry_update _ _ _ E). simpl.
    now apply get_update_node.
Qed.

Lemma nth_error_last (A : Type) (l : list A) (x : A) :
  nth_error (l ++ [x]) (length l) = Some x.
Proof. induction l; simpl; auto. Qed.

Lemma remove_nth_last (A : Type) (l : list A) (x : A) :
  remove_nth (length l) (l ++ [x]) = l.
Proof. induction l as [|y l IH]; simpl; [reflexivity|]. now rewrite IH. Qed.

Lemma set_label_text (a : attrs) (ch : list node) (ok : bool) :
  set_innerText (if ok then copied_label else failed_label) (Elem a ch) =
  Elem a [Text (if ok then copied_label else failed_label)].
Proof. destruct ok; reflexivity. Qed.

(** What [lookup] reads. *)
Lemma lookup_frame (l : loc) (s s' : state) :
  page s' = page s -> chat s' = chat s -> lookup l s' = lookup l s.
Proof. intros Hp Hc. destruct l; unfold lookup; now rewrite ?Hp, ?Hc. Qed.

Lemma set_label_frame (l : loc) (text : js_string) (s : state) :
  log (set_label l text s) = log s ++ [EvSetLabel l text] /\
  timers (set_label l text s) = timers s /\
  now (set_label l text s) = now s /\
  clipboard_waiting (set_label l text s) = clipboard_waiting s.
Proof. destruct l; repeat split. Qed.

(** What the handlers read of the document, and what a copy click
    leaves alone. *)
Lemma handler_at_frame (l : loc) (s s' : state) :
  page s' = page s -> chat s' = chat s -> handler_at l s' = handler_at l s.
Proof.
  intros Hp Hc. unfold handler_at.
  replace (lookup l s') with (lookup l s); [reflexivity|].
  symmetry. now apply lookup_frame.
Qed.

Lemma copy_click_frame (l : loc) (s : state) :
  page (copy_click l s) = page s /\ chat (copy_click l s) = chat s /\
  next_id (copy_click l s) = next_id s /\
  in_flight (copy_click l s) = in_flight s /\
  vars (copy_click l s) = vars s.
Proof.
  unfold copy_click. destruct (parent_of l s) as [parent|]; [|repeat split].
  destruct (querySelector_code parent); repeat split.
Qed.

(** A click goes through elements without a handler unnoticed. *)
Lemma bubble_no_handler (ls : list loc) (s : state) :
  Forall (fun l' => handler_at l' s = None) ls ->
  fold_left (fun st l' => run_handler l' st) ls s = s.
Proof.
  induction 1 as [|l' ls H _ IH]; [reflexivity|]. cbn [fold_left].
  replace (run_handler l' s) with s; [exact IH|].
  unfold run_handler. now rewrite H.
Qed.

(** A property that the two handlers establish, and that composes,
    holds of a click. *)
Lemma click_ind (R : state -> state -> Prop) :
  (forall s, R s s) ->
  (forall s1 s2 s3, R s1 s2 -> R s2 s3 -> R s1 s3) ->
  (forall l s, R s (copy_click l s)) ->
  (forall s, R s (sendMessage s)) ->
  forall l s, R s (click l s).
Proof.
  intros Hrefl Htrans Hcopy Hsend l s. unfold click.
  destruct (lookup l s); [|apply Hrefl].
  generalize (l :: ancestors l). intros ls. revert s.
  induction ls as [|l' ls IH]; intros s; [apply Hrefl|].
  cbn [fold_left]. apply Htrans with (run_handler l' s); [|apply IH].
  unfold run_handler. destruct (handler_at l' s) as [[]|];
    [apply Hcopy|apply Hsend|apply Hrefl].
Qed.

(** The click itself. *)
Lemma click_spec (s : state) (l : loc) (a : attrs) (ch : list node)
    (parent codeEl : node) :
  lookup l s = Some (Elem a ch) ->
  onclick a = Some CopyHandler ->
  Forall (fun l' => handler_at l' s = None) (ancestors l) ->
  parent_of l s = Some parent ->
  querySelector_code parent = Some codeEl ->
  let s1 := step (ClickOn l) s in
  log s1 = log s ++ [EvClipboardWrite (innerText codeEl)] /\
  clipboard_waiting s1 = clipboard_waiting s ++ [l] /\
  page s1 = page s /\ chat s1 = chat s /\
  timers s1 = timers s /\ now s1 = now s.
Proof.
  intros Hl Hon Hno Hp Hq. cbn zeta. cbn [step]. unfold click. rewrite Hl.
  cbn [fold_left].
  assert (E : run_handler l s =
              set_clipboard_waiting (clipboard_waiting s ++ [l])
                (emit (EvClipboardWrite (innerText codeEl)) s)).
  { unfold run_handler, handler_at, copy_click. now rewrite Hl, Hon, Hp, Hq. }
  rewrite E. rewrite bubble_no_handler; [repeat split|].
  eapply Forall_impl; [|exact Hno].
  intros l' H. rewrite <- H. now apply handler_at_frame.
Qed.

(** The clipboard promise settles. *)
Lemma settle_spec (s : state) (l : loc) (a : attrs) (ch : list node)
    (i : nat) (ok : bool) :
  nth_error (clipboard_waiting s) i = Some l ->
  lookup l s = Some (Elem a ch) ->
  let label := if ok then copied_label else failed_label in
  let delay := (if ok then 1000 else 1200)%Z in
  let s2 := step (ClipboardSettles i ok) s in
  log s2 = log s ++ [EvSetLabel l label; EvSetTimeout delay l] /\
  lookup l s2 = Some (Elem a [Text label]) /\
  clipboard_waiting s2 = remove_nth i (clipboard_waiting s) /\
  timers s2 = timers s ++ [{| due := (now s + delay)%Z; target := l |}] /\
  now s2 = now s.
Proof.
  intros Hn Hl. cbn zeta. cbn [step]. rewrite Hn.
  set (s0 := set_clipboard_waiting (remove_nth i (clipboard_waiting s)) s).
  assert (Hl0 : lookup l s0 = Some (Elem a ch))
    by (rewrite <- Hl; now apply lookup_frame).
  pose proof (lookup_set_label l (if ok then copied_label else failed_label)
                s0 Hl0) as Hl2.
  rewrite set_label_text in Hl2.
  destruct (set_label_frame l (if ok then copied_label else failed_label) s0)
    as [Hlog [Htm [Hnow Hcw]]].
  assert (E : copy_settled l ok s0 =
              setTimeout (if ok then 1000 else 1200) l
                (set_label l (if ok then copied_label else failed_label) s0))
    by (unfold copy_settled; now destruct ok).
  rewrite E. clear E.
  remember (set_label l (if ok then copied_label else failed_label) s0)
    as sl eqn:Esl. clear Esl.
  unfold setTimeout.
  cbn [log emit set_timers timers now clipboard_waiting].
  rewrite Hlog, Htm, Hnow, Hcw. repeat split.
  - now rewrite <- app_assoc.
  - rewrite <- Hl2. now apply lookup_frame.
Qed.

(** Time passes and the timer is tried. *)
Lemma timer_spec (s : state) (l : loc) (a : attrs) (ch : list node)
    (j : nat) (d : Z) (dt : Z) :
  nth_error (timers s) j = Some {| due := d; target := l |} ->
  lookup l s = Some (Elem a ch) ->
  let s3 := step (TimerFires j) (step (Elapse dt) s) in
  if Z.leb d (now s + Z.max 0 dt)
  then log s3 = log s ++ [EvSetLabel l copy_label] /\
       lookup l s3 = Some (Elem a [Text copy_label]) /\
       timers s3 = remove_nth j (timers s)
  else s3 = step (Elapse dt) s /\
       lookup l s3 = Some (Elem a ch).
Proof.
  intros Hn Hl. cbn zeta. cbn [step].
  set (se := set_now (now s + Z.max 0 dt)%Z s).
  change (timers se) with (timers s). change (now se) with (now s + Z.max 0 dt)%Z.
  rewrite Hn. cbn [due target].
  assert (Hle : lookup l se = Some (Elem a ch))
    by (rewrite <- Hl; now apply lookup_frame).
  destruct (Z.leb d (now s + Z.max 0 dt)).
  - set (sf := set_timers (remove_nth j (timers s)) se).
    assert (Hlf : lookup l sf = Some (Elem a ch))
      by (rewrite <- Hle; now apply lookup_frame).
    destruct (set_label_frame l copy_label sf) as [Hlog [Htm _]].
    rewrite (lookup_set_label l copy_label sf Hlf), Hlog, Htm.
    repeat split.
  - split; [reflexivity|exact Hle].
Qed.

(** C8: a click on a bound copy button, none of whose ancestors carries
    a click handler that the bubbling click would run as well, and whose
    parent's code element reads [X], asks for one clipboard write of
    exactly [X].  When the write
    succeeds the label becomes copied! and a timer of 1000 ms is set;
    when it fails the label becomes failed and a timer of 1200 ms is
    set; nothing is written again.  The timer cannot fire before its
    delay has passed, and when it fires the label is copy again. *)
Theorem C8_copy_click :
  forall (s : state) (l : loc) (a : attrs) (ch : list node)
         (parent codeEl : node) (X : js_string),
    lookup l s = Some (Elem a ch) ->
    onclick a = Some CopyHandler ->
    Forall (fun l' => handler_at l' s = None) (ancestors l) ->
    parent_of l s = Some parent ->
    querySelector_code parent = Some codeEl ->
    innerText codeEl = X ->
    let s1 := step (ClickOn l) s in
    log s1 = log s ++ [EvClipboardWrite X] /\
    clipboard_waiting s1 = clipboard_waiting s ++ [l] /\
    page s1 = page s /\ chat s1 = chat s /\
    forall ok : bool,
      let label := if ok then copied_label else failed_label in
      let delay := (if ok then 1000 else 1200)%Z in
      let s2 := step (ClipboardSettles (length (clipboard_waiting s)) ok) s1 in
      log s2 = log s1 ++ [EvSetLabel l label; EvSetTimeout delay l] /\
      lookup l s2 = Some (Elem a [Text label]) /\
      clipboard_waiting s2 = clipboard_waiting s /\
      timers s2 = timers s ++ [{| due := (now s + delay)%Z; target := l |}] /\
      forall dt : Z,
        let s3 := step (TimerFires (length (timers s)))
                       (step (Elapse dt) s2) in
        if Z.ltb dt delay
        then s3 = step (Elapse dt) s2 /\
             lookup l s3 = Some (Elem a [Text label])
        else log s3 = log s2 ++ [EvSetLabel l copy_label] /\
             lookup l s3 = Some (Elem a [Text copy_label]) /\
             timers s3 = timers s.
Proof.
  intros s l a ch parent codeEl X Hl Hon Hno Hp Hq HX. cbn zeta.
  destruct (@click_spec s l a ch parent codeEl Hl Hon Hno Hp Hq)
    as [Hlog1 [Hcw1 [Hpg1 [Hch1 [Htm1 Hnow1]]]]].
  rewrite HX in Hlog1.
  remember (step (ClickOn l) s) as s1 eqn:Es1. clear Es1.
  split; [exact Hlog1|]. split; [exact Hcw1|].
  split; [exact Hpg1|]. split; [exact Hch1|].
  intros ok.
  assert (Hn1 : nth_error (clipboard_waiting s1) (length (clipboard_waiting s))
                = Some l) by (rewrite Hcw1; apply nth_error_last).
  assert (Hl1 : lookup l s1 = Some (Elem a ch))
    by (rewrite <- Hl; now apply lookup_frame).
  destruct (@settle_spec s1 l a ch _ ok Hn1 Hl1)
    as [Hlog2 [Hl2 [Hcw2 [Htm2 Hnow2]]]].
  rewrite Hcw1, remove_nth_last in Hcw2. rewrite Htm1, Hnow1 in Htm2.
  remember (step (ClipboardSettles (length (clipboard_waiting s)) ok) s1)
    as s2 eqn:Es2. clear Es2.
  split; [exact Hlog2|]. split; [exact Hl2|]. split; [exact Hcw2|].
  split; [exact Htm2|].
  intros dt.
  assert (Hn2 : nth_error (timers s2) (length (timers s)) =
                Some {| due := (now s + (if ok then 1000 else 1200))%Z;
                        target := l |})
    by (rewrite Htm2; apply nth_error_last).
  pose proof (@timer_spec s2 l a _ _ _ dt Hn2 Hl2) as Ht. cbn zeta in Ht.
  rewrite Hnow2, Hnow1, Htm2, remove_nth_last in Ht.
  remember (step (TimerFires (length (timers s))) (step (Elapse dt) s2))
    as s3 eqn:Es3. clear Es3.
  assert (Hd : (0 < (if ok then 1000 else 1200))%Z) by (destruct ok; lia).
  destruct (Z.ltb_spec dt (if ok then 1000 else 1200)) as [Hlt|Hge].
  - destruct (Z.leb_spec (now s + (if ok then 1000 else 1200))
                         (now s + Z.max 0 dt)); [lia|exact Ht].
  - destruct (Z.leb_spec (now s + (if ok then 1000 else 1200))
                         (now s + Z.max 0 dt)); [exact Ht|lia].
Qed.

(** ** Calls in flight *)

Lemma count_events_app (p : event -> bool) (l1 l2 : list event) :
  count_events p (l1 ++ l2) = count_events p l1 + count_events p l2.
Proof. unfold count_events. now rewrite filter_app, length_app. Qed.

Lemma quiet_count (evs : list event) :
  quiet evs = true ->
  count_events is_fetch evs = 0 /\ count_events is_completion evs = 0.
Proof.
  unfold quiet, count_events. induction evs as [|e evs IH]; simpl; auto.
  intros H. apply andb_prop in H as [He Hr].
  apply negb_true_iff, orb_false_iff in He as [-> ->]. auto.
Qed.

(** *** The trace of each operation *)

Lemma log_addAIMessage (text : js_string) (s : state) :
  log (addAIMessage text s) =
  log s ++ [EvAppendChild {| entry_id := next_id s;
                             entry_node := ai_node text |};
            EvActivateCopyButtons; EvScroll] /\
  in_flight (addAIMessage text s) = in_flight s /\
  lastModelUsed (addAIMessage text s) = lastModelUsed s.
Proof. run_script. repeat split. now flatten_log. Qed.

Lemma log_addSystemNote (text : js_string) (b : bool) (s : state) :
  log (addSystemNote text b s) =
  log s ++ [EvAppendChild {| entry_id := next_id s;
                             entry_node := system_node text b |};
            EvScroll] /\
  in_flight (addSystemNote text b s) = in_flight s /\
  lastModelUsed (addSystemNote text b s) = lastModelUsed s.
Proof. run_script. repeat split. now flatten_log. Qed.

Lemma log_remove_entry (id : nat) (s : state) :
  log (remove_entry id s) = log s ++ [EvRemove id] /\
  in_flight (remove_entry id s) = in_flight s /\
  next_id (remove_entry id s) = next_id s /\
  lastModelUsed (remove_entry id s) = lastModelUsed s.
Proof. repeat split. Qed.

Lemma log_catch (r : request) (e : js_error) (s : state) :
  log (sendMessage_catch r e s) =
  log s ++ [EvRemove (req_bubble r);
            EvAppendChild {| entry_id := next_id s;
                             entry_node := ai_node error_text |};
            EvActivateCopyButtons; EvScroll; EvConsoleError e] /\
  in_flight (sendMessage_catch r e s) = in_flight s /\
  lastModelUsed (sendMessage_catch r e s) = lastModelUsed s.
Proof.
  unfold sendMessage_catch. cbn zeta.
  destruct (log_remove_entry (req_bubble r) s) as [L1 [F1 [N1 M1]]].
  remember (remove_entry (req_bubble r) s) as s1 eqn:E. clear E.
  destruct (log_addAIMessage error_text s1) as [L2 [F2 M2]].
  remember (addAIMessage error_text s1) as s2 eqn:E. clear E.
  cbn [emit log in_flight lastModelUsed].
  rewrite L2, L1, N1, F2, F1, M2, M1. repeat split. now flatten_log.
Qed.

(** Every operation appends to the trace; a resumed call issues no
    request and leaves the other calls in flight alone. *)
Lemma log_resume (r : request) (o : outcome) (s : state) :
  exists evs,
    log (sendMessage_resume r o s) = log s ++ evs /\
    count_events is_fetch evs = 0 /\
    in_flight (sendMessage_resume r o s) = in_flight s.
Proof.
  destruct o as [|st|st|st [rep [note|]]|st [note|]];
    try destruct (truthy note) eqn:T; run_script; rewrite ?T; run_script;
    (eexists; split; [flatten_log; reflexivity|split; reflexivity]).
Qed.

Lemma log_sendMessage (s : state) :
  exists evs,
    log (sendMessage s) = log s ++ evs /\
    count_events is_completion evs = 0 /\
    length (in_flight (sendMessage s)) =
      length (in_flight s) + count_events is_fetch evs /\
    (truthy (trim (input_value s)) = true ->
     length (in_flight (sendMessage s)) = S (length (in_flight s))).
Proof.
  unfold sendMessage. destruct (truthy (trim (input_value s))); cbn [negb].
  - run_script. eexists. split; [now flatten_log|].
    rewrite length_app. cbn [length]. split; [reflexivity|].
    split; [reflexivity|]. intros _. lia.
  - exists []. rewrite app_nil_r. split; [reflexivity|].
    split; [reflexivity|].
    split; [unfold count_events; simpl; lia|discriminate].
Qed.

(** A click issues the calls of the sends that it runs, if any. *)
Lemma log_click (l : loc) (s : state) :
  exists evs,
    log (click l s) = log s ++ evs /\
    length (in_flight (click l s)) =
      length (in_flight s) + count_events is_fetch evs.
Proof.
  revert l s.
  apply (click_ind
           (fun s s' => exists evs,
                log s' = log s ++ evs /\
                length (in_flight s') =
                  length (in_flight s) + count_events is_fetch evs)).
  - intros s. exists []. rewrite app_nil_r. split; [reflexivity|].
    unfold count_events. simpl. lia.
  - intros s1 s2 s3 [e1 [L1 F1]] [e2 [L2 F2]]. exists (e1 ++ e2).
    rewrite L2, L1, F2, F1, count_events_app, app_assoc. split; [reflexivity|lia].
  - intros l s. unfold copy_click.
    destruct (parent_of l s) as [parent|];
      [destruct (querySelector_code parent) as [codeEl|]|];
      try (exists []; rewrite app_nil_r; split; [reflexivity|];
           unfold count_events; simpl; lia).
    eexists. split; [reflexivity|]. unfold count_events. simpl. lia.
  - intros s. destruct (log_sendMessage s) as [evs [L [_ [F _]]]].
    exists evs. now split.
Qed.

Lemma log_set_label (l : loc) (text : js_string) (s : state) :
  log (set_label l text s) = log s ++ [EvSetLabel l text] /\
  in_flight (set_label l text s) = in_flight s /\
  entry_ids (set_label l text s) = entry_ids s /\
  next_id (set_label l text s) = next_id s.
Proof.
  destruct l; repeat split.
  unfold entry_ids. cbn [set_label emit set_chat chat].
  rewrite map_map. apply map_ext. intros e. unfold update_entry.
  now destruct (Nat.eqb (entry_id e) id).
Qed.

Lemma log_copy_settled (l : loc) (ok : bool) (s : state) :
  exists evs,
    log (copy_settled l ok s) = log s ++ evs /\ quiet evs = true /\
    in_flight (copy_settled l ok s) = in_flight s /\
    entry_ids (copy_settled l ok s) = entry_ids s /\
    next_id (copy_settled l ok s) = next_id s.
Proof.
  unfold copy_settled.
  destruct ok.
  - destruct (log_set_label l copied_label s) as [L [F [I N]]].
    remember (set_label l copied_label s) as s1 eqn:E. clear E.
    unfold setTimeout, entry_ids in *.
    cbn [emit set_timers log in_flight chat next_id].
    rewrite L, F, I, N, <- app_assoc. eexists. split; [reflexivity|].
    now repeat split.
  - destruct (log_set_label l failed_label s) as [L [F [I N]]].
    remember (set_label l failed_label s) as s1 eqn:E. clear E.
    unfold setTimeout, entry_ids in *.
    cbn [emit set_timers log in_flight chat next_id].
    rewrite L, F, I, N, <- app_assoc. eexists. split; [reflexivity|].
    now repeat split.
Qed.

(** *** Who owns which placeholder *)

Lemma ids_ok_same (s s' : state) :
  in_flight s' = in_flight s -> entry_ids s' = entry_ids s ->
  next_id s' = next_id s -> ids_ok s -> ids_ok s'.
Proof.
  unfold ids_ok, owned_bubbles. intros -> -> ->. auto.
Qed.

Lemma ids_ok_emit (e : event) (s : state) : ids_ok s -> ids_ok (emit e s).
Proof. now apply ids_ok_same. Qed.

Lemma ids_ok_set_input_value (v : js_string) (s : state) :
  ids_ok s -> ids_ok (set_input_value v s).
Proof. now apply ids_ok_same. Qed.

Lemma ids_ok_set_select_value (v : js_string) (s : state) :
  ids_ok s -> ids_ok (set_select_value v s).
Proof. now apply ids_ok_same. Qed.

Lemma ids_ok_set_lastModelUsed (v : js_string) (s : state) :
  ids_ok s -> ids_ok (set_lastModelUsed v s).
Proof. now apply ids_ok_same. Qed.

Lemma ids_ok_set_now (v : Z) (s : state) : ids_ok s -> ids_ok (set_now v s).
Proof. now apply ids_ok_same. Qed.

Lemma ids_ok_set_timers (v : list timer) (s : state) :
  ids_ok s -> ids_ok (set_timers v s).
Proof. now apply ids_ok_same. Qed.

Lemma ids_ok_set_clipboard_waiting (v : list loc) (s : state) :
  ids_ok s -> ids_ok (set_clipboard_waiting v s).
Proof. now apply ids_ok_same. Qed.

(** A new child is owned by nobody yet. *)
Lemma ids_ok_append (n : node) (s : state) :
  ids_ok s ->
  ids_ok (snd (appendChild n s)) /\
  In (next_id s) (entry_ids (snd (appendChild n s))) /\
  ~ In (next_id s) (owned_bubbles (snd (appendChild n s))).
Proof.
  unfold ids_ok, owned_bubbles, entry_ids.
  cbn [appendChild snd emit set_next_id set_chat chat in_flight next_id].
  intros [Hn [Hi Hf]]. rewrite map_app. cbn [map entry_id].
  split; [repeat split|split].
  - exact Hn.
  - intros x Hx. apply in_or_app. left. now apply Hi.
  - apply Forall_app. split.
    + eapply Forall_impl; [|exact Hf]. simpl. lia.
    + constructor; [lia|constructor].
  - apply in_or_app. right. now left.
  - intros Hin. apply Hi in Hin. rewrite Forall_forall in Hf.
    apply Hf in Hin. lia.
Qed.

Lemma ids_ok_activate (s : state) :
  ids_ok s -> ids_ok (activateCopyButtons s).
Proof.
  apply ids_ok_same; try reflexivity.
  unfold entry_ids. cbn [activateCopyButtons emit set_chat set_page chat].
  rewrite map_map. apply map_ext. reflexivity.
Qed.

Lemma ids_ok_addAIMessage (text : js_string) (s : state) :
  ids_ok s -> ids_ok (addAIMessage text s).
Proof.
  intros H. unfold addAIMessage, scrollToBottom.
  apply ids_ok_emit, ids_ok_activate. now apply ids_ok_append.
Qed.

Lemma ids_ok_addSystemNote (text : js_string) (b : bool) (s : state) :
  ids_ok s -> ids_ok (addSystemNote text b s).
Proof.
  intros H. unfold addSystemNote, scrollToBottom.
  apply ids_ok_emit. now apply ids_ok_append.
Qed.

Lemma ids_ok_addUserMessage (text : js_string) (s : state) :
  ids_ok s -> ids_ok (addUserMessage text s).
Proof.
  intros H. unfold addUserMessage, scrollToBottom.
  apply ids_ok_emit. now apply ids_ok_append.
Qed.

Lemma ids_ok_set_label (l : loc) (text : js_string) (s : state) :
  ids_ok s -> ids_ok (set_label l text s).
Proof.
  destruct (log_set_label l text s) as [_ [F [I N]]].
  now apply ids_ok_same.
Qed.

(** Removing a placeholder that no call in flight owns. *)
Lemma ids_ok_remove (id : nat) (s : state) :
  ~ In id (owned_bubbles s) -> ids_ok s ->
  ids_ok (remove_entry id s) /\
  owned_bubbles (remove_entry id s) = owned_bubbles s.
Proof.
  unfold ids_ok, owned_bubbles, entry_ids.
  cbn [remove_entry emit set_chat chat in_flight next_id].
  intros Hid [Hn [Hi Hf]]. split; [repeat split|reflexivity].
  - exact Hn.
  - intros x Hx. pose proof (Hi x Hx) as Hin.
    apply in_map_iff in Hin as [e [<- He]].
    apply in_map. apply filter_In. split; [exact He|].
    apply negb_true_iff, Nat.eqb_neq. intros E. apply Hid. now rewrite <- E.
  - rewrite Forall_forall in *. intros x Hx. apply Hf.
    apply in_map_iff in Hx as [e [<- He]].
    apply filter_In in He as [He _]. now apply in_map.
Qed.

Lemma remove_nth_split (A : Type) (l : list A) (i : nat) (x : A) :
  nth_error l i = Some x ->
  exists l1 l2, l = l1 ++ x :: l2 /\ remove_nth i l = l1 ++ l2.
Proof.
  revert i. induction l as [|y l IH]; intros [|i] H; simpl in *;
    try discriminate.
  - inversion H; subst. now exists [], l.
  - destruct (IH _ H) as [l1 [l2 [-> E]]].
    exists (y :: l1), l2. simpl. now rewrite E.
Qed.

Lemma remove_nth_length (A : Type) (l : list A) (i : nat) (x : A) :
  nth_error l i = Some x -> length l = S (length (remove_nth i l)).
Proof.
  intros H. destruct (@remove_nth_split _ _ _ _ H) as [l1 [l2 [-> ->]]].
  rewrite !length_app. simpl. lia.
Qed.

(** Taking a call out of the list in flight: its placeholder is owned
    by no other call. *)
Lemma ids_ok_take (i : nat) (r : request) (s : state) :
  nth_error (in_flight s) i = Some r -> ids_ok s ->
  ids_ok (set_in_flight (remove_nth i (in_flight s)) s) /\
  ~ In (req_bubble r)
       (owned_bubbles (set_in_flight (remove_nth i (in_flight s)) s)).
Proof.
  unfold ids_ok, owned_bubbles, entry_ids.
  cbn [set_in_flight in_flight chat next_id].
  intros Hnth [Hn [Hi Hf]].
  destruct (@remove_nth_split _ _ _ _ Hnth) as [l1 [l2 [E1 E2]]].
  rewrite E2. rewrite E1 in Hn, Hi.
  rewrite map_app in *. cbn [map] in Hn, Hi.
  pose proof (NoDup_remove _ _ _ Hn) as [Hn' Hnot].
  repeat split; auto.
  intros x Hx. apply Hi. apply in_app_or in Hx as [Hx|Hx];
    apply in_or_app; [left|right; right]; assumption.
Qed.

(** Giving a call a placeholder that nobody owns. *)
Lemma ids_ok_own (b : nat) (m : js_string) (s : state) :
  ids_ok s -> In b (entry_ids s) -> ~ In b (owned_bubbles s) ->
  ids_ok (set_in_flight
            (in_flight s ++ [{| req_bubble := b; req_model := m |}]) s).
Proof.
  unfold ids_ok, owned_bubbles, entry_ids.
  cbn [set_in_flight in_flight chat next_id].
  intros [Hn [Hi Hf]] Hin Hnot. rewrite map_app. cbn [map req_bubble].
  repeat split.
  - apply NoDup_rev in Hn. rewrite <- (rev_involutive (_ ++ [b])).
    apply NoDup_rev. rewrite rev_app_distr. cbn [rev app].
    constructor; [|exact Hn]. now rewrite <- in_rev.
  - intros x Hx. apply in_app_or in Hx as [Hx|[<-|[]]]; auto.
  - exact Hf.
Qed.

Lemma ids_ok_catch (r : request) (e : js_error) (s : state) :
  ~ In (req_bubble r) (owned_bubbles s) -> ids_ok s ->
  ids_ok (sendMessage_catch r e s).
Proof.
  intros Hr H. unfold sendMessage_catch. cbn zeta.
  apply ids_ok_emit, ids_ok_addAIMessage. now apply ids_ok_remove.
Qed.

Lemma ids_ok_resume (r : request) (o : outcome) (s : state) :
  ~ In (req_bubble r) (owned_bubbles s) -> ids_ok s ->
  ids_ok (sendMessage_resume r o s).
Proof.
  intros Hr H. destruct (@ids_ok_remove (req_bubble r) s Hr H) as [H1 O1].
  assert (Note : forall note : option js_string,
             ids_ok match note with
                    | Some text =>
                        if truthy text
                        then addSystemNote text true
                               (playClick (remove_entry (req_bubble r) s))
                        else remove_entry (req_bubble r) s
                    | None => remove_entry (req_bubble r) s
                    end /\
             owned_bubbles match note with
                           | Some text =>
                               if truthy text
                               then addSystemNote text true
                                      (playClick
                                         (remove_entry (req_bubble r) s))
                               else remove_entry (req_bubble r) s
                           | None => remove_entry (req_bubble r) s
                           end = owned_bubbles s).
  { intros [note|]; [|now split]. destruct (truthy note); [|now split].
    split; [|exact O1].
    apply ids_ok_addSystemNote. unfold playClick. now apply ids_ok_emit. }
  destruct o as [|st|st|st data|st note]; cbn [sendMessage_resume].
  - now apply ids_ok_catch.
  - now apply ids_ok_catch.
  - apply ids_ok_catch; [now rewrite O1|exact H1].
  - apply ids_ok_addAIMessage, ids_ok_emit, ids_ok_set_lastModelUsed.
    apply Note.
  - destruct (Note note) as [H2 O2].
    remember (match note with Some _ => _ | None => _ end) as s2 eqn:E.
    clear E.
    apply ids_ok_catch; [exact (eq_ind_r (fun o => ~ In (req_bubble r) o) Hr O2)|].
    now apply ids_ok_emit, ids_ok_set_lastModelUsed.
Qed.

Lemma ids_ok_sendMessage (s : state) : ids_ok s -> ids_ok (sendMessage s).
Proof.
  intros H. unfold sendMessage.
  destruct (negb (truthy (trim (input_value s)))); [exact H|]. cbn zeta.
  apply (ids_ok_addUserMessage (trim (input_value s))) in H.
  remember (addUserMessage (trim (input_value s)) s) as s1 eqn:E. clear E.
  apply (ids_ok_set_input_value []), (ids_ok_emit EvClearInput) in H.
  remember (emit EvClearInput (set_input_value [] s1)) as s2 eqn:E. clear E.
  destruct (@ids_ok_append typing_node s2 H) as [H3 [Hin Hnot]].
  unfold addTypingBubble.
  change (appendChild typing_node s2)
    with (next_id s2, snd (appendChild typing_node s2)).
  remember (snd (appendChild typing_node s2)) as s3 eqn:E. clear E.
  cbn iota. unfold scrollToBottom.
  apply (ids_ok_emit EvScroll) in H3.
  change (entry_ids s3) with (entry_ids (emit EvScroll s3)) in Hin.
  change (owned_bubbles s3) with (owned_bubbles (emit EvScroll s3)) in Hnot.
  remember (emit EvScroll s3) as s4 eqn:E. clear E.
  match goal with
  | |- ids_ok (set_in_flight (in_flight (emit ?e s4) ++ _) _) =>
      apply (ids_ok_emit e) in H3;
      change (entry_ids s4) with (entry_ids (emit e s4)) in Hin;
      change (owned_bubbles s4) with (owned_bubbles (emit e s4)) in Hnot;
      remember (emit e s4) as s5 eqn:E5
  end.
  now apply ids_ok_own.
Qed.

(** *** One step *)

Lemma step_ids_ok (a : action) (s : state) : ids_ok s -> ids_ok (step a s).
Proof.
  intros H. destruct a as [v| |key sh|m|i o|l|i ok|dt|i]; cbn [step].
  - now apply ids_ok_set_input_value.
  - now apply ids_ok_sendMessage.
  - unfold on_keydown.
    destruct (str_eqb key (lit "Enter") && negb sh);
      [now apply ids_ok_sendMessage|exact H].
  - unfold on_model_change, playClick.
    apply ids_ok_addSystemNote, ids_ok_emit.
    now apply ids_ok_set_select_value.
  - destruct (nth_error (in_flight s) i) as [r|] eqn:E; [|exact H].
    destruct (@ids_ok_take i r s E H) as [H1 Hr]. now apply ids_ok_resume.
  - revert H. revert l s.
    apply (click_ind (fun s s' => ids_ok s -> ids_ok s')); auto.
    + intros l s.
      destruct (copy_click_frame l s) as [_ [C [N [F _]]]].
      apply ids_ok_same; [exact F| |exact N].
      unfold entry_ids. now rewrite C.
    + exact ids_ok_sendMessage.
  - destruct (nth_error (clipboard_waiting s) i) as [l|]; [|exact H].
    apply (ids_ok_set_clipboard_waiting
             (remove_nth i (clipboard_waiting s))) in H.
    destruct (log_copy_settled l ok
                (set_clipboard_waiting (remove_nth i (clipboard_waiting s)) s))
      as [_ [_ [_ [F [I N]]]]].
    revert H. now apply ids_ok_same.
  - now apply ids_ok_set_now.
  - destruct (nth_error (timers s) i) as [t|]; [|exact H].
    destruct (Z.leb (due t) (now s)); [|exact H].
    apply ids_ok_set_label. now apply ids_ok_set_timers.
Qed.

Lemma step_log (a : action) (s : state) :
  exists evs,
    log (step a s) = log s ++ evs /\
    length (in_flight (step a s)) + resumes a s =
    length (in_flight s) + count_events is_fetch evs.
Proof.
  assert (Q : forall s' evs,
             log s' = log s ++ evs -> quiet evs = true ->
             in_flight s' = in_flight s ->
             exists evs,
               log s' = log s ++ evs /\
               length (in_flight s') + 0 =
               length (in_flight s) + count_events is_fetch evs).
  { intros s' evs L Qe F. exists evs. split; [exact L|].
    destruct (@quiet_count _ Qe) as [-> _]. now rewrite F. }
  assert (Same : exists evs,
             log s = log s ++ evs /\
             length (in_flight s) + 0 =
             length (in_flight s) + count_events is_fetch evs).
  { apply (Q s []); [now rewrite app_nil_r|reflexivity|reflexivity]. }
  assert (Send : exists evs,
             log (sendMessage s) = log s ++ evs /\
             length (in_flight (sendMessage s)) + 0 =
             length (in_flight s) + count_events is_fetch evs).
  { destruct (log_sendMessage s) as [evs [L [C [F _]]]].
    exists evs. split; [exact L|]. rewrite F. lia. }
  destruct a as [v| |key sh|m|i o|l|i ok|dt|i]; cbn [step resumes].
  - apply (Q _ []); [now rewrite app_nil_r|reflexivity|reflexivity].
  - exact Send.
  - unfold on_keydown.
    destruct (str_eqb key (lit "Enter") && negb sh); [exact Send|exact Same].
  - unfold on_model_change.
    destruct (log_addSystemNote (switch_note (select_value (set_select_value m s)))
                true (playClick (set_select_value m s))) as [L [F _]].
    eapply Q; [rewrite L; cbn [playClick emit set_select_value log];
               rewrite <- app_assoc; reflexivity|reflexivity|now rewrite F].
  - destruct (nth_error (in_flight s) i) as [r|] eqn:E; [|exact Same].
    destruct (log_resume r o (set_in_flight (remove_nth i (in_flight s)) s))
      as [evs [L [Fe F]]].
    exists evs. split; [exact L|].
    rewrite Fe, F. cbn [set_in_flight in_flight].
    rewrite (@remove_nth_length _ _ _ _ E). lia.
  - destruct (log_click l s) as [evs [L F]].
    exists evs. split; [exact L|]. rewrite F. lia.
  - destruct (nth_error (clipboard_waiting s) i) as [l|]; [|exact Same].
    destruct (log_copy_settled l ok
                (set_clipboard_waiting (remove_nth i (clipboard_waiting s)) s))
      as [evs [L [Qe [F _]]]].
    now apply (Q _ evs).
  - apply (Q _ []); [now rewrite app_nil_r|reflexivity|reflexivity].
  - destruct (nth_error (timers s) i) as [t|]; [|exact Same].
    destruct (Z.leb (due t) (now s)); [|exact Same].
    destruct (log_set_label (target t) copy_label
                (set_timers (remove_nth i (timers s)) s)) as [L [F _]].
    eapply Q; [exact L|reflexivity|exact F].
Qed.

(** Along a run, the calls in flight are those there were, plus the
    calls issued, less the calls resumed. *)
Lemma run_accounting (acts : list action) (s : state) :
  length (in_flight (run acts s)) + resumed_calls acts s +
    count_events is_fetch (log s) =
  length (in_flight s) + count_events is_fetch (log (run acts s)).
Proof.
  revert s. induction acts as [|a acts IH]; intros s;
    cbn [run resumed_calls]; [lia|].
  specialize (IH (step a s)).
  destruct (step_log a s) as [evs [L C]].
  rewrite L, count_events_app in IH. lia.
Qed.

Lemma run_invariant (acts : list action) (s : state) :
  ids_ok s -> ids_ok (run acts s).
Proof.
  revert s. induction acts as [|a acts IH]; intros s H; [exact H|].
  cbn [run]. apply IH. now apply step_ids_ok.
Qed.

Lemma initial_entry_ids (children : list node) :
  map entry_id (initial_entries children) = seq 0 (length children).
Proof.
  unfold initial_entries. rewrite map_map. cbn [entry_id].
  change (fun x : nat * node => fst x) with (@fst nat node).
  generalize 0. induction children as [|c l IH]; intros n; simpl;
    [reflexivity|]. now rewrite IH.
Qed.

Lemma init_invariant (page0 : node) (children0 : list node)
    (model0 input0 : js_string) :
  ids_ok (init page0 children0 model0 input0).
Proof.
  unfold init.
  apply ids_ok_addAIMessage. unfold ids_ok, owned_bubbles, entry_ids.
  cbn [in_flight chat next_id map]. repeat split.
  - constructor.
  - intros x [].
  - rewrite initial_entry_ids. apply Forall_forall. intros x Hx.
    apply in_seq in Hx. lia.
Qed.

Lemma init_no_call (page0 : node) (children0 : list node)
    (model0 input0 : js_string) :
  in_flight (init page0 children0 model0 input0) = [] /\
  count_events is_fetch (log (init page0 children0 model0 input0)) = 0.
Proof.
  unfold init.
  match goal with
  | |- context [addAIMessage ?t ?s0] =>
      destruct (log_addAIMessage t s0) as [L [F _]]
  end.
  rewrite L, F. split; reflexivity.
Qed.

(** C6 (amended): the widget has no guard against a second send.  Every
    send with an input that is not blank puts one more call in flight,
    whatever is already pending.  In every reachable state the calls in
    flight are the calls issued and not yet resumed, and each of them
    owns its own typing placeholder, which is in the transcript and is
    owned by no other call. *)
Theorem C6_in_flight_accounting :
  forall (page0 : node) (children0 : list node) (model0 input0 : js_string)
         (acts : list action),
    let s := run acts (init page0 children0 model0 input0) in
    length (in_flight s) +
      resumed_calls acts (init page0 children0 model0 input0) =
      count_events is_fetch (log s) /\
    NoDup (owned_bubbles s) /\
    incl (owned_bubbles s) (entry_ids s) /\
    forall v : js_string,
      truthy (trim v) = true ->
      length (in_flight (step ClickSend (step (Input v) s))) =
      S (length (in_flight s)).
Proof.
  intros page0 children0 model0 input0 acts s.
  destruct (run_invariant acts (init_invariant page0 children0 model0 input0))
    as [Hn [Hi _]].
  fold s in Hn, Hi.
  pose proof (run_accounting acts (init page0 children0 model0 input0)) as Ha.
  destruct (init_no_call page0 children0 model0 input0) as [F0 L0].
  rewrite F0, L0 in Ha. fold s in Ha. cbn [length] in Ha.
  split; [lia|]. split; [exact Hn|]. split; [exact Hi|].
  intros v Hv. cbn [step].
  destruct (log_sendMessage (set_input_value v s)) as [_ [_ [_ [_ H]]]].
  now apply H.
Qed.

(* ================================================================== *)
(** * Further properties of the script *)
(* ================================================================== *)

(** ** The key binding *)

Lemma str_eqb_eq (a b : js_string) : str_eqb a b = true <-> a = b.
Proof.
  revert b. induction a as [|x a IH]; intros [|y b]; simpl;
    try (split; [discriminate|discriminate]); [tauto|].
  rewrite andb_true_iff, N.eqb_eq, IH. split.
  - intros [-> ->]. reflexivity.
  - intros H. inversion H. auto.
Qed.

(** X1: a key press sends exactly when the key is Enter and Shift is not
    held, and then it does what the send button does; any other key
    press, and Enter with Shift, leaves the state as it is. *)
Theorem X1_keydown_sends_on_plain_enter :
  forall (key : js_string) (shiftKey : bool) (s : state),
    (key = lit "Enter" -> shiftKey = false ->
     step (Keydown key shiftKey) s = step ClickSend s) /\
    (key <> lit "Enter" \/ shiftKey = true ->
     step (Keydown key shiftKey) s = s).
Proof.
  intros key shiftKey s. cbn [step]. unfold on_keydown. split.
  - intros -> ->. reflexivity.
  - intros [Hk| ->].
    + destruct (str_eqb key (lit "Enter")) eqn:E; [|reflexivity].
      apply str_eqb_eq in E. contradiction.
    + now rewrite andb_false_r.
Qed.

(** ** The post-processor on markup it was not written for *)

Lemma includes_false_head (p s : js_string) :
  includes p s = false -> strip_prefix p s = None.
Proof.
  rewrite includes_unfold. now destruct (strip_prefix p s).
Qed.

Lemma includes_false_suffix (p a b : js_string) :
  includes p (a ++ b) = false -> includes p b = false.
Proof.
  induction a as [|x a IH]; [auto|].
  simpl app. rewrite includes_unfold.
  destruct (strip_prefix p (x :: a ++ b)); [discriminate|exact IH].
Qed.

(** A lazy star fails when the continuation fails wherever it is tried. *)
Lemma star_lazy_fail (cls : N -> bool) (s : js_string) (caps : captures)
    (k : cont) :
  (forall a b, s = a ++ b -> k b caps = None) ->
  star_lazy cls s caps k = None.
Proof.
  induction s as [|x s IH]; intros H; rewrite star_lazy_unfold.
  - now rewrite (H [] [] eq_refl).
  - rewrite (H [] (x :: s) eq_refl). destruct (cls x); [|reflexivity].
    apply IH. intros a b E. apply (H (x :: a) b). now rewrite E.
Qed.

Lemma tail_fail (s : js_string) (caps : captures) (k : cont) :
  includes pre_code_close s = false ->
  re_match code_block_tail s caps k = None.
Proof.
  intros H. unfold code_block_tail. cbn [re_match].
  destruct (strip_prefix tag_end s) as [s1|] eqn:E; [|reflexivity].
  apply strip_prefix_Some in E. subst s.
  apply includes_false_suffix in H.
  apply star_lazy_fail. intros a b Eb. subst s1.
  apply includes_false_suffix, includes_false_head in H. now rewrite H.
Qed.

Lemma lang_fail (s : js_string) (caps : captures) (k : cont) :
  includes pre_code_close s = false ->
  re_match code_block_lang s caps
    (fun s1 c1 => re_match code_block_tail s1 c1 k) = None.
Proof.
  intros H. unfold code_block_lang. cbn [re_match].
  destruct (strip_prefix language_attr s) as [s1|] eqn:E; [|reflexivity].
  apply strip_prefix_Some in E. subst s.
  apply includes_false_suffix in H.
  apply star_lazy_fail. intros a b Eb. subst s1.
  apply includes_false_suffix in H.
  destruct (strip_prefix dquote b) as [s2|] eqn:E2; [|reflexivity].
  apply strip_prefix_Some in E2. subst b.
  apply includes_false_suffix in H. now apply tail_fail.
Qed.

Lemma exec_no_close (s : js_string) :
  includes pre_code_close s = false ->
  re_exec_here code_block_re s = None.
Proof.
  intros H. unfold re_exec_here. rewrite code_block_re_eq.
  cbn [re_match].
  destruct (strip_prefix pre_code_open s) as [s1|] eqn:E; [|reflexivity].
  apply strip_prefix_Some in E. subst s.
  apply includes_false_suffix in H.
  rewrite lang_fail by assumption. now apply tail_fail.
Qed.

Lemma replace_all_nowhere (r : regex) (f : captures -> js_string)
    (s : js_string) :
  (forall a b, s = a ++ b -> re_exec_here r b = None) ->
  replace_all r f s = s.
Proof.
  induction s as [|c s IH]; intros H.
  - apply replace_all_nil. apply (H [] []). reflexivity.
  - rewrite replace_all_no_match by (apply (H [] (c :: s)); reflexivity).
    f_equal. apply IH. intros a b E. apply (H (c :: a) b). now rewrite E.
Qed.

(** X2: markup in which the closing tags of a code block never occur,
    for instance a block that is opened and not closed, comes out of
    the post-processor unchanged. *)
Theorem X2_unclosed_block_left_alone :
  forall html : js_string,
    includes pre_code_close html = false ->
    wrap_code_blocks html = html.
Proof.
  intros html H. unfold wrap_code_blocks. apply replace_all_nowhere.
  intros a b E. apply exec_no_close. subst html.
  now apply includes_false_suffix in H.
Qed.

(** X3: a match ends at the first closing tags.  When the code of a
    block itself contains them, only the part before them is wrapped,
    and what follows is scanned as ordinary markup; it stays as it is
    when it opens no further block. *)
Theorem X3_block_ends_at_first_close :
  forall (lang : option js_string) (c1 c2 rest : js_string),
    fence_ok {| fence_lang := lang; fence_code := c1 |} = true ->
    let html :=
      fence_html {| fence_lang := lang;
                    fence_code := c1 ++ pre_code_close ++ c2 |} ++ rest in
    wrap_code_blocks html =
      code_wrapper c1 ++ wrap_code_blocks (c2 ++ pre_code_close ++ rest) /\
    (plain_chunk (c2 ++ pre_code_close ++ rest) = true ->
     wrap_code_blocks html =
       code_wrapper c1 ++ c2 ++ pre_code_close ++ rest).
Proof.
  intros lang c1 c2 rest Hok html.
  assert (E : html =
              fence_html {| fence_lang := lang; fence_code := c1 |} ++
              (c2 ++ pre_code_close ++ rest)).
  { unfold html, fence_html. cbn [fence_lang fence_code].
    now rewrite <- !app_assoc. }
  assert (W : wrap_code_blocks html =
              code_wrapper c1 ++
              wrap_code_blocks (c2 ++ pre_code_close ++ rest)).
  { rewrite E. now rewrite wrap_fence. }
  split; [exact W|]. intros Hp. rewrite W. now rewrite wrap_plain.
Qed.

(** ** What is sent *)

Lemma trim_start_split (v : js_string) :
  exists ws,
    v = ws ++ trim_start v /\
    forallb is_trimmed_char ws = true /\
    starts_clean (trim_start v) = true.
Proof.
  induction v as [|c v [ws [E [Hws Hc]]]].
  - exists []. now repeat split.
  - simpl. destruct (is_trimmed_char c) eqn:Ec.
    + exists (c :: ws). simpl. rewrite Ec, Hws. repeat split; auto.
      now rewrite <- E.
    + exists []. simpl. now rewrite Ec.
Qed.

Lemma forallb_rev (A : Type) (p : A -> bool) (l : list A) :
  forallb p (rev l) = forallb p l.
Proof.
  induction l as [|x l IH]; [reflexivity|].
  simpl. now rewrite forallb_app, IH, andb_comm; simpl; rewrite andb_true_r.
Qed.

Lemma trim_end_split (t : js_string) :
  exists ws,
    t = trim_end t ++ ws /\
    forallb is_trimmed_char ws = true /\
    starts_clean (rev (trim_end t)) = true.
Proof.
  unfold trim_end. destruct (trim_start_split (rev t)) as [ws [E [Hws Hc]]].
  exists (rev ws). repeat split.
  - rewrite <- rev_app_distr, <- E. now rewrite rev_involutive.
  - now rewrite forallb_rev.
  - now rewrite rev_involutive.
Qed.

Lemma starts_clean_prefix (m ws : js_string) :
  starts_clean (m ++ ws) = true -> forallb is_trimmed_char ws = true ->
  starts_clean m = true.
Proof.
  destruct m as [|c m]; simpl; auto.
Qed.

(** The input is the trimmed text between two runs of whitespace. *)
Lemma trim_split (v : js_string) :
  exists ws1 ws2,
    v = ws1 ++ trim v ++ ws2 /\
    forallb is_trimmed_char ws1 = true /\
    forallb is_trimmed_char ws2 = true /\
    starts_clean (trim v) = true /\
    starts_clean (rev (trim v)) = true.
Proof.
  unfold trim.
  destruct (trim_start_split v) as [ws1 [E1 [H1 C1]]].
  destruct (trim_end_split (trim_start v)) as [ws2 [E2 [H2 C2]]].
  exists ws1, ws2. repeat split; auto.
  - now rewrite <- E2.
  - rewrite E2 in C1. now apply starts_clean_prefix in C1.
Qed.

Lemma trim_truthy (v : js_string) :
  truthy (trim v) = negb (forallb is_trimmed_char v).
Proof.
  destruct (forallb is_trimmed_char v) eqn:B.
  - now rewrite trim_blank.
  - destruct (trim_split v) as [ws1 [ws2 [E [H1 [H2 _]]]]].
    destruct (trim v); [|reflexivity].
    rewrite E, !forallb_app, H1, H2 in B. discriminate.
Qed.

(** X4: the guard of [sendMessage] rejects exactly the inputs made of
    whitespace only.  For any other input the message that is shown and
    posted is the input without its leading and trailing whitespace:
    what lies between is unchanged, and it neither begins nor ends with
    whitespace. *)
Theorem X4_message_is_trimmed_input :
  forall s : state,
    let v := input_value s in
    let m := trim v in
    (sendMessage s = s <-> forallb is_trimmed_char v = true) /\
    (exists ws1 ws2,
        v = ws1 ++ m ++ ws2 /\
        forallb is_trimmed_char ws1 = true /\
        forallb is_trimmed_char ws2 = true) /\
    starts_clean m = true /\
    starts_clean (rev m) = true /\
    (forallb is_trimmed_char v = false ->
     exists before,
       log (sendMessage s) =
       before ++ [EvFetch chat_url
                    {| message := m; model := select_value s;
                       prev_model := lastModelUsed s |}]).
Proof.
  intros s v m.
  destruct (trim_split v) as [ws1 [ws2 [E [H1 [H2 [C1 C2]]]]]].
  split; [|split; [now exists ws1, ws2|split; [exact C1|split; [exact C2|]]]].
  - split.
    + intros Hs. destruct (forallb is_trimmed_char v) eqn:B; [reflexivity|].
      destruct (log_sendMessage s) as [_ [_ [_ [_ Hlen]]]].
      rewrite trim_truthy in Hlen. fold v in Hlen. rewrite B in Hlen.
      specialize (Hlen eq_refl). rewrite Hs in Hlen. lia.
    + intros B. unfold sendMessage. fold v. now rewrite trim_blank.
  - intros B. unfold sendMessage. rewrite trim_truthy. fold v. rewrite B.
    cbn [negb]. run_script. eexists. reflexivity.
Qed.

(** ** What the binder leaves alone *)

Lemma activate_attrs_tag (a : attrs) :
  tag (activate_attrs a) = tag a /\ classList (activate_attrs a) = classList a.
Proof.
  unfold activate_attrs, bind_button.
  destruct (is_copy_btn a); [|now split].
  destruct (truthy_opt (data_bound a)); now split.
Qed.

Lemma activate_attrs_other (a : attrs) :
  is_copy_btn a = false -> activate_attrs a = a.
Proof. unfold activate_attrs. now intros ->. Qed.

Lemma activate_attrs_class (a : attrs) :
  is_copy_btn (activate_attrs a) = is_copy_btn a.
Proof.
  unfold is_copy_btn, has_class.
  now destruct (activate_attrs_tag a) as [_ ->].
Qed.

Lemma innerText_activate (n : node) :
  innerText (activate_node n) = innerText n.
Proof.
  induction n as [t|a ch IH] using node_induction; [reflexivity|].
  cbn [activate_node innerText]. unfold is_tag.
  destruct (activate_attrs_tag a) as [-> _].
  destruct (str_eqb (lit "br") (tag a)); [reflexivity|].
  induction IH as [|c ch Hc _ IHch]; [reflexivity|].
  cbn [map flat_map]. now rewrite Hc, IHch.
Qed.

Lemma first_some_map (A B : Type) (f : A -> B) (l : list (option A)) :
  first_some (map (option_map f) l) = option_map f (first_some l).
Proof.
  induction l as [|[x|] l IH]; simpl; auto.
Qed.

Lemma find_code_activate (n : node) :
  find_code (activate_node n) = option_map activate_node (find_code n).
Proof.
  induction n as [t|a ch IH] using node_induction; [reflexivity|].
  cbn [activate_node find_code]. unfold is_tag.
  destruct (activate_attrs_tag a) as [-> _].
  destruct (str_eqb (lit "code") (tag a)); [reflexivity|].
  rewrite <- first_some_map, !map_map. f_equal.
  apply map_ext_Forall. exact IH.
Qed.

Lemma querySelector_code_activate (n : node) :
  querySelector_code (activate_node n) =
  option_map activate_node (querySelector_code n).
Proof.
  destruct n as [t|a ch]; [reflexivity|].
  cbn [activate_node querySelector_code].
  rewrite <- first_some_map, !map_map. f_equal.
  apply map_ext. intros c. apply find_code_activate.
Qed.

Lemma get_node_activate (p : path) (n : node) :
  get_node (activate_node n) p = option_map activate_node (get_node n p).
Proof.
  revert n. induction p as [|i p IH]; intros n; [reflexivity|].
  destruct n as [t|a ch]; [reflexivity|].
  cbn [activate_node get_node]. rewrite nth_error_map.
  destruct (nth_error ch i) as [c|]; [apply IH|reflexivity].
Qed.

Lemma elements_other_activate (n : node) :
  filter (fun a => negb (is_copy_btn a)) (elements (activate_node n)) =
  filter (fun a => negb (is_copy_btn a)) (elements n).
Proof.
  rewrite elements_activate.
  induction (elements n) as [|a l IH]; [reflexivity|].
  cbn [map filter]. rewrite activate_attrs_class, IH.
  destruct (is_copy_btn a) eqn:E; [reflexivity|].
  now rewrite activate_attrs_other.
Qed.

(** X5: the binder changes nothing but the marker and the handler of
    copy buttons.  The tree keeps its shape, every element keeps its tag
    and its classes, every element that is not a copy button is left as
    it is, and the text is the same; so the code that a copy button
    would copy is the same before and after binding. *)
Theorem X5_binder_keeps_the_document :
  forall n : node,
    map tag (elements (activate_node n)) = map tag (elements n) /\
    map classList (elements (activate_node n)) =
      map classList (elements n) /\
    filter (fun a => negb (is_copy_btn a)) (elements (activate_node n)) =
      filter (fun a => negb (is_copy_btn a)) (elements n) /\
    innerText (activate_node n) = innerText n /\
    option_map innerText (querySelector_code (activate_node n)) =
      option_map innerText (querySelector_code n) /\
    forall p : path,
      get_node (activate_node n) p = option_map activate_node (get_node n p).
Proof.
  intros n. repeat split.
  - rewrite elements_activate, map_map. apply map_ext.
    intros a. apply activate_attrs_tag.
  - rewrite elements_activate, map_map. apply map_ext.
    intros a. apply activate_attrs_tag.
  - apply elements_other_activate.
  - apply innerText_activate.
  - rewrite querySelector_code_activate.
    destruct (querySelector_code n) as [c|]; [|reflexivity].
    simpl. now rewrite innerText_activate.
  - intros p. apply get_node_activate.
Qed.

(** ** How the transcript evolves *)

Lemma remove_keeps_others (b : nat) (l : list entry) :
  map entry_id (filter (fun e => negb (Nat.eqb (entry_id e) b)) l) =
  filter (fun i => negb (Nat.eqb i b)) (map entry_id l).
Proof.
  induction l as [|e l IH]; [reflexivity|].
  cbn [filter map]. destruct (negb (Nat.eqb (entry_id e) b));
    cbn [map]; now rewrite IH.
Qed.

Lemma filter_twice (A : Type) (p : A -> bool) (l : list A) :
  filter p (filter p l) = filter p l.
Proof.
  induction l as [|x l IH]; [reflexivity|].
  simpl. destruct (p x) eqn:E; simpl; rewrite ?E, IH; reflexivity.
Qed.

(** What resuming a call does to the state, whatever the outcome. *)
Lemma resume_frame (r : request) (o : outcome) (s : state) :
  let s' := sendMessage_resume r o s in
  next_id s' = next_id s + length (answer_entries (next_id s) o) /\
  in_flight s' = in_flight s /\
  lastModelUsed s' = match o with
                     | JsonReply _ _ | JsonNoReply _ _ => req_model r
                     | _ => lastModelUsed s
                     end /\
  select_value s' = select_value s /\
  input_value s' = input_value s /\
  page s' = activate_node (page s).
Proof.
  destruct o as [|st|st|st [rep [note|]]|st [note|]]; cbn zeta;
    cbn [answer_entries system_note reply length];
    try destruct (truthy note) eqn:T; run_script; rewrite ?T; run_script;
    cbn [length]; rewrite ?Nat.add_1_r; repeat split; lia.
Qed.

(** The transcript after a call is resumed; the placeholder of the call
    is a node that exists, so its identity is not the next fresh one. *)
Lemma resume_spec (r : request) (o : outcome) (s : state) :
  req_bubble r <> next_id s ->
  let s' := sendMessage_resume r o s in
  chat s' = map activate_entry
              (filter (fun e => negb (Nat.eqb (entry_id e) (req_bubble r)))
                      (chat s) ++
               answer_entries (next_id s) o).
Proof.
  intros Hb.
  assert (Hneq : Nat.eqb (next_id s) (req_bubble r) = false)
    by (apply Nat.eqb_neq; congruence).
  destruct o as [|st|st|st [rep [note|]]|st [note|]]; cbn zeta;
    cbn [answer_entries system_note reply length];
    try destruct (truthy note) eqn:T; run_script; rewrite ?T; run_script;
    rewrite ?filter_app, ?filter_twice; cbn [filter entry_id];
    rewrite ?Hneq; cbn [negb]; rewrite ?app_nil_r, <- ?app_assoc;
    reflexivity.
Qed.

(** What a send does to the state when the input is not blank. *)
Lemma sendMessage_spec (s : state) :
  truthy (trim (input_value s)) = true ->
  let s' := sendMessage s in
  chat s' = chat s ++
            [{| entry_id := next_id s;
                entry_node := user_node (trim (input_value s)) |};
             {| entry_id := S (next_id s); entry_node := typing_node |}] /\
  next_id s' = S (S (next_id s)) /\
  in_flight s' = in_flight s ++
                 [{| req_bubble := S (next_id s);
                     req_model := select_value s |}] /\
  lastModelUsed s' = lastModelUsed s /\
  select_value s' = select_value s /\
  input_value s' = [] /\
  page s' = page s.
Proof.
  intros H. cbn zeta. unfold sendMessage. rewrite H. cbn [negb]. run_script.
  rewrite <- app_assoc. now repeat split.
Qed.

Lemma sendMessage_blank (s : state) :
  truthy (trim (input_value s)) = false -> sendMessage s = s.
Proof. intros H. unfold sendMessage. now rewrite H. Qed.

Lemma entry_ids_activate (l : list entry) :
  map entry_id (map activate_entry l) = map entry_id l.
Proof. rewrite map_map. apply map_ext. reflexivity. Qed.

Lemma evolves_same (s s' : state) :
  entry_ids s' = entry_ids s -> next_id s' = next_id s ->
  evolves None 0 s s'.
Proof.
  unfold evolves. intros -> ->. cbn [without seq].
  now rewrite app_nil_r, Nat.add_0_r.
Qed.

Lemma evolves_trans (k1 k2 : nat) (s1 s2 s3 : state) :
  evolves None k1 s1 s2 -> evolves None k2 s2 s3 ->
  evolves None (k1 + k2) s1 s3.
Proof.
  unfold evolves. cbn [without]. intros [E1 N1] [E2 N2].
  rewrite E2, E1, N2, N1, seq_app, app_assoc. split; [reflexivity|lia].
Qed.

Lemma sendMessage_evolves (s : state) :
  exists k, evolves None k s (sendMessage s).
Proof.
  destruct (truthy (trim (input_value s))) eqn:T.
  - destruct (sendMessage_spec s T) as [Hc [Hn _]].
    exists 2. unfold evolves, entry_ids. rewrite Hc, Hn, map_app.
    cbn [without map entry_id seq]. split; [reflexivity|lia].
  - rewrite sendMessage_blank by assumption.
    exists 0. now apply evolves_same.
Qed.

Lemma click_evolves (l : loc) (s : state) :
  exists k, evolves None k s (click l s).
Proof.
  revert l s.
  apply (click_ind (fun s s' => exists k, evolves None k s s')).
  - intros s. exists 0. now apply evolves_same.
  - intros s1 s2 s3 [k1 H1] [k2 H2]. exists (k1 + k2).
    now apply evolves_trans with s2.
  - intros l s. destruct (copy_click_frame l s) as [_ [C [N _]]].
    exists 0. apply evolves_same; [|exact N]. unfold entry_ids. now rewrite C.
  - exact sendMessage_evolves.
Qed.

Lemma step_evolves (a : action) (s : state) :
  Forall (fun b => b < next_id s) (owned_bubbles s) ->
  exists k, evolves (removed_by a s) k s (step a s).
Proof.
  intros Hown.
  assert (Same : exists k, evolves None k s s)
    by (exists 0; now apply evolves_same).
  pose proof (sendMessage_evolves s) as Send.
  destruct a as [v| |key sh|m|i o|l|i ok|dt|i]; cbn [step removed_by].
  - exists 0. now apply evolves_same.
  - exact Send.
  - unfold on_keydown.
    destruct (str_eqb key (lit "Enter") && negb sh); [exact Send|exact Same].
  - exists 1. unfold evolves, entry_ids. run_script.
    rewrite map_app. cbn [without map entry_id seq]. split; [reflexivity|lia].
  - destruct (nth_error (in_flight s) i) as [r|] eqn:En; [|exact Same].
    cbn [option_map].
    assert (Hb : req_bubble r <>
                 next_id (set_in_flight (remove_nth i (in_flight s)) s)).
    { cbn [set_in_flight next_id]. rewrite Forall_forall in Hown.
      assert (req_bubble r < next_id s); [|lia].
      apply Hown. unfold owned_bubbles. apply in_map.
      now apply nth_error_In in En. }
    pose proof (@resume_spec r o _ Hb) as Hc.
    destruct (resume_frame r o (set_in_flight (remove_nth i (in_flight s)) s))
      as [Hn _]. cbn zeta in Hc, Hn.
    cbn [set_in_flight chat next_id] in Hc, Hn.
    exists (length (answer_entries (next_id s) o)).
    unfold evolves, entry_ids. rewrite Hc, Hn. split; [|reflexivity].
    rewrite entry_ids_activate, map_app, remove_keeps_others.
    cbn [without]. f_equal.
    destruct o as [|st|st|st [rep [note|]]|st [note|]];
      cbn [answer_entries system_note]; try reflexivity;
      destruct (truthy note); reflexivity.
  - apply click_evolves.
  - destruct (nth_error (clipboard_waiting s) i) as [l|]; [|exact Same].
    destruct (log_copy_settled l ok
                (set_clipboard_waiting (remove_nth i (clipboard_waiting s)) s))
      as [_ [_ [_ [_ [I N]]]]].
    exists 0. now apply evolves_same.
  - exists 0. now apply evolves_same.
  - destruct (nth_error (timers s) i) as [t|]; [|exact Same].
    destruct (Z.leb (due t) (now s)); [|exact Same].
    destruct (log_set_label (target t) copy_label
                (set_timers (remove_nth i (timers s)) s)) as [_ [_ [I N]]].
    exists 0. now apply evolves_same.
Qed.

(** X6: the transcript is append-only but for the typing placeholders.
    In a state where the placeholders of the calls in flight are nodes
    that exist, as they are in every reachable state, one step takes
    out of the transcript at most the placeholder of the call it
    resumes, keeps every other entry in its place and order, and
    appends entries with the next fresh identities. *)
Theorem X6_transcript_append_only :
  forall (a : action) (s : state),
    Forall (fun b => b < next_id s) (owned_bubbles s) ->
    exists k : nat,
      entry_ids (step a s) =
        without (removed_by a s) (entry_ids s) ++ seq (next_id s) k /\
      next_id (step a s) = next_id s + k /\
      (removed_by a s = None ->
       firstn (length (chat s)) (entry_ids (step a s)) = entry_ids s).
Proof.
  intros a s Hown. destruct (@step_evolves a s Hown) as [k [E N]].
  exists k. split; [exact E|]. split; [exact N|].
  intros R. rewrite E, R. cbn [without].
  replace (length (chat s)) with (length (entry_ids s) + 0)
    by (unfold entry_ids; rewrite length_map; lia).
  rewrite firstn_app_2. cbn [firstn]. apply app_nil_r.
Qed.

Lemma model_change_spec (m : js_string) (s : state) :
  let s' := step (ChangeModel m) s in
  in_flight s' = in_flight s /\
  lastModelUsed s' = lastModelUsed s /\
  select_value s' = m /\
  input_value s' = input_value s.
Proof. cbn zeta. run_script. now repeat split. Qed.

Lemma in_remove_nth (A : Type) (i : nat) (l : list A) (x : A) :
  In x (remove_nth i l) -> In x l.
Proof.
  revert i. induction l as [|y l IH]; intros [|i] H; simpl in *; auto.
  destruct H as [H|H]; [now left|right; eauto].
Qed.

(** A placeholder owned after a step was owned before it or is new. *)
Lemma sendMessage_owned (s : state) :
  next_id s <= next_id (sendMessage s) /\
  forall b, In b (owned_bubbles (sendMessage s)) ->
            In b (owned_bubbles s) \/ next_id s <= b.
Proof.
  destruct (truthy (trim (input_value s))) eqn:T.
  - destruct (sendMessage_spec s T) as [_ [N [F _]]].
    split; [rewrite N; lia|].
    unfold owned_bubbles. rewrite F, map_app. cbn [map req_bubble].
    intros b H. apply in_app_or in H as [H|[<-|[]]]; [now left|right; lia].
  - rewrite sendMessage_blank by assumption. split; [lia|]. now left.
Qed.

Lemma click_owned (l : loc) (s : state) :
  next_id s <= next_id (click l s) /\
  forall b, In b (owned_bubbles (click l s)) ->
            In b (owned_bubbles s) \/ next_id s <= b.
Proof.
  revert l s.
  apply (click_ind
           (fun s s' => next_id s <= next_id s' /\
                        forall b, In b (owned_bubbles s') ->
                                  In b (owned_bubbles s) \/ next_id s <= b)).
  - intros s. split; [lia|]. now left.
  - intros s1 s2 s3 [N1 H1] [N2 H2]. split; [lia|].
    intros b H. apply H2 in H as [H|H]; [|right; lia].
    apply H1 in H as [H|H]; [now left|now right].
  - intros l s. destruct (copy_click_frame l s) as [_ [_ [N [F _]]]].
    rewrite N. unfold owned_bubbles. rewrite F. split; [lia|]. now left.
  - exact sendMessage_owned.
Qed.

Lemma step_owned (a : action) (s : state) (b : nat) :
  In b (owned_bubbles (step a s)) ->
  In b (owned_bubbles s) \/ next_id s <= b.
Proof.
  pose proof (proj2 (sendMessage_owned s) b) as Send.
  destruct a as [v| |key sh|m|i o|l|i ok|dt|i]; cbn [step].
  - now left.
  - exact Send.
  - unfold on_keydown.
    destruct (str_eqb key (lit "Enter") && negb sh); [exact Send|now left].
  - destruct (model_change_spec m s) as [F _]. cbn zeta in F. cbn [step] in F.
    unfold owned_bubbles. rewrite F. now left.
  - destruct (nth_error (in_flight s) i) as [r|]; [|now left].
    destruct (resume_frame r o (set_in_flight (remove_nth i (in_flight s)) s))
      as [_ [F _]]. cbn zeta in F. cbn [set_in_flight in_flight] in F.
    unfold owned_bubbles. rewrite F. intros H. left.
    apply in_map_iff in H as [x [<- Hx]]. apply in_map.
    now apply in_remove_nth in Hx.
  - apply (proj2 (click_owned l s)).
  - destruct (nth_error (clipboard_waiting s) i) as [l|]; [|now left].
    destruct (log_copy_settled l ok
                (set_clipboard_waiting (remove_nth i (clipboard_waiting s)) s))
      as [_ [_ [_ [F _]]]].
    unfold owned_bubbles. rewrite F. now left.
  - now left.
  - destruct (nth_error (timers s) i) as [t|]; [|now left].
    destruct (Z.leb (due t) (now s)); [|now left].
    destruct (log_set_label (target t) copy_label
                (set_timers (remove_nth i (timers s)) s)) as [_ [F _]].
    unfold owned_bubbles. rewrite F. now left.
Qed.

Lemma ids_ok_owned_fresh (s : state) :
  ids_ok s -> Forall (fun b => b < next_id s) (owned_bubbles s).
Proof.
  intros [_ [Hi Hf]]. rewrite Forall_forall in *.
  intros b Hb. apply Hf. now apply Hi.
Qed.

(** In every reachable state the placeholders of the calls in flight
    are nodes that exist. *)
Lemma reachable_owned_fresh (page0 : node) (children0 : list node)
    (model0 input0 : js_string) (acts : list action) :
  let s := run acts (init page0 children0 model0 input0) in
  Forall (fun b => b < next_id s) (owned_bubbles s).
Proof.
  cbn zeta. apply ids_ok_owned_fresh, run_invariant, init_invariant.
Qed.

Lemma removed_is_owned (a : action) (s : state) (b : nat) :
  removed_by a s = Some b -> In b (owned_bubbles s).
Proof.
  destruct a as [v| |key sh|m|i o|l|i ok|dt|i]; cbn [removed_by];
    try discriminate.
  destruct (nth_error (in_flight s) i) as [r|] eqn:E; [|discriminate].
  cbn [option_map]. intros H. inversion H. subst b.
  unfold owned_bubbles. apply in_map. now apply nth_error_In in E.
Qed.

Lemma persist_step (a : action) (s : state) (id : nat) :
  ids_ok s -> In id (entry_ids s) -> ~ In id (owned_bubbles s) ->
  In id (entry_ids (step a s)) /\ ~ In id (owned_bubbles (step a s)).
Proof.
  intros Hok Hin Hnot. pose proof (ids_ok_owned_fresh Hok) as Hown.
  destruct Hok as [_ [_ Hf]]. split.
  - destruct (@step_evolves a s Hown) as [k [E _]]. rewrite E.
    apply in_or_app. left.
    destruct (removed_by a s) as [b|] eqn:R; cbn [without]; [|exact Hin].
    apply filter_In. split; [exact Hin|].
    apply negb_true_iff, Nat.eqb_neq. intros ->.
    apply Hnot. now apply (removed_is_owned a).
  - intros H. apply step_owned in H as [H|H]; [contradiction|].
    rewrite Forall_forall in Hf. apply Hf in Hin. lia.
Qed.

Lemma persist_run (acts : list action) (s : state) (id : nat) :
  ids_ok s -> In id (entry_ids s) -> ~ In id (owned_bubbles s) ->
  In id (entry_ids (run acts s)).
Proof.
  revert s. induction acts as [|a acts IH]; intros s H Hin Hnot; [exact Hin|].
  cbn [run]. destruct (@persist_step a s id H Hin Hnot) as [Hin' Hnot'].
  apply IH; [now apply step_ids_ok|exact Hin'|exact Hnot'].
Qed.

(** X7: whatever is in the transcript of a reachable state, and is not
    the typing placeholder of a call in flight, stays in the transcript
    whatever happens next. *)
Theorem X7_entries_persist :
  forall (page0 : node) (children0 : list node) (model0 input0 : js_string)
         (before after : list action) (id : nat),
    let s := run before (init page0 children0 model0 input0) in
    In id (entry_ids s) ->
    ~ In id (owned_bubbles s) ->
    In id (entry_ids (run after s)).
Proof.
  intros page0 children0 model0 input0 before after id s Hin Hnot.
  apply persist_run; [|exact Hin|exact Hnot].
  apply (run_invariant before
           (init_invariant page0 children0 model0 input0)).
Qed.

(** ** A whole turn *)

Lemma filter_fresh (b : nat) (l : list entry) :
  Forall (fun i => i < b) (map entry_id l) ->
  filter (fun e => negb (Nat.eqb (entry_id e) b)) l = l.
Proof.
  induction l as [|e l IH]; [reflexivity|].
  cbn [map filter]. intros H. inversion H as [|x xs Hx Hxs]; subst.
  destruct (Nat.eqb_spec (entry_id e) b) as [E|E]; [lia|].
  cbn [negb]. now rewrite IH.
Qed.

(** X8: a send followed by the end of its backend call leaves the
    transcript with the user message and what the outcome calls for
    (the answer or the error message, preceded by the system note when
    there is one to show); the placeholder is gone, the input box is
    empty and the calls in flight are those there were.  The model used
    before is updated whenever the body was parsed and is not [null]:
    by an answer, and also by a body without a string [reply], although
    the transcript then shows the error message. *)
Theorem X8_turn_round_trip :
  forall (s : state) (o : outcome),
    truthy (trim (input_value s)) = true ->
    Forall (fun i => i < next_id s) (entry_ids s) ->
    let n := next_id s in
    let user := {| entry_id := n;
                   entry_node := user_node (trim (input_value s)) |} in
    let s2 := step (Respond (length (in_flight s)) o) (step ClickSend s) in
    chat s2 = map activate_entry
                (chat s ++ user :: answer_entries (S (S n)) o) /\
    in_flight s2 = in_flight s /\
    input_value s2 = [] /\
    select_value s2 = select_value s /\
    lastModelUsed s2 = match o with
                       | JsonReply _ _ | JsonNoReply _ _ => select_value s
                       | _ => lastModelUsed s
                       end.
Proof.
  intros s o T Hf. cbn zeta. cbn [step].
  destruct (sendMessage_spec s T) as [Hc [Hn [Hfl [Hl [Hs [Hi _]]]]]].
  cbn zeta in *.
  remember (sendMessage s) as s1 eqn:E1. clear E1.
  rewrite Hfl, nth_error_last, remove_nth_last.
  assert (Hb : req_bubble {| req_bubble := S (next_id s);
                             req_model := select_value s |} <>
               next_id (set_in_flight (in_flight s) s1)).
  { cbn [set_in_flight next_id req_bubble]. rewrite Hn. lia. }
  pose proof (@resume_spec _ o _ Hb) as Rc.
  destruct (resume_frame {| req_bubble := S (next_id s);
                            req_model := select_value s |} o
              (set_in_flight (in_flight s) s1))
    as [_ [Rf [Rl [Rs [Ri _]]]]].
  cbn zeta in *.
  cbn [set_in_flight chat next_id in_flight lastModelUsed select_value
       input_value req_bubble req_model] in Rc, Rf, Rl, Rs, Ri.
  rewrite Rc, Rf, Rl, Rs, Ri, Hc, Hn, Hl, Hs, Hi.
  repeat split. f_equal.
  rewrite filter_app. cbn [filter entry_id].
  rewrite Nat.eqb_refl. cbn [negb].
  destruct (Nat.eqb_spec (next_id s) (S (next_id s))) as [E|_]; [lia|].
  cbn [negb]. rewrite filter_fresh.
  - now rewrite <- app_assoc.
  - eapply Forall_impl; [|exact Hf]. simpl. lia.
Qed.

(** ** Who writes which variable *)

Lemma existsb_same (A : Type) (f g : A -> bool) (l : list A) :
  (forall x, f x = g x) -> existsb f l = existsb g l.
Proof.
  intros H. induction l as [|x l IH]; [reflexivity|].
  cbn [existsb]. now rewrite H, IH.
Qed.

(** The handlers that a click runs leave the two models alone, and
    empty the input box when one of them is a send that is not
    blank. *)
Lemma bubble_vars (ls : list loc) (s : state) :
  let s' := fold_left (fun st l' => run_handler l' st) ls s in
  lastModelUsed s' = lastModelUsed s /\
  select_value s' = select_value s /\
  input_value s' =
    if existsb (fun l' => sends_on_click l' s) ls &&
       truthy (trim (input_value s))
    then [] else input_value s.
Proof.
  cbn zeta. revert s. induction ls as [|l ls IH]; intros s.
  - now repeat split.
  - cbn [fold_left existsb].
    assert (E : run_handler l s =
                match handler_at l s with
                | Some CopyHandler => copy_click l s
                | Some SendHandler => sendMessage s
                | None => s
                end) by reflexivity.
    rewrite E. clear E. unfold sends_on_click at 1.
    destruct (handler_at l s) as [[]|] eqn:H.
    + destruct (copy_click_frame l s) as [P [C [_ [_ V]]]].
      destruct (IH (copy_click l s)) as [Hl [Hs Hi]].
      unfold vars in V. injection V as Vl Vs Vi.
      rewrite Hl, Hs, Hi, Vl, Vs, Vi. cbn [orb].
      rewrite (@existsb_same _ (fun l' => sends_on_click l' (copy_click l s))
                 (fun l' => sends_on_click l' s)); [now repeat split|].
      intros l'. unfold sends_on_click.
      now rewrite (@handler_at_frame l' s (copy_click l s) P C).
    + cbn [orb andb]. destruct (truthy (trim (input_value s))) eqn:T.
      * destruct (sendMessage_spec s T) as [_ [_ [_ [Vl [Vs [Vi _]]]]]].
        cbn zeta in *.
        destruct (IH (sendMessage s)) as [Hl [Hs Hi]].
        rewrite Hl, Hs, Hi, Vl, Vs, Vi.
        change (truthy (trim [])) with false. rewrite andb_false_r.
        now repeat split.
      * rewrite sendMessage_blank by assumption.
        destruct (IH s) as [Hl [Hs Hi]]. rewrite Hl, Hs, Hi, T, andb_false_r.
        now repeat split.
    + cbn [orb]. apply IH.
Qed.

Lemma click_vars (l : loc) (s : state) :
  lastModelUsed (click l s) = lastModelUsed s /\
  select_value (click l s) = select_value s /\
  input_value (click l s) =
    if reaches_send l s && truthy (trim (input_value s))
    then [] else input_value s.
Proof.
  unfold click, reaches_send. destruct (lookup l s); [|now repeat split].
  apply bubble_vars.
Qed.

Lemma set_label_vars (l : loc) (text : js_string) (s : state) :
  vars (set_label l text s) = vars s.
Proof. destruct l; reflexivity. Qed.

Lemma copy_settled_vars (l : loc) (ok : bool) (s : state) :
  vars (copy_settled l ok s) = vars s.
Proof.
  unfold copy_settled. destruct ok.
  - change (vars (setTimeout 1000 l (set_label l copied_label s)))
      with (vars (set_label l copied_label s)). apply set_label_vars.
  - change (vars (setTimeout 1200 l (set_label l failed_label s)))
      with (vars (set_label l failed_label s)). apply set_label_vars.
Qed.

(** X9: of the three variables that the handlers share, the model used
    before is written only when a backend call ends with a parsed body
    that is not [null], an answer or a body without a string [reply]
    (and becomes the model read when that message was sent); the
    selected model is written by the selector only; and the input box
    by the user and by a send that is not blank, whether it comes from
    the send button, from the Enter key or from a click that reaches
    the send button.  In particular the end of a backend call, a copy
    click and a timer never touch what the user is typing. *)
Theorem X9_who_writes_what :
  forall (a : action) (s : state),
    lastModelUsed (step a s) =
      match a with
      | Respond i (JsonReply _ _) | Respond i (JsonNoReply _ _) =>
          match nth_error (in_flight s) i with
          | Some r => req_model r
          | None => lastModelUsed s
          end
      | _ => lastModelUsed s
      end /\
    select_value (step a s) =
      match a with
      | ChangeModel m => m
      | _ => select_value s
      end /\
    input_value (step a s) =
      match a with
      | Input v => v
      | ClickSend =>
          if truthy (trim (input_value s)) then [] else input_value s
      | Keydown key shiftKey =>
          if str_eqb key (lit "Enter") && negb shiftKey &&
             truthy (trim (input_value s))
          then [] else input_value s
      | ClickOn l =>
          if reaches_send l s && truthy (trim (input_value s))
          then [] else input_value s
      | _ => input_value s
      end.
Proof.
  intros a s.
  assert (Send : lastModelUsed (sendMessage s) = lastModelUsed s /\
                 select_value (sendMessage s) = select_value s /\
                 input_value (sendMessage s) =
                 if truthy (trim (input_value s)) then [] else input_value s).
  { destruct (truthy (trim (input_value s))) eqn:T.
    - destruct (sendMessage_spec s T) as [_ [_ [_ [Hl [Hs [Hi _]]]]]].
      now repeat split.
    - rewrite sendMessage_blank by assumption. now repeat split. }
  assert (V : forall s', vars s' = vars s ->
              lastModelUsed s' = lastModelUsed s /\
              select_value s' = select_value s /\
              input_value s' = input_value s).
  { unfold vars. intros s' H. inversion H. now repeat split. }
  destruct a as [v| |key sh|m|i o|l|i ok|dt|i]; cbn [step].
  - now repeat split.
  - exact Send.
  - unfold on_keydown.
    destruct (str_eqb key (lit "Enter") && negb sh); cbn [andb];
      [exact Send|now repeat split].
  - destruct (model_change_spec m s) as [_ [Hl [Hs Hi]]].
    cbn zeta in *. cbn [step] in *. now repeat split.
  - destruct (nth_error (in_flight s) i) as [r|].
    + destruct (resume_frame r o
                  (set_in_flight (remove_nth i (in_flight s)) s))
        as [_ [_ [Hl [Hs [Hi _]]]]].
      cbn zeta in *. rewrite Hl, Hs, Hi.
      destruct o; now repeat split.
    + destruct o; now repeat split.
  - apply click_vars.
  - destruct (nth_error (clipboard_waiting s) i) as [l|]; [|now repeat split].
    apply V. now rewrite copy_settled_vars.
  - now repeat split.
  - destruct (nth_error (timers s) i) as [t|]; [|now repeat split].
    destruct (Z.leb (due t) (now s)); [|now repeat split].
    apply V. now rewrite set_label_vars.
Qed.

(** ** Changing the model while a call is pending *)

Lemma send_posts (s : state) :
  truthy (trim (input_value s)) = true ->
  exists before,
    log (sendMessage s) =
    before ++ [EvFetch chat_url
                 {| message := trim (input_value s);
                    model := select_value s;
                    prev_model := lastModelUsed s |}].
Proof.
  intros T. unfold sendMessage. rewrite T. cbn [negb]. run_script.
  eexists. reflexivity.
Qed.

(** X10: a call remembers the model that was selected when its message
    was sent.  When the selector is changed to [B] while the call is
    pending and the backend then answers, the model used before becomes
    the model of the call, not [B]; and the next message is posted with
    model [B] and that previous model. *)
Theorem X10_model_captured_at_send :
  forall (s : state) (B : js_string) (status : Z) (data : response),
    truthy (trim (input_value s)) = true ->
    let s3 := step (Respond (length (in_flight s)) (JsonReply status data))
                (step (ChangeModel B) (step ClickSend s)) in
    lastModelUsed s3 = select_value s /\
    select_value s3 = B /\
    in_flight s3 = in_flight s /\
    forall v : js_string,
      truthy (trim v) = true ->
      exists before,
        log (step ClickSend (step (Input v) s3)) =
        before ++ [EvFetch chat_url
                     {| message := trim v; model := B;
                        prev_model := select_value s |}].
Proof.
  intros s B status data T. cbn zeta.
  destruct (sendMessage_spec s T) as [_ [_ [Hfl [_ [Hs _]]]]].
  cbn zeta in *. change (step ClickSend s) with (sendMessage s).
  remember (sendMessage s) as s1 eqn:E1. clear E1.
  destruct (model_change_spec B s1) as [Mf [_ [Ms _]]]. cbn zeta in *.
  remember (step (ChangeModel B) s1) as s2 eqn:E2. clear E2.
  assert (R : lastModelUsed
                (step (Respond (length (in_flight s))
                         (JsonReply status data)) s2) = select_value s /\
              select_value
                (step (Respond (length (in_flight s))
                         (JsonReply status data)) s2) = B /\
              in_flight
                (step (Respond (length (in_flight s))
                         (JsonReply status data)) s2) = in_flight s).
  { cbn [step]. rewrite Mf, Hfl, nth_error_last, remove_nth_last.
    destruct (resume_frame {| req_bubble := S (next_id s);
                              req_model := select_value s |}
                (JsonReply status data) (set_in_flight (in_flight s) s2))
      as [_ [Rf [Rl [Rs _]]]].
    cbn zeta in *. rewrite Rf, Rl, Rs. cbn [set_in_flight in_flight
      select_value req_model]. now rewrite Ms. }
  destruct R as [Rl [Rs Rf]].
  remember (step (Respond (length (in_flight s)) (JsonReply status data)) s2)
    as s3 eqn:E3. clear E3.
  split; [exact Rl|]. split; [exact Rs|]. split; [exact Rf|].
  intros v Tv. cbn [step].
  destruct (send_posts (set_input_value v s3) Tv) as [before L].
  exists before. rewrite L.
  cbn [set_input_value input_value select_value lastModelUsed].
  now rewrite Rl, Rs.
Qed.

(** ** The order of operations *)

Lemma advance_all_app (m : mode) (l1 l2 : list event) :
  advance_all m (l1 ++ l2) =
  match advance_all m l1 with
  | Some m' => advance_all m' l2
  | None => None
  end.
Proof.
  revert m. induction l1 as [|e l1 IH]; intros m; [reflexivity|].
  cbn [app advance_all]. destruct (advance m e); [apply IH|reflexivity].
Qed.

Lemma well_ordered_app (l1 l2 : list event) :
  well_ordered l1 -> well_ordered l2 -> well_ordered (l1 ++ l2).
Proof.
  unfold well_ordered. intros H1 H2. now rewrite advance_all_app, H1.
Qed.

Lemma ai_entry_plain (n : nat) (text : js_string) :
  is_system_entry {| entry_id := n; entry_node := ai_node text |} = false.
Proof. reflexivity. Qed.

Lemma note_entry_system (n : nat) (text : js_string) (b : bool) :
  is_system_entry {| entry_id := n; entry_node := system_node text b |} = true.
Proof. reflexivity. Qed.

Lemma user_entry_plain (n : nat) (text : js_string) :
  is_system_entry {| entry_id := n; entry_node := user_node text |} = false.
Proof. reflexivity. Qed.

Lemma typing_entry_plain (n : nat) :
  is_system_entry {| entry_id := n; entry_node := typing_node |} = false.
Proof. reflexivity. Qed.

Lemma trace_addAIMessage (text : js_string) (s : state) :
  exists evs, log (addAIMessage text s) = log s ++ evs /\ well_ordered evs.
Proof.
  destruct (log_addAIMessage text s) as [L _]. eexists. split; [exact L|].
  unfold well_ordered. cbn [advance_all advance].
  now rewrite ai_entry_plain.
Qed.

Lemma trace_catch (r : request) (e : js_error) (s : state) :
  exists evs, log (sendMessage_catch r e s) = log s ++ evs /\ well_ordered evs.
Proof.
  destruct (log_catch r e s) as [L _]. eexists. split; [exact L|].
  unfold well_ordered. cbn [advance_all advance].
  now rewrite ai_entry_plain.
Qed.

Lemma trace_resume (r : request) (o : outcome) (s : state) :
  exists evs, log (sendMessage_resume r o s) = log s ++ evs /\ well_ordered evs.
Proof.
  destruct o as [|st|st|st [rep [note|]]|st [note|]];
    try destruct (truthy note) eqn:T; run_script; rewrite ?T; run_script;
    (eexists; split; [flatten_log; reflexivity|]);
    unfold well_ordered;
    repeat (cbn [advance_all advance];
            rewrite ?note_entry_system, ?ai_entry_plain);
    reflexivity.
Qed.

Lemma trace_sendMessage (s : state) :
  exists evs, log (sendMessage s) = log s ++ evs /\ well_ordered evs.
Proof.
  unfold sendMessage. destruct (truthy (trim (input_value s))); cbn [negb].
  - run_script. eexists. split; [now flatten_log|].
    unfold well_ordered. cbn [advance_all advance].
    rewrite user_entry_plain. cbn [advance_all advance].
    now rewrite typing_entry_plain.
  - exists []. now rewrite app_nil_r.
Qed.

Lemma trace_step (a : action) (s : state) :
  exists evs, log (step a s) = log s ++ evs /\ well_ordered evs.
Proof.
  assert (Same : exists evs, log s = log s ++ evs /\ well_ordered evs)
    by (exists []; now rewrite app_nil_r).
  destruct a as [v| |key sh|m|i o|l|i ok|dt|i]; cbn [step].
  - exact Same.
  - apply trace_sendMessage.
  - unfold on_keydown.
    destruct (str_eqb key (lit "Enter") && negb sh);
      [apply trace_sendMessage|exact Same].
  - run_script. eexists. split; [now flatten_log|].
    unfold well_ordered. cbn [advance_all advance].
    now rewrite note_entry_system.
  - destruct (nth_error (in_flight s) i) as [r|]; [|exact Same].
    apply (trace_resume r o (set_in_flight (remove_nth i (in_flight s)) s)).
  - clear Same. revert l s.
    apply (click_ind
             (fun s s' => exists evs,
                  log s' = log s ++ evs /\ well_ordered evs)).
    + intros s. exists []. now rewrite app_nil_r.
    + intros s1 s2 s3 [e1 [L1 W1]] [e2 [L2 W2]]. exists (e1 ++ e2).
      rewrite L2, L1, app_assoc. split; [reflexivity|].
      now apply well_ordered_app.
    + intros l s. unfold copy_click.
      destruct (parent_of l s) as [parent|];
        [destruct (querySelector_code parent) as [codeEl|]|];
        try (exists []; now rewrite app_nil_r).
      eexists. split; reflexivity.
    + exact trace_sendMessage.
  - destruct (nth_error (clipboard_waiting s) i) as [l|]; [|exact Same].
    unfold copy_settled.
    destruct ok.
    + destruct (log_set_label l copied_label
                  (set_clipboard_waiting
                     (remove_nth i (clipboard_waiting s)) s)) as [L _].
      unfold setTimeout. cbn [emit set_timers log]. rewrite L.
      cbn [set_clipboard_waiting log]. rewrite <- app_assoc.
      eexists. split; reflexivity.
    + destruct (log_set_label l failed_label
                  (set_clipboard_waiting
                     (remove_nth i (clipboard_waiting s)) s)) as [L _].
      unfold setTimeout. cbn [emit set_timers log]. rewrite L.
      cbn [set_clipboard_waiting log]. rewrite <- app_assoc.
      eexists. split; reflexivity.
  - exact Same.
  - destruct (nth_error (timers s) i) as [t|]; [|exact Same].
    destruct (Z.leb (due t) (now s)); [|exact Same].
    destruct (log_set_label (target t) copy_label
                (set_timers (remove_nth i (timers s)) s)) as [L _].
    rewrite L. eexists. split; reflexivity.
Qed.

Lemma trace_run (acts : list action) (s : state) :
  well_ordered (log s) -> well_ordered (log (run acts s)).
Proof.
  revert s. induction acts as [|a acts IH]; intros s H; [exact H|].
  cbn [run]. apply IH. destruct (trace_step a s) as [evs [L W]].
  rewrite L. now apply well_ordered_app.
Qed.

Lemma trace_init (page0 : node) (children0 : list node)
    (model0 input0 : js_string) :
  well_ordered (log (init page0 children0 model0 input0)).
Proof.
  unfold init.
  match goal with
  | |- context [addAIMessage ?t ?s0] =>
      destruct (trace_addAIMessage t s0) as [evs [L W]]
  end.
  rewrite L. exact W.
Qed.

Lemma after_append (l1 l2 : list event) (e : entry) :
  well_ordered (l1 ++ EvAppendChild e :: l2) ->
  exists l3, l2 = EvScroll :: l3 \/
             l2 = EvActivateCopyButtons :: EvScroll :: l3.
Proof.
  unfold well_ordered. rewrite advance_all_app.
  destruct (advance_all Idle l1) as [m|]; [|discriminate].
  cbn [advance_all].
  destruct m; cbn [advance]; try discriminate;
    destruct (is_system_entry e); try discriminate;
    (destruct l2 as [|e2 l2]; [discriminate|]);
    cbn [advance_all];
    destruct e2; cbn [advance]; try discriminate.
  - intros _. exists l2. now left.
  - destruct l2 as [|e3 l2]; [discriminate|].
    cbn [advance_all]. destruct e3; cbn [advance]; try discriminate.
    intros _. exists l2. now right.
  - intros _. exists l2. now left.
Qed.

Lemma after_sound (l1 l2 : list event) :
  well_ordered (l1 ++ EvPlayClick :: l2) ->
  exists e l3, l2 = EvAppendChild e :: EvScroll :: l3 /\
               is_system_entry e = true.
Proof.
  unfold well_ordered. rewrite advance_all_app.
  destruct (advance_all Idle l1) as [m|]; [|discriminate].
  cbn [advance_all].
  destruct m; cbn [advance]; try discriminate.
  destruct l2 as [|e2 l2]; [discriminate|].
  cbn [advance_all]. destruct e2 as [x| | | | | | | | | | |];
    cbn [advance]; try discriminate.
  destruct (is_system_entry x) eqn:S; [|discriminate].
  destruct l2 as [|e3 l2]; [discriminate|].
  cbn [advance_all]. destruct e3; cbn [advance]; try discriminate.
  intros _. exists x, l2. now split.
Qed.

Lemma played_last (m : mode) (l : list event) :
  advance_all m l = Some Played ->
  (l = [] /\ m = Played) \/ exists l0, l = l0 ++ [EvPlayClick].
Proof.
  induction l as [|x l IH] using rev_ind; intros H.
  - left. split; [reflexivity|]. now inversion H.
  - right. rewrite advance_all_app in H.
    destruct (advance_all m l) as [m'|]; [|discriminate].
    cbn [advance_all] in H.
    destruct m', x; cbn [advance] in H; try discriminate;
      try (destruct (is_system_entry e); discriminate).
    now exists l.
Qed.

Lemma before_note (l1 l2 : list event) (e : entry) :
  well_ordered (l1 ++ EvAppendChild e :: l2) ->
  is_system_entry e = true ->
  exists l0, l1 = l0 ++ [EvPlayClick].
Proof.
  unfold well_ordered. rewrite advance_all_app. intros H S.
  destruct (advance_all Idle l1) as [m|] eqn:A; [|discriminate].
  cbn [advance_all] in H.
  destruct m; cbn [advance] in H; rewrite ?S in H; try discriminate.
  apply played_last in A as [[_ A]|A]; [discriminate|exact A].
Qed.

(** X11: the order of the operations in every reachable trace.  Each
    append to the transcript is followed at once by the scroll to the
    bottom, with nothing but the run of the binder in between; each
    sound is followed at once by the append of a system note; and a
    system note is appended only right after a sound. *)
Theorem X11_trace_order :
  forall (page0 : node) (children0 : list node) (model0 input0 : js_string)
         (acts : list action),
    let tr := log (run acts (init page0 children0 model0 input0)) in
    (forall l1 e l2,
        tr = l1 ++ EvAppendChild e :: l2 ->
        exists l3, l2 = EvScroll :: l3 \/
                   l2 = EvActivateCopyButtons :: EvScroll :: l3) /\
    (forall l1 l2,
        tr = l1 ++ EvPlayClick :: l2 ->
        exists e l3, l2 = EvAppendChild e :: EvScroll :: l3 /\
                     is_system_entry e = true) /\
    (forall l1 e l2,
        tr = l1 ++ EvAppendChild e :: l2 ->
        is_system_entry e = true ->
        exists l0, l1 = l0 ++ [EvPlayClick]).
Proof.
  intros page0 children0 model0 input0 acts tr.
  assert (W : well_ordered tr)
    by apply (@trace_run acts _ (trace_init page0 children0 model0 input0)).
  repeat split.
  - intros l1 e l2 E. rewrite E in W. now apply after_append in W.
  - intros l1 l2 E. rewrite E in W. now apply after_sound in W.
  - intros l1 e l2 E S. rewrite E in W. now apply (@before_note l1 l2 e).
Qed.

(** ** Clicks *)

Lemma find_entry_app (id : nat) (l l' : list entry) (e : entry) :
  find_entry id l = Some e -> find_entry id (l ++ l') = Some e.
Proof.
  induction l as [|x l IH]; cbn [find_entry app]; [discriminate|].
  destruct (Nat.eqb (entry_id x) id); [trivial|exact IH].
Qed.

(** The nodes that a click goes through are in the document. *)
Lemma bubble_rooted (l l' : loc) (s : state) :
  lookup l s <> None -> In l' (l :: ancestors l) -> rooted l' s.
Proof.
  intros Hl Hin.
  assert (R : rooted l s).
  { destruct l as [p|id p]; [exact I|]. cbn [rooted]. cbn [lookup] in Hl.
    now destruct (find_entry id (chat s)). }
  destruct Hin as [<-|Hin]; [exact R|].
  destruct l as [p|id p]; cbn [ancestors] in Hin.
  - apply in_map_iff in Hin as [q [<- _]]. exact I.
  - apply in_app_or in Hin as [Hin|Hin];
      apply in_map_iff in Hin as [q [<- _]]; [exact R|exact I].
Qed.

(** A send does not change the handler of a node of the document. *)
Lemma handler_at_sendMessage (l : loc) (s : state) :
  rooted l s -> handler_at l (sendMessage s) = handler_at l s.
Proof.
  intros R. destruct (truthy (trim (input_value s))) eqn:T;
    [|now rewrite sendMessage_blank].
  destruct (sendMessage_spec s T) as [C [_ [_ [_ [_ [_ P]]]]]]. cbn zeta in *.
  unfold handler_at. destruct l as [p|id p]; cbn [lookup].
  - now rewrite P.
  - cbn [rooted] in R.
    destruct (find_entry id (chat s)) as [e|] eqn:E; [|contradiction].
    now rewrite C, (@find_entry_app id (chat s) _ e E).
Qed.

Lemma handler_at_run_handler (h l : loc) (s : state) :
  rooted l s -> handler_at l (run_handler h s) = handler_at l s.
Proof.
  intros R. unfold run_handler. destruct (handler_at h s) as [[]|].
  - destruct (copy_click_frame h s) as [P [C _]].
    now apply handler_at_frame.
  - now apply handler_at_sendMessage.
  - reflexivity.
Qed.

(** X12: a click bubbles.  When one element on the way from the node
    clicked up to the root of the document carries a click handler and
    no other does, the click runs that handler once, as if the element
    itself had been clicked: a click on anything inside a bound copy
    button is a copy click on that button, and a click on anything
    inside the send button is a send.  When nothing on the way carries
    a handler, the click does nothing at all. *)
Theorem X12_click_effects :
  forall (l h : loc) (before after : list loc) (s : state),
    lookup l s <> None ->
    l :: ancestors l = before ++ h :: after ->
    Forall (fun l' => handler_at l' s = None) (before ++ after) ->
    step (ClickOn l) s = run_handler h s /\
    (handler_at h s = Some CopyHandler ->
     step (ClickOn l) s = copy_click h s) /\
    (handler_at h s = Some SendHandler ->
     step (ClickOn l) s = step ClickSend s) /\
    (handler_at h s = None -> step (ClickOn l) s = s).
Proof.
  intros l h before after s Hl Hpath Hno.
  apply Forall_app in Hno as [Hb Ha].
  assert (E : step (ClickOn l) s = run_handler h s).
  { cbn [step]. unfold click.
    destruct (lookup l s) as [n|] eqn:L; [|contradiction].
    rewrite Hpath, fold_left_app, (@bubble_no_handler before s Hb). cbn [fold_left].
    apply bubble_no_handler. rewrite Forall_forall in *.
    intros l' Hin. rewrite handler_at_run_handler; [now apply Ha|].
    apply (@bubble_rooted l l' s); [now rewrite L|].
    rewrite Hpath. apply in_or_app. right. now right. }
  split; [exact E|]. rewrite E. unfold run_handler.
  repeat split; intros H; now rewrite H.
Qed.

(** ** The binder after an answer *)

Lemma doc_buttons_append (n : node) (s : state) :
  doc_buttons (snd (appendChild n s)) = doc_buttons s ++ copy_buttons n.
Proof.
  unfold doc_buttons.
  cbn [appendChild snd emit set_next_id set_chat page chat].
  rewrite flat_map_app. cbn [flat_map entry_node].
  now rewrite app_nil_r, app_assoc.
Qed.

Lemma doc_buttons_emit (e : event) (s : state) :
  doc_buttons (emit e s) = doc_buttons s.
Proof. reflexivity. Qed.

Lemma doc_buttons_addAIMessage (text : js_string) (s : state) :
  doc_buttons (addAIMessage text s) =
  map bind_button (doc_buttons s ++ copy_buttons (ai_node text)).
Proof.
  unfold addAIMessage, scrollToBottom.
  now rewrite doc_buttons_emit, doc_buttons_activate, doc_buttons_append.
Qed.

Lemma doc_buttons_all_bound (l : list attrs) :
  Forall (fun b => truthy_opt (data_bound b) = true) (map bind_button l).
Proof.
  induction l as [|b l IH]; constructor; [apply bind_button_bound|exact IH].
Qed.

(** X13: [addAIMessage] runs the binder over the whole document: the
    copy buttons of the new entry and those that were there before,
    wherever they came from, go through the binder in document order.
    So once a backend call has ended, whatever its outcome, every copy
    button of the document carries the marker. *)
Theorem X13_answer_binds_every_button :
  forall (text : js_string) (s : state),
    doc_buttons (addAIMessage text s) =
      map bind_button (doc_buttons s ++ copy_buttons (ai_node text)) /\
    forall (r : request) (o : outcome),
      Forall (fun b => truthy_opt (data_bound b) = true)
             (doc_buttons (sendMessage_resume r o s)).
Proof.
  intros text s. split; [apply doc_buttons_addAIMessage|].
  intros r o.
  destruct o as [|st|st|st data|st note]; cbn [sendMessage_resume];
    unfold sendMessage_catch; cbn zeta;
    rewrite ?doc_buttons_emit, doc_buttons_addAIMessage;
    apply doc_buttons_all_bound.
Qed.


(** ** One assistant entry for each call *)

Lemma step_renders (a : action) (s : state) :
  exists evs,
    log (step a s) = log s ++ evs /\
    count_events is_binder_run evs = resumes a s.
Proof.
  assert (Same : exists evs,
             log s = log s ++ evs /\ count_events is_binder_run evs = 0)
    by (exists []; now rewrite app_nil_r).
  assert (Send : forall s0, exists evs,
             log (sendMessage s0) = log s0 ++ evs /\
             count_events is_binder_run evs = 0).
  { intros s0. unfold sendMessage.
    destruct (truthy (trim (input_value s0))); cbn [negb].
    - run_script. eexists. split; [now flatten_log|reflexivity].
    - exists []. now rewrite app_nil_r. }
  destruct a as [v| |key sh|m|i o|l|i ok|dt|i]; cbn [step resumes].
  - exact Same.
  - apply Send.
  - unfold on_keydown.
    destruct (str_eqb key (lit "Enter") && negb sh); [apply Send|exact Same].
  - run_script. eexists. split; [now flatten_log|reflexivity].
  - destruct (nth_error (in_flight s) i) as [r|]; [|exact Same].
    change (log s)
      with (log (set_in_flight (remove_nth i (in_flight s)) s)).
    remember (set_in_flight (remove_nth i (in_flight s)) s) as s1 eqn:E.
    clear E.
    destruct o as [|st|st|st [rep [note|]]|st [note|]];
      try destruct (truthy note) eqn:T; run_script; rewrite ?T; run_script;
      (eexists; split; [flatten_log; reflexivity|reflexivity]).
  - clear Same. revert l s.
    apply (click_ind
             (fun s s' => exists evs,
                  log s' = log s ++ evs /\
                  count_events is_binder_run evs = 0)).
    + intros s. exists []. now rewrite app_nil_r.
    + intros s1 s2 s3 [e1 [L1 W1]] [e2 [L2 W2]]. exists (e1 ++ e2).
      rewrite L2, L1, app_assoc, count_events_app, W1, W2. now split.
    + intros l s. unfold copy_click.
      destruct (parent_of l s) as [parent|];
        [destruct (querySelector_code parent) as [codeEl|]|];
        try (exists []; now rewrite app_nil_r).
      eexists. split; reflexivity.
    + exact Send.
  - destruct (nth_error (clipboard_waiting s) i) as [l|]; [|exact Same].
    unfold copy_settled.
    destruct ok.
    + destruct (log_set_label l copied_label
                  (set_clipboard_waiting
                     (remove_nth i (clipboard_waiting s)) s)) as [L _].
      unfold setTimeout. cbn [emit set_timers log]. rewrite L.
      cbn [set_clipboard_waiting log]. rewrite <- app_assoc.
      eexists. split; reflexivity.
    + destruct (log_set_label l failed_label
                  (set_clipboard_waiting
                     (remove_nth i (clipboard_waiting s)) s)) as [L _].
      unfold setTimeout. cbn [emit set_timers log]. rewrite L.
      cbn [set_clipboard_waiting log]. rewrite <- app_assoc.
      eexists. split; reflexivity.
  - exact Same.
  - destruct (nth_error (timers s) i) as [t|]; [|exact Same].
    destruct (Z.leb (due t) (now s)); [|exact Same].
    destruct (log_set_label (target t) copy_label
                (set_timers (remove_nth i (timers s)) s)) as [L _].
    rewrite L. eexists. split; reflexivity.
Qed.

Lemma run_renders (acts : list action) (s : state) :
  count_events is_binder_run (log (run acts s)) =
  count_events is_binder_run (log s) + resumed_calls acts s.
Proof.
  revert s. induction acts as [|a acts IH]; intros s;
    cbn [run resumed_calls]; [lia|].
  rewrite IH. destruct (step_renders a s) as [evs [L C]].
  rewrite L, count_events_app, C. lia.
Qed.

Lemma init_renders (page0 : node) (children0 : list node)
    (model0 input0 : js_string) :
  count_events is_binder_run (log (init page0 children0 model0 input0)) = 1.
Proof.
  unfold init.
  match goal with
  | |- context [addAIMessage ?t ?s0] =>
      destruct (log_addAIMessage t s0) as [L _]
  end.
  rewrite L. reflexivity.
Qed.

(** X14: every backend call that ends gets exactly one assistant entry,
    the answer or the error message, whatever its outcome, and nothing
    else renders one but the welcome.  In every reachable trace the
    assistant entries rendered, each with its run of the binder, are
    the welcome and one for each call resumed; so the calls in flight
    are the calls issued that have not got theirs yet. *)
Theorem X14_one_answer_per_call :
  forall (page0 : node) (children0 : list node) (model0 input0 : js_string)
         (acts : list action),
    let s0 := init page0 children0 model0 input0 in
    let s := run acts s0 in
    count_events is_binder_run (log s) = 1 + resumed_calls acts s0 /\
    length (in_flight s) + count_events is_binder_run (log s) =
      count_events is_fetch (log s) + 1 /\
    forall (r : request) (o : outcome) (s1 : state),
      exists evs,
        log (sendMessage_resume r o s1) = log s1 ++ evs /\
        count_events is_binder_run evs = 1.
Proof.
  intros page0 children0 model0 input0 acts s0 s.
  pose proof (run_renders acts s0) as R.
  pose proof (run_accounting acts s0) as A.
  unfold s0 in R, A.
  rewrite init_renders in R.
  destruct (init_no_call page0 children0 model0 input0) as [F0 L0].
  rewrite F0, L0 in A. cbn [length] in A.
  fold s0 in R, A. fold s in R, A.
  split; [exact R|]. split; [lia|].
  intros r o s1.
  destruct o as [|st|st|st [rep [note|]]|st [note|]];
    try destruct (truthy note) eqn:T; run_script; rewrite ?T; run_script;
    (eexists; split; [flatten_log; reflexivity|reflexivity]).
Qed.

End Widget.

(* ================================================================== *)
(** * The properties on the sample environment *)
(* ================================================================== *)

Lemma C5_code_blocks_wrapped_witness :
  forallb block_ok sample_blocks = true /\
  plain_chunk [LF] = true /\
  wrap_code_blocks (converter_output sample_blocks [LF]) =
    wrapped_output sample_blocks [LF] /\
  sample_commonmark print1_reply =
    (lit "<p>Run:</p>" ++ [LF]) ++
    fence_html (print1_fence (Some (lit "python"))) ++ [LF] /\
  plain_chunk (lit "<p>Run:</p>" ++ [LF]) = true /\
  fence_ok (print1_fence (Some (lit "python"))) = true /\
  ai_node sample_commonmark sample_parse_html print1_reply =
    Elem (new_element (lit "div") msg_ai)
         [Text ((lit "<p>Run:</p>" ++ [LF]) ++
                code_wrapper print1_line ++ [LF])].
Proof.
  assert (H1 : forallb block_ok sample_blocks = true)
    by (vm_compute; reflexivity).
  assert (H2 : plain_chunk [LF] = true) by (vm_compute; reflexivity).
  assert (H3 : sample_commonmark print1_reply =
               (lit "<p>Run:</p>" ++ [LF]) ++
               fence_html (print1_fence (Some (lit "python"))) ++ [LF])
    by (vm_compute; reflexivity).
  assert (H4 : plain_chunk (lit "<p>Run:</p>" ++ [LF]) = true)
    by (vm_compute; reflexivity).
  assert (H5 : fence_ok (print1_fence (Some (lit "python"))) = true)
    by (vm_compute; reflexivity).
  destruct (@C5_code_blocks_wrapped sample_commonmark sample_parse_html)
    as (W & _ & P).
  destruct (P print1_reply _ _ _ H3 H4 H2 H5) as (_ & A & _).
  exact (conj H1 (conj H2 (conj (W sample_blocks [LF] H1 H2)
           (conj H3 (conj H4 (conj H5 A)))))).
Defined.

(** A reply with one fenced code block of content print(1), rendered as
    CommonMark renders it: the entry holds one copy control and one
    code element, and the text of that element is print(1) followed by
    a line feed, not print(1). *)
Lemma C5_fenced_print1_counterexample :
  let html := wrap_code_blocks (sample_commonmark print1_reply) in
  ai_node sample_commonmark sample_parse_html print1_reply =
    Elem (new_element (lit "div") msg_ai) [Text html] /\
  count_occurrences copy_button_html html = 1 /\
  count_occurrences (lit "<code") html = 1 /\
  includes (lit "<code>" ++ print1 ++ [LF] ++ lit "</code>") html = true /\
  includes (lit "<code>" ++ print1 ++ lit "</code>") html = false.
Proof. vm_compute. repeat split. Qed.

Lemma C3_send_non_blank_witness :
  let s := step sample_marked sample_parse_html sample_container (Input (lit "  hello "))
             (init sample_marked sample_parse_html sample_send sample_page []
                   sample_model []) in
  truthy (trim (input_value s)) = true /\
  input_value (sendMessage sample_parse_html s) = [] /\
  in_flight (sendMessage sample_parse_html s) =
    [{| req_bubble := 2; req_model := sample_model |}].
Proof.
  cbv zeta. split; [reflexivity|].
  destruct (@C3_send_non_blank sample_marked sample_parse_html
              sample_container
              (step sample_marked sample_parse_html sample_container (Input (lit "  hello "))
                 (init sample_marked sample_parse_html sample_send sample_page []
                       sample_model []))
              eq_refl) as (_ & _ & _ & _ & Hi & Hf & _).
  split; [exact Hi|exact Hf].
Defined.

Lemma C4_blank_input_ignored_witness :
  let s := step sample_marked sample_parse_html sample_container (Input (lit "   "))
             (init sample_marked sample_parse_html sample_send sample_page []
                   sample_model []) in
  forallb is_trimmed_char (input_value s) = true /\
  step sample_marked sample_parse_html sample_container ClickSend s = s.
Proof.
  cbv zeta. split; [reflexivity|].
  apply (@C4_blank_input_ignored sample_marked sample_parse_html
           sample_container
           (step sample_marked sample_parse_html sample_container (Input (lit "   "))
              (init sample_marked sample_parse_html sample_send sample_page []
                    sample_model []))
           eq_refl).
Defined.

Lemma C2_failure_path_witness :
  let s := run sample_marked sample_parse_html sample_container one_send
             (init sample_marked sample_parse_html sample_send sample_page []
                   sample_model []) in
  let r := {| req_bubble := 2; req_model := sample_model |} in
  (NetworkError = NetworkError \/ exists status, NetworkError = NotJson status)
  /\ lastModelUsed
       (sendMessage_resume sample_marked sample_parse_html r NetworkError s) =
     lastModelUsed s.
Proof.
  cbv zeta. split; [left; reflexivity|].
  destruct (@C2_failure_path sample_marked sample_parse_html
              {| req_bubble := 2; req_model := sample_model |} NetworkError
              (run sample_marked sample_parse_html sample_container one_send
                 (init sample_marked sample_parse_html sample_send sample_page []
                       sample_model []))
              (or_introl eq_refl)) as (_ & _ & H & _).
  exact H.
Defined.

Lemma C8_copy_click_witness :
  let s := init sample_marked sample_parse_html sample_send sample_page []
                sample_model [] in
  let l := InPage [0; 0] in
  lookup l s = Some (Elem sample_bound [Text copy_label]) /\
  onclick sample_bound = Some CopyHandler /\
  Forall (fun l' => handler_at l' s = None) (ancestors sample_container l) /\
  parent_of sample_container l s = Some (activate_node sample_wrapper) /\
  querySelector_code (activate_node sample_wrapper) = Some sample_code /\
  innerText sample_code = print1 /\
  log (step sample_marked sample_parse_html sample_container (ClickOn l) s) =
  log s ++ [EvClipboardWrite print1].
Proof.
  cbv zeta.
  assert (H1 : lookup (InPage [0; 0])
                 (init sample_marked sample_parse_html sample_send
                       sample_page [] sample_model []) =
               Some (Elem sample_bound [Text copy_label]))
    by (vm_compute; reflexivity).
  assert (H2 : onclick sample_bound = Some CopyHandler) by reflexivity.
  assert (Hno : Forall
                  (fun l' =>
                     handler_at l'
                       (init sample_marked sample_parse_html sample_send
                             sample_page [] sample_model []) = None)
                  (ancestors sample_container (InPage [0; 0])))
    by (vm_compute; repeat constructor).
  assert (H3 : parent_of sample_container (InPage [0; 0])
                 (init sample_marked sample_parse_html sample_send
                       sample_page [] sample_model []) =
               Some (activate_node sample_wrapper))
    by (vm_compute; reflexivity).
  assert (H4 : querySelector_code (activate_node sample_wrapper) =
               Some sample_code) by (vm_compute; reflexivity).
  assert (H5 : innerText sample_code = print1) by (vm_compute; reflexivity).
  destruct (@C8_copy_click sample_marked sample_parse_html sample_container
              (init sample_marked sample_parse_html sample_send
                    sample_page [] sample_model [])
              (InPage [0; 0]) sample_bound [Text copy_label]
              (activate_node sample_wrapper) sample_code print1
              H1 H2 Hno H3 H4 H5) as [H _].
  exact (conj H1 (conj H2 (conj Hno (conj H3 (conj H4 (conj H5 H)))))).
Defined.

Lemma C6_in_flight_accounting_witness :
  truthy (trim (lit "again")) = true /\
  (let s := run sample_marked sample_parse_html sample_container one_send
              (init sample_marked sample_parse_html sample_send sample_page
                    [] sample_model []) in
   length (in_flight
             (step sample_marked sample_parse_html sample_container ClickSend
                (step sample_marked sample_parse_html sample_container
                   (Input (lit "again")) s)))
   = S (length (in_flight s))) /\
  (let acts := one_send ++ [Respond 0 (JsonNoReply 500 None)] in
   let s0 := init sample_marked sample_parse_html sample_send sample_page
                  [] sample_model [] in
   let s := run sample_marked sample_parse_html sample_container acts s0 in
   length (in_flight s) +
     resumed_calls sample_marked sample_parse_html sample_container acts s0 =
   count_events is_fetch (log s)).
Proof.
  split; [reflexivity|]. cbv zeta. split.
  - destruct (@C6_in_flight_accounting sample_marked sample_parse_html
                sample_container sample_send sample_page [] sample_model []
                one_send) as (_ & _ & _ & H).
    exact (H (lit "again") eq_refl).
  - exact (proj1 (@C6_in_flight_accounting sample_marked sample_parse_html
                    sample_container sample_send sample_page [] sample_model
                    [] (one_send ++ [Respond 0 (JsonNoReply 500 None)]))).
Defined.

(** Two sends in a row leave two calls in flight. *)
Lemma C6_two_sends_counterexample :
  ~ at_most_one_in_flight
      (run sample_marked sample_parse_html sample_container two_sends
         (init sample_marked sample_parse_html sample_send sample_page []
               sample_model [])).
Proof. unfold at_most_one_in_flight. vm_compute. lia. Qed.

(** A reply whose [system_note] is present and empty: no sound is played
    and no system note is appended. *)
Lemma C1_empty_note_counterexample :
  let s := run sample_marked sample_parse_html sample_container
             (one_send ++ [Respond 0 (JsonReply 200 empty_note_reply)])
             (init sample_marked sample_parse_html sample_send sample_page []
                   sample_model []) in
  system_note empty_note_reply = Some [] /\
  count_events is_play (log s) = 0 /\
  count_events is_system_append (log s) = 0.
Proof. vm_compute. repeat split. Qed.

(** A body that is the JSON text null, with status 500: the [catch]
    block runs; [lastModelUsed] keeps the model used before and the
    error message is shown. *)
Lemma C10_null_body_counterexample :
  let s := run sample_marked sample_parse_html sample_container
             (send_after_switch ++ [Respond 0 (JsonNull 500)])
             (init sample_marked sample_parse_html sample_send sample_page []
                   sample_model []) in
  lastModelUsed s = sample_model /\
  sample_model <> other_model /\
  count_events is_completion (log s) = 1 /\
  In (EvConsoleError TypeError_null) (log s) /\
  exists others,
    map entry_node (chat s) =
    others ++ [ai_node sample_marked sample_parse_html error_text].
Proof.
  vm_compute. split; [reflexivity|]. split; [discriminate|].
  split; [reflexivity|]. split; [tauto|].
  eexists [_; _; _]. reflexivity.
Qed.

(** ** The further properties on the sample environment *)

Lemma X1_keydown_sends_on_plain_enter_witness :
  let s := step sample_marked sample_parse_html sample_container (Input (lit "hello"))
             (init sample_marked sample_parse_html sample_send sample_page []
                   sample_model []) in
  step sample_marked sample_parse_html sample_container (Keydown (lit "Enter") false) s =
    step sample_marked sample_parse_html sample_container ClickSend s /\
  (lit "a" <> lit "Enter" \/ false = true) /\
  step sample_marked sample_parse_html sample_container (Keydown (lit "a") false) s = s.
Proof.
  cbv zeta.
  assert (N : lit "a" <> lit "Enter" \/ false = true)
    by (left; discriminate).
  split; [|split; [exact N|]].
  - exact (proj1 (@X1_keydown_sends_on_plain_enter sample_marked
                    sample_parse_html sample_container
                    (lit "Enter") false _)
                 eq_refl eq_refl).
  - exact (proj2 (@X1_keydown_sends_on_plain_enter sample_marked
                    sample_parse_html sample_container
                    (lit "a") false _) N).
Defined.

Lemma X2_unclosed_block_left_alone_witness :
  includes pre_code_close (lit "<p>a</p><pre><code>x = 1") = false /\
  wrap_code_blocks (lit "<p>a</p><pre><code>x = 1") =
  lit "<p>a</p><pre><code>x = 1".
Proof.
  split; [reflexivity|].
  apply X2_unclosed_block_left_alone. reflexivity.
Defined.

Lemma X3_block_ends_at_first_close_witness :
  fence_ok {| fence_lang := None; fence_code := lit "a" |} = true /\
  wrap_code_blocks
    (fence_html {| fence_lang := None;
                   fence_code := lit "a" ++ pre_code_close ++ lit "b" |} ++
     []) =
  code_wrapper (lit "a") ++
  wrap_code_blocks (lit "b" ++ pre_code_close ++ []).
Proof.
  split; [reflexivity|].
  exact (proj1 (@X3_block_ends_at_first_close None (lit "a") (lit "b") []
                  eq_refl)).
Defined.

Lemma X4_message_is_trimmed_input_witness :
  let s := step sample_marked sample_parse_html sample_container (Input (lit "  hello "))
             (init sample_marked sample_parse_html sample_send sample_page []
                   sample_model []) in
  forallb is_trimmed_char (input_value s) = false /\
  exists before,
    log (sendMessage sample_parse_html s) =
    before ++ [EvFetch chat_url
                 {| message := trim (input_value s);
                    model := select_value s;
                    prev_model := lastModelUsed s |}].
Proof.
  cbv zeta. split; [reflexivity|].
  destruct (@X4_message_is_trimmed_input sample_parse_html
              (step sample_marked sample_parse_html sample_container (Input (lit "  hello "))
                 (init sample_marked sample_parse_html sample_send sample_page []
                       sample_model [])))
    as (_ & _ & _ & _ & H).
  exact (H eq_refl).
Defined.

Lemma X6_transcript_append_only_witness :
  let s := run sample_marked sample_parse_html sample_container one_send
             (init sample_marked sample_parse_html sample_send sample_page
                   [] sample_model []) in
  let a := Respond 0 (JsonNoReply 500 (Some (lit "busy"))) in
  Forall (fun b => b < next_id s) (owned_bubbles s) /\
  exists k,
    entry_ids (step sample_marked sample_parse_html sample_container a s) =
    without (removed_by a s) (entry_ids s) ++ seq (next_id s) k.
Proof.
  cbv zeta.
  assert (H1 : Forall
                 (fun b =>
                    b < next_id
                          (run sample_marked sample_parse_html
                             sample_container one_send
                             (init sample_marked sample_parse_html
                                   sample_send sample_page [] sample_model
                                   [])))
                 (owned_bubbles
                    (run sample_marked sample_parse_html sample_container
                       one_send
                       (init sample_marked sample_parse_html sample_send
                             sample_page [] sample_model []))))
    by (vm_compute; repeat constructor).
  destruct (@X6_transcript_append_only sample_marked sample_parse_html
              sample_container
              (Respond 0 (JsonNoReply 500 (Some (lit "busy"))))
              (run sample_marked sample_parse_html sample_container one_send
                 (init sample_marked sample_parse_html sample_send
                       sample_page [] sample_model []))
              H1)
    as (k & H & _).
  exact (conj H1 (ex_intro _ k H)).
Defined.

Lemma X7_entries_persist_witness :
  let s := run sample_marked sample_parse_html sample_container one_send
             (init sample_marked sample_parse_html sample_send sample_page []
                   sample_model []) in
  In 1 (entry_ids s) /\ ~ In 1 (owned_bubbles s) /\
  In 1 (entry_ids
          (run sample_marked sample_parse_html sample_container [Respond 0 NetworkError] s)).
Proof.
  cbv zeta.
  assert (H1 : In 1 (entry_ids
                       (run sample_marked sample_parse_html sample_container one_send
                          (init sample_marked sample_parse_html sample_send sample_page
                                [] sample_model []))))
    by (vm_compute; tauto).
  assert (H2 : ~ In 1 (owned_bubbles
                         (run sample_marked sample_parse_html sample_container one_send
                            (init sample_marked sample_parse_html sample_send
                                  sample_page [] sample_model []))))
    by (vm_compute; intros [H|[]]; discriminate).
  exact (conj H1 (conj H2
           (@X7_entries_persist sample_marked sample_parse_html
              sample_container sample_send sample_page
              [] sample_model [] one_send [Respond 0 NetworkError] 1
              H1 H2))).
Defined.

Lemma X8_turn_round_trip_witness :
  let s := step sample_marked sample_parse_html sample_container
             (Input (lit " hello "))
             (init sample_marked sample_parse_html sample_send sample_page
                   [] sample_model []) in
  let s2 := step sample_marked sample_parse_html sample_container
              (Respond (length (in_flight s)) (JsonNoReply 500 None))
              (step sample_marked sample_parse_html sample_container
                 ClickSend s) in
  truthy (trim (input_value s)) = true /\
  Forall (fun i => i < next_id s) (entry_ids s) /\
  in_flight s2 = in_flight s /\
  lastModelUsed s2 = select_value s.
Proof.
  cbv zeta.
  assert (H1 : truthy (trim (input_value
                 (step sample_marked sample_parse_html sample_container
                    (Input (lit " hello "))
                    (init sample_marked sample_parse_html sample_send
                          sample_page [] sample_model [])))) = true)
    by (vm_compute; reflexivity).
  assert (H2 : Forall (fun i => i < next_id
                 (step sample_marked sample_parse_html sample_container
                    (Input (lit " hello "))
                    (init sample_marked sample_parse_html sample_send
                          sample_page [] sample_model [])))
                 (entry_ids
                    (step sample_marked sample_parse_html sample_container
                       (Input (lit " hello "))
                       (init sample_marked sample_parse_html sample_send
                             sample_page [] sample_model []))))
    by (vm_compute; repeat constructor).
  destruct (@X8_turn_round_trip sample_marked sample_parse_html
              sample_container
              (step sample_marked sample_parse_html sample_container
                 (Input (lit " hello "))
                 (init sample_marked sample_parse_html sample_send
                       sample_page [] sample_model []))
              (JsonNoReply 500 None) H1 H2) as (_ & H & _ & _ & L).
  exact (conj H1 (conj H2 (conj H L))).
Defined.

Lemma X10_model_captured_at_send_witness :
  let s := step sample_marked sample_parse_html sample_container (Input (lit "hello"))
             (init sample_marked sample_parse_html sample_send sample_page []
                   sample_model []) in
  truthy (trim (input_value s)) = true /\
  lastModelUsed
    (step sample_marked sample_parse_html sample_container
       (Respond (length (in_flight s))
          (JsonReply 200 {| reply := lit "hi"; system_note := None |}))
       (step sample_marked sample_parse_html sample_container (ChangeModel other_model)
          (step sample_marked sample_parse_html sample_container ClickSend s))) =
  select_value s.
Proof.
  cbv zeta.
  assert (H1 : truthy (trim (input_value
                 (step sample_marked sample_parse_html sample_container (Input (lit "hello"))
                    (init sample_marked sample_parse_html sample_send sample_page []
                          sample_model [])))) = true)
    by (vm_compute; reflexivity).
  destruct (@X10_model_captured_at_send sample_marked sample_parse_html
              sample_container
              (step sample_marked sample_parse_html sample_container (Input (lit "hello"))
                 (init sample_marked sample_parse_html sample_send sample_page []
                       sample_model []))
              other_model 200 {| reply := lit "hi"; system_note := None |}
              H1) as (H & _).
  exact (conj H1 H).
Defined.

Lemma X11_trace_order_witness :
  let tr := log (run sample_marked sample_parse_html sample_container
                   [ChangeModel other_model]
                   (init sample_marked sample_parse_html sample_send sample_page []
                         sample_model [])) in
  exists l1 l2,
    tr = l1 ++ EvPlayClick :: l2 /\
    exists e l3, l2 = EvAppendChild e :: EvScroll :: l3 /\
                 is_system_entry e = true.
Proof.
  cbv zeta.
  destruct (@X11_trace_order sample_marked sample_parse_html
              sample_container sample_send sample_page []
              sample_model [] [ChangeModel other_model]) as (_ & H & _).
  eexists (firstn 3 _), (skipn 4 _).
  assert (E : log (run sample_marked sample_parse_html sample_container
                     [ChangeModel other_model]
                     (init sample_marked sample_parse_html sample_send sample_page []
                           sample_model [])) =
              firstn 3 (log (run sample_marked sample_parse_html sample_container
                               [ChangeModel other_model]
                               (init sample_marked sample_parse_html sample_send
                                     sample_page [] sample_model []))) ++
              EvPlayClick ::
              skipn 4 (log (run sample_marked sample_parse_html sample_container
                              [ChangeModel other_model]
                              (init sample_marked sample_parse_html sample_send
                                    sample_page [] sample_model []))))
    by (vm_compute; reflexivity).
  split; [exact E|]. exact (H _ _ E).
Defined.

Lemma X12_click_effects_witness :
  let s := step sample_marked sample_parse_html sample_container
             (Input (lit "hello"))
             (init sample_marked sample_parse_html sample_send sample_page
                   [] sample_model []) in
  let l := InPage [2; 0] in
  lookup l s <> None /\
  l :: ancestors sample_container l =
    [InPage [2; 0]] ++ InPage [2] :: [InPage []] /\
  Forall (fun l' => handler_at l' s = None)
         ([InPage [2; 0]] ++ [InPage []]) /\
  handler_at (InPage [2]) s = Some SendHandler /\
  step sample_marked sample_parse_html sample_container (ClickOn l) s =
  step sample_marked sample_parse_html sample_container ClickSend s.
Proof.
  cbv zeta.
  assert (H1 : lookup (InPage [2; 0])
                 (step sample_marked sample_parse_html sample_container
                    (Input (lit "hello"))
                    (init sample_marked sample_parse_html sample_send
                          sample_page [] sample_model [])) <> None)
    by (vm_compute; discriminate).
  assert (H2 : InPage [2; 0] :: ancestors sample_container (InPage [2; 0]) =
               [InPage [2; 0]] ++ InPage [2] :: [InPage []])
    by reflexivity.
  assert (H3 : Forall
                 (fun l' =>
                    handler_at l'
                      (step sample_marked sample_parse_html sample_container
                         (Input (lit "hello"))
                         (init sample_marked sample_parse_html sample_send
                               sample_page [] sample_model [])) = None)
                 ([InPage [2; 0]] ++ [InPage []]))
    by (vm_compute; repeat constructor).
  assert (H4 : handler_at (InPage [2])
                 (step sample_marked sample_parse_html sample_container
                    (Input (lit "hello"))
                    (init sample_marked sample_parse_html sample_send
                          sample_page [] sample_model [])) =
               Some SendHandler)
    by (vm_compute; reflexivity).
  destruct (@X12_click_effects sample_marked sample_parse_html
              sample_container (InPage [2; 0]) (InPage [2])
              [InPage [2; 0]] [InPage []]
              (step sample_marked sample_parse_html sample_container
                 (Input (lit "hello"))
                 (init sample_marked sample_parse_html sample_send
                       sample_page [] sample_model []))
              H1 H2 H3) as (_ & _ & H & _).
  exact (conj H1 (conj H2 (conj H3 (conj H4 (H H4))))).
Defined.

(** A copy button inside another one: the click on the inner button
    bubbles to the outer one, and both ask for a clipboard write. *)
Example click_on_nested_copy_buttons :
  let inner := Elem (new_element (lit "button") [lit "copy-btn"])
                    [Text copy_label] in
  let outer := Elem (new_element (lit "button") [lit "copy-btn"])
                    [inner; sample_code] in
  let page0 := Elem (new_element (lit "body") [])
                    [Elem (new_element (lit "div") [lit "code-wrapper"])
                          [outer; sample_code];
                     Elem (new_element (lit "div") []) [];
                     Elem (new_element (lit "button") [])
                          [Text (lit "Send")]] in
  let s := init sample_marked sample_parse_html sample_send page0 []
                sample_model [] in
  log (step sample_marked sample_parse_html sample_container
         (ClickOn (InPage [0; 0; 0])) s) =
  log s ++ [EvClipboardWrite print1; EvClipboardWrite print1].
Proof. vm_compute. reflexivity. Qed.
